(** * Luma smart-helmet firmware: event detection, arbitration and wire format

    A shallow embedding of the ESP32-C3 firmware
    ([esp32_firmware/src/main.cpp], [include/classifier.h],
    [include/feature_extraction.h]) and the properties of its detection
    pipeline.

    - [float] values are IEEE-754 binary32 numbers, computed with the
      Standard Library's [SpecFloat] operations at precision 24 and maximal
      exponent 128 (round to nearest, ties to even).
    - [unsigned long] values are integers modulo 2^32 with the wrap-around
      written out ([u32]).
    - The file-scope variables of [main.cpp] form the record [State]; every
      function that touches them takes and returns the state.
    - The hardware clock [millis()] and the sensor [readMPU6500] are inputs
      of a loop iteration ([LoopInput]); what the firmware sends over the
      wireless link or reads from the sensor is recorded as a list of
      [Effect]s. *)

From Stdlib Require Import ZArith List Bool String Ascii Lia.
From Stdlib Require Import Floats.SpecFloat.
From stdpp Require Import base decidable list.
Import ListNotations.

#[local] Open Scope Z_scope.

(* ================================================================== *)
(** * Binary32 floating point *)
(* ================================================================== *)

Module F32.

Definition prec : Z := 24.
Definition emax : Z := 128.

Definition float := spec_float.

Definition add : float -> float -> float := SFadd prec emax.
Definition sub : float -> float -> float := SFsub prec emax.
Definition mul : float -> float -> float := SFmul prec emax.
Definition div : float -> float -> float := SFdiv prec emax.
Definition sqrt : float -> float := SFsqrt prec emax.
Definition abs : float -> float := SFabs.

(** C comparisons: every comparison with a NaN operand is false. *)
Definition ltb (x y : float) : bool := SFltb x y.
Definition gtb (x y : float) : bool := SFltb y x.
Definition eqb (x y : float) : bool := SFeqb x y.

(** Conversion of an integer, [(float)n]. *)
Definition of_Z (n : Z) : float := binary_normalize prec emax n 0 false.

(** A decimal literal [n/d] with [n] and [d] exactly representable: the
    correctly rounded quotient is the binary32 number nearest to it. *)
Definition ratio (n d : Z) : float := div (of_Z n) (of_Z d).

Definition zero : float := S754_zero false.

Definition valid (x : float) : bool := valid_binary prec emax x.

(** ** Interchange encoding (the 32-bit object representation)

    [spec_float] has a single NaN; its encoding is the canonical quiet
    NaN. *)
Definition sign_bit (s : bool) : Z := if s then 2147483648 else 0.

Definition bits_of_float (x : float) : Z :=
  match x with
  | S754_zero s => sign_bit s
  | S754_infinity s => sign_bit s + 2139095040
  | S754_nan => 2143289344
  | S754_finite s m e =>
      if Z.pos m <? 8388608
      then sign_bit s + Z.pos m
      else sign_bit s + (e + 150) * 8388608 + (Z.pos m - 8388608)
  end.

Definition float_of_bits (b : Z) : float :=
  let s := Z.testbit b 31 in
  let ex := (b / 8388608) mod 256 in
  let man := b mod 8388608 in
  if ex =? 0 then
    match man with
    | Z.pos m => S754_finite s m (-149)
    | _ => S754_zero s
    end
  else if ex =? 255 then
    (if man =? 0 then S754_infinity s else S754_nan)
  else
    match man + 8388608 with
    | Z.pos m => S754_finite s m (ex - 150)
    | _ => S754_nan
    end.

End F32.

Abbreviation float := F32.float.

(* ================================================================== *)
(** * Machine integers and little-endian bytes *)
(* ================================================================== *)

(** [unsigned long] on the ESP32-C3 is 32 bits wide. *)
Definition u32 (x : Z) : Z := x mod 4294967296.

(** [(uint8_t)x] *)
Definition u8 (x : Z) : Z := x mod 256.

(** [memcpy(&p[k], &w, 4)] of a 32-bit object on a little-endian target. *)
Definition le32 (w : Z) : list Z :=
  [ w mod 256; (w / 256) mod 256; (w / 65536) mod 256; (w / 16777216) mod 256 ].

Definition of_le32 (bs : list Z) : Z :=
  match bs with
  | [b0; b1; b2; b3] => b0 + 256 * b1 + 65536 * b2 + 16777216 * b3
  | _ => 0
  end.

(** The bytes [p[off] .. p[off+n-1]] of a payload. *)
Definition slice (off n : nat) (p : list Z) : list Z := take n (drop off p).

(* ================================================================== *)
(** * Data model *)
(* ================================================================== *)

(** [struct IMUData] of [feature_extraction.h]. *)
Record IMUData := mkIMU {
  accel_x : float; accel_y : float; accel_z : float;
  gyro_x : float; gyro_y : float; gyro_z : float;
  accel_mag : float;
  timestamp : Z
}.

(** Class ordinals, [classifier.h]. *)
Definition N_FEATURES : nat := 61.
Definition CLASS_BRAKE : Z := 0.
Definition CLASS_BUMP : Z := 1.
Definition CLASS_CRASH : Z := 2.
Definition CLASS_NORMAL : Z := 3.
Definition CLASS_TURN : Z := 4.

(* ================================================================== *)
(** * Wire format *)
(* ================================================================== *)

Module Wire.

(** Payload built by [sendIMUData]: seven [memcpy]s of four bytes. The
    last one copies the [unsigned long] timestamp itself. *)
Definition imu_payload (d : IMUData) : list Z :=
  le32 (F32.bits_of_float (accel_x d)) ++
  le32 (F32.bits_of_float (accel_y d)) ++
  le32 (F32.bits_of_float (accel_z d)) ++
  le32 (F32.bits_of_float (gyro_x d)) ++
  le32 (F32.bits_of_float (gyro_y d)) ++
  le32 (F32.bits_of_float (gyro_z d)) ++
  le32 (timestamp d).

(** Payload built by [sendEventNotification]. *)
Definition event_payload (cls : Z) (conf : float) : list Z :=
  u8 cls :: le32 (F32.bits_of_float conf).

(** Receiver side. Reading four bytes as a little-endian binary32. *)
Definition read_f32 (off : nat) (p : list Z) : float :=
  F32.float_of_bits (of_le32 (slice off 4 p)).

Definition read_u32 (off : nat) (p : list Z) : Z :=
  of_le32 (slice off 4 p).

(** The telemetry frame read as the firmware lays it out: six floats and
    a 32-bit unsigned timestamp. *)
Definition decode_imu (p : list Z) : list float * Z :=
  ([ read_f32 0 p; read_f32 4 p; read_f32 8 p;
     read_f32 12 p; read_f32 16 p; read_f32 20 p ],
   read_u32 24 p).

(** The telemetry frame read as the specification words it: seven
    little-endian binary32 numbers, the last being the timestamp as a
    float. *)
Definition decode_imu_spec (p : list Z) : list float :=
  [ read_f32 0 p; read_f32 4 p; read_f32 8 p;
    read_f32 12 p; read_f32 16 p; read_f32 20 p; read_f32 24 p ].

Definition decode_event (p : list Z) : Z * float :=
  (nth 0 p 0, read_f32 1 p).

End Wire.

(* ================================================================== *)
(** * Feature extraction ([feature_extraction.h]) *)
(* ================================================================== *)

Module Features.

(** C arrays are lists; [data[i]] is [data.[i]]. Every call site reads
    inside the array, so the default is never observed there. *)
Definition zeroIMU : IMUData :=
  mkIMU F32.zero F32.zero F32.zero F32.zero F32.zero F32.zero F32.zero 0.

Notation "a .[ i ]" := (nth i a F32.zero) (at level 1, format "a .[ i ]").

(** [for (int i = lo; i < hi; i++) acc = body(acc, i);] *)
Definition for_loop {A : Type} (lo hi : nat) (body : A -> nat -> A) (acc : A) : A :=
  fold_left body (seq lo (hi - lo)) acc.

Definition of_int (n : nat) : float := F32.of_Z (Z.of_nat n).

Definition calculateMean (data : list float) (size : nat) : float :=
  let sum := for_loop 0 size (fun sum i => F32.add sum data.[i]) F32.zero in
  F32.div sum (of_int size).

Definition calculateStd (data : list float) (size : nat) (mean : float) : float :=
  let sum :=
    for_loop 0 size
      (fun sum i => F32.add sum (F32.mul (F32.sub data.[i] mean) (F32.sub data.[i] mean)))
      F32.zero in
  F32.sqrt (F32.div sum (of_int size)).

Definition calculateSkewness (data : list float) (size : nat) (mean std : float) : float :=
  if F32.eqb std F32.zero then F32.zero
  else
    let sum :=
      for_loop 0 size
        (fun sum i =>
           let diff := F32.div (F32.sub data.[i] mean) std in
           F32.add sum (F32.mul (F32.mul diff diff) diff))
        F32.zero in
    F32.div sum (of_int size).

Definition calculateKurtosis (data : list float) (size : nat) (mean std : float) : float :=
  if F32.eqb std F32.zero then F32.zero
  else
    let sum :=
      for_loop 0 size
        (fun sum i =>
           let diff := F32.div (F32.sub data.[i] mean) std in
           F32.add sum (F32.mul (F32.mul (F32.mul diff diff) diff) diff))
        F32.zero in
    F32.sub (F32.div sum (of_int size)) (F32.of_Z 3).

(** ** The same two functions with a trapping division

    [div_by_std x std] is [x / std] when [std] compares different from
    zero and traps ([None]) when the divisor is a zero. Replacing the
    division by [std] in the two functions above shows where a zero
    divisor could reach it. *)
Definition div_by_std (x std : float) : option float :=
  if F32.eqb std F32.zero then None else Some (F32.div x std).

Definition for_loop_trap {A : Type} (lo hi : nat)
    (body : A -> nat -> option A) (acc : A) : option A :=
  fold_left (fun (r : option A) i =>
               match r with Some a => body a i | None => None end)
            (seq lo (hi - lo)) (Some acc).

Definition calculateSkewness_trap (data : list float) (size : nat) (mean std : float)
  : option float :=
  if F32.eqb std F32.zero then Some F32.zero
  else
    match for_loop_trap 0 size
            (fun sum i =>
               match div_by_std (F32.sub data.[i] mean) std with
               | Some diff => Some (F32.add sum (F32.mul (F32.mul diff diff) diff))
               | None => None
               end) F32.zero with
    | Some sum => Some (F32.div sum (of_int size))
    | None => None
    end.

Definition calculateKurtosis_trap (data : list float) (size : nat) (mean std : float)
  : option float :=
  if F32.eqb std F32.zero then Some F32.zero
  else
    match for_loop_trap 0 size
            (fun sum i =>
               match div_by_std (F32.sub data.[i] mean) std with
               | Some diff =>
                   Some (F32.add sum (F32.mul (F32.mul (F32.mul diff diff) diff) diff))
               | None => None
               end) F32.zero with
    | Some sum => Some (F32.sub (F32.div sum (of_int size)) (F32.of_Z 3))
    | None => None
    end.

Definition calculateZeroCrossingRate (data : list float) (size : nat) : float :=
  let mean := calculateMean data size in
  let crossings :=
    for_loop 1 size
      (fun crossings i =>
         if F32.ltb (F32.mul (F32.sub data.[i] mean) (F32.sub data.[i - 1] mean)) F32.zero
         then (crossings + 1)%nat else crossings)
      0%nat in
  F32.div (of_int crossings) (F32.mul (F32.of_Z 2) (of_int size)).

(** The scans the source repeats inline for every series:
    [m = a[0]; for (i = 1; i < n; i++) if (a[i] > m) m = a[i];] *)
Definition scan_max (a : list float) (n : nat) : float :=
  for_loop 1 n (fun m i => if F32.gtb a.[i] m then a.[i] else m) a.[0].

Definition scan_min (a : list float) (n : nat) : float :=
  for_loop 1 n (fun m i => if F32.ltb a.[i] m then a.[i] else m) a.[0].

(** Arduino's [max(a,b)] macro: [((a)>(b)?(a):(b))]. *)
Definition fmax (a b : float) : float := if F32.gtb a b then a else b.

(** Eight features of one accelerometer series. *)
Definition accel_block (a : list float) (n : nat) : list float :=
  let mean := calculateMean a n in
  let std := calculateStd a n mean in
  let mx := scan_max a n in
  let mn := scan_min a n in
  [ mean; std; mx; mn; F32.sub mx mn;
    mean (* median approximation *);
    calculateSkewness a n mean std;
    calculateKurtosis a n mean std ].

(** Six features of one gyroscope series. *)
Definition gyro_block (g : list float) (n : nat) : list float :=
  let mean := calculateMean g n in
  let std := calculateStd g n mean in
  let mx := scan_max g n in
  let mn := scan_min g n in
  [ mean; std; mx; mn; F32.sub mx mn; fmax (F32.abs mx) (F32.abs mn) ].

(** [for (i = 0; i < windowSize; i++) series[i] = buffer[i].field;] *)
Definition column (field : IMUData -> float) (buffer : list IMUData) (windowSize : nat)
  : list float :=
  map (fun i => field (nth i buffer zeroIMU)) (seq 0 windowSize).

(** [extractFeatures(buffer, windowSize, features)]: the result is the
    sequence of values stored by [features[idx++] = ...], in the order of
    [idx], followed by the zero padding of the final [while]. The buffer
    is read in array order [buffer[0] .. buffer[windowSize-1]]. *)
Definition extractFeatures (buffer : list IMUData) (windowSize : nat) : list float :=
  let ax := column accel_x buffer windowSize in
  let ay := column accel_y buffer windowSize in
  let az := column accel_z buffer windowSize in
  let am := column accel_mag buffer windowSize in
  let gx := column gyro_x buffer windowSize in
  let gy := column gyro_y buffer windowSize in
  let gz := column gyro_z buffer windowSize in
  let gm :=
    map (fun i =>
           F32.sqrt (F32.add (F32.add (F32.mul gx.[i] gx.[i]) (F32.mul gy.[i] gy.[i]))
                             (F32.mul gz.[i] gz.[i])))
        (seq 0 windowSize) in
  let dt := F32.div (F32.of_Z 1) (F32.of_Z 50) in
  let jerk :=
    map (fun i => F32.div (F32.abs (F32.sub am.[i + 1] am.[i])) dt)
        (seq 0 (windowSize - 1)) in
  let gm_mean := calculateMean gm windowSize in
  let gm_max := scan_max gm windowSize in
  let jerk_mean := calculateMean jerk (windowSize - 1) in
  let jerk_std := calculateStd jerk (windowSize - 1) jerk_mean in
  let jerk_max := scan_max jerk (windowSize - 1) in
  let accel_energy :=
    for_loop 0 windowSize (fun e i => F32.add e (F32.mul am.[i] am.[i])) F32.zero in
  let gyro_energy :=
    for_loop 0 windowSize (fun e i => F32.add e (F32.mul gm.[i] gm.[i])) F32.zero in
  let peak_idx :=
    for_loop 1 windowSize
      (fun peak i => if F32.gtb am.[i] am.[peak] then i else peak) 0%nat in
  let features :=
    accel_block ax windowSize ++
    accel_block ay windowSize ++
    accel_block az windowSize ++
    accel_block am windowSize ++
    gyro_block gx windowSize ++
    gyro_block gy windowSize ++
    gyro_block gz windowSize ++
    [ gm_mean; gm_max ] ++
    [ jerk_mean; jerk_max; jerk_std ] ++
    [ F32.div accel_energy (of_int windowSize);
      F32.div gyro_energy (of_int windowSize) ] ++
    [ calculateZeroCrossingRate gx windowSize;
      calculateZeroCrossingRate gy windowSize;
      calculateZeroCrossingRate gz windowSize ] ++
    [ F32.div (of_int peak_idx) (of_int windowSize) ] in
  features ++ repeat F32.zero (N_FEATURES - length features).

End Features.

(* ================================================================== *)
(** * Threshold classifier ([classifier.h]) *)
(* ================================================================== *)

Module Classifier.

Import Features.

(** The condition of each [if] of [classifyEvent], in source order, over
    [accel_z_std = f[17]], [accel_mag_max = f[26]], [gyro_mag_max = f[51]],
    [jerk_mean = f[52]] and [jerk_max = f[53]]. *)
Definition crashPredicate (f : list float) : bool :=
  let accel_mag_max := f.[26] in
  let gyro_mag_max := f.[51] in
  let jerk_max := f.[53] in
  let crashImpact := F32.gtb accel_mag_max (F32.ratio 32 10) in
  let crashJerk := F32.gtb jerk_max (F32.of_Z 55) in
  let crashGyro := F32.gtb gyro_mag_max (F32.of_Z 220) in
  (crashImpact && crashJerk && crashGyro) ||
  (F32.gtb accel_mag_max (F32.ratio 36 10) && F32.gtb jerk_max (F32.of_Z 45)
     && F32.gtb gyro_mag_max (F32.of_Z 180)).

Definition brakePredicate (f : list float) : bool :=
  let accel_z_std := f.[17] in
  let accel_mag_max := f.[26] in
  let gyro_mag_max := f.[51] in
  let jerk_mean := f.[52] in
  let jerk_max := f.[53] in
  let brakeJerkBand :=
    F32.gtb jerk_mean (F32.of_Z 6) && F32.ltb jerk_mean (F32.of_Z 35) in
  let brakeJerkMax :=
    F32.gtb jerk_max (F32.of_Z 14) && F32.ltb jerk_max (F32.of_Z 55) in
  let brakeLowGyro := F32.ltb gyro_mag_max (F32.of_Z 140) in
  let brakeLowImpact := F32.ltb accel_mag_max (F32.ratio 26 10) in
  brakeJerkBand && brakeJerkMax && brakeLowGyro && brakeLowImpact
    && F32.ltb accel_z_std (F32.ratio 9 10).

Definition turnPredicate (f : list float) : bool :=
  let accel_mag_max := f.[26] in
  let gyro_mag_max := f.[51] in
  F32.gtb gyro_mag_max (F32.of_Z 200) && F32.ltb accel_mag_max (F32.ratio 22 10).

Definition bumpPredicate (f : list float) : bool :=
  let accel_mag_max := f.[26] in
  let jerk_max := f.[53] in
  F32.gtb accel_mag_max (F32.ratio 22 10) && F32.ltb accel_mag_max (F32.ratio 32 10)
    && F32.gtb jerk_max (F32.of_Z 18) && F32.ltb jerk_max (F32.of_Z 70).

Definition classifyEvent (f : list float) : Z :=
  if crashPredicate f then CLASS_CRASH
  else if brakePredicate f then CLASS_BRAKE
  else if turnPredicate f then CLASS_TURN
  else if bumpPredicate f then CLASS_BUMP
  else CLASS_NORMAL.

(** Arduino's [constrain(amt,low,high)] macro. *)
Definition constrain (amt low high : float) : float :=
  if F32.ltb amt low then low else if F32.gtb amt high then high else amt.

Definition getClassConfidence (f : list float) (c : Z) : float :=
  let am := f.[26] in
  let jm := f.[52] in
  let jx := f.[53] in
  let gm := f.[51] in
  if c =? CLASS_CRASH then
    let s1 := F32.div (F32.sub am (F32.of_Z 3)) (F32.ratio 18 10) in
    let s2 := F32.div (F32.sub jx (F32.of_Z 45)) (F32.of_Z 60) in
    let s3 := F32.div (F32.sub gm (F32.of_Z 180)) (F32.of_Z 260) in
    constrain (fmax s1 (fmax s2 s3)) (F32.ratio 2 10) (F32.of_Z 1)
  else if c =? CLASS_BRAKE then
    let s1 := F32.div (F32.sub jm (F32.of_Z 6)) (F32.of_Z 30) in
    let s2 := F32.div (F32.sub jx (F32.of_Z 14)) (F32.of_Z 40) in
    constrain (F32.add (F32.mul (F32.ratio 5 10) s1) (F32.mul (F32.ratio 5 10) s2))
              (F32.ratio 2 10) (F32.ratio 95 100)
  else if c =? CLASS_TURN then
    let s := F32.div (F32.sub gm (F32.of_Z 200)) (F32.of_Z 250) in
    constrain s (F32.ratio 2 10) (F32.ratio 9 10)
  else if c =? CLASS_BUMP then
    let s := F32.div (F32.sub am (F32.of_Z 2)) (F32.ratio 15 10) in
    constrain s (F32.ratio 2 10) (F32.ratio 85 100)
  else F32.ratio 8 10.

(** The specification's reading of the classifier: an ordered list of
    (predicate, class) rules, the first rule whose predicate holds wins,
    and [Normal] when none does. *)
Definition priority_rules : list ((list float -> bool) * Z) :=
  [ (crashPredicate, CLASS_CRASH); (brakePredicate, CLASS_BRAKE);
    (turnPredicate, CLASS_TURN); (bumpPredicate, CLASS_BUMP) ].

Fixpoint first_match (rules : list ((list float -> bool) * Z)) (f : list float) : Z :=
  match rules with
  | [] => CLASS_NORMAL
  | (p, c) :: rest => if p f then c else first_match rest f
  end.

End Classifier.

(* ================================================================== *)
(** * Firmware state and main loop ([main.cpp]) *)
(* ================================================================== *)

Module Firmware.

Import Features Classifier Wire.

Inductive LEDPattern :=
| LED_OFF
| LED_BRAKE
| LED_CRASH
| LED_TURN_LEFT
| LED_TURN_RIGHT
| LED_PARTY
| LED_CONNECTED_GREEN
| LED_ARMED_RED
| LED_IDLE.

#[global] Instance LEDPattern_eq_dec : EqDecision LEDPattern.
Proof. solve_decision. Defined.

Definition LED_COUNT : Z := 12.
Definition IMU_SAMPLE_RATE : Z := 50.
Definition EVENT_WINDOW_SIZE : nat := 150.
Definition SAMPLE_INTERVAL_MS : Z := 1000 / IMU_SAMPLE_RATE.

Definition LOCAL_BRAKE_COOLDOWN_MS : Z := 400.
Definition LOCAL_CRASH_COOLDOWN_MS : Z := 3000.
Definition ML_BRAKE_COOLDOWN_MS : Z := 1500.
Definition ML_CRASH_COOLDOWN_MS : Z := 5000.
Definition ML_ATTEMPT_COOLDOWN_MS : Z := 800.

(** The file-scope variables of [main.cpp], with the function-local
    [static float lastMagLocal] of [loop]. Times are [unsigned long]
    milliseconds; [bufferIndex] stays below [EVENT_WINDOW_SIZE];
    [ledAnimationStep] is an [int] that the animations keep small, its
    increments are written without overflow. *)
Record State := mkState {
  deviceConnected : bool;
  imuBuffer : list IMUData;
  bufferIndex : nat;
  bufferFull : bool;
  lastAccelMag : float;
  lastLocalBrakeMs : Z;
  lastLocalCrashMs : Z;
  lastMLBrakeMs : Z;
  lastMLCrashMs : Z;
  lastMLAttemptMs : Z;
  currentPattern : LEDPattern;
  savedPattern : LEDPattern;
  lastLEDUpdate : Z;
  ledAnimationStep : Z;
  brakeEndTime : Z;
  connectGreenUntil : Z;
  lastSampleTime : Z;
  lastMagLocal : float
}.

Definition init_state : State :=
  {| deviceConnected := false;
     imuBuffer := replicate EVENT_WINDOW_SIZE zeroIMU;
     bufferIndex := 0%nat;
     bufferFull := false;
     lastAccelMag := F32.of_Z 1;
     lastLocalBrakeMs := 0;
     lastLocalCrashMs := 0;
     lastMLBrakeMs := 0;
     lastMLCrashMs := 0;
     lastMLAttemptMs := 0;
     currentPattern := LED_IDLE;
     savedPattern := LED_IDLE;
     lastLEDUpdate := 0;
     ledAnimationStep := 0;
     brakeEndTime := 0;
     connectGreenUntil := 0;
     lastSampleTime := 0;
     lastMagLocal := F32.of_Z 1 |}.

(** ** Assignments to single variables *)

Definition set_link (b : bool) (p : LEDPattern) (st : State) : State :=
  mkState b (imuBuffer st) (bufferIndex st) (bufferFull st) (lastAccelMag st)
    (lastLocalBrakeMs st) (lastLocalCrashMs st) (lastMLBrakeMs st) (lastMLCrashMs st)
    (lastMLAttemptMs st) p (savedPattern st) (lastLEDUpdate st)
    (ledAnimationStep st) (brakeEndTime st) (connectGreenUntil st) (lastSampleTime st)
    (lastMagLocal st).

Definition set_buffer (buf : list IMUData) (idx : nat) (full : bool) (st : State) : State :=
  mkState (deviceConnected st) buf idx full (lastAccelMag st)
    (lastLocalBrakeMs st) (lastLocalCrashMs st) (lastMLBrakeMs st) (lastMLCrashMs st)
    (lastMLAttemptMs st) (currentPattern st) (savedPattern st) (lastLEDUpdate st)
    (ledAnimationStep st) (brakeEndTime st) (connectGreenUntil st) (lastSampleTime st)
    (lastMagLocal st).

Definition set_lastAccelMag (x : float) (st : State) : State :=
  mkState (deviceConnected st) (imuBuffer st) (bufferIndex st) (bufferFull st) x
    (lastLocalBrakeMs st) (lastLocalCrashMs st) (lastMLBrakeMs st) (lastMLCrashMs st)
    (lastMLAttemptMs st) (currentPattern st) (savedPattern st) (lastLEDUpdate st)
    (ledAnimationStep st) (brakeEndTime st) (connectGreenUntil st) (lastSampleTime st)
    (lastMagLocal st).

Definition set_lastLocalBrakeMs (t : Z) (st : State) : State :=
  mkState (deviceConnected st) (imuBuffer st) (bufferIndex st) (bufferFull st)
    (lastAccelMag st) t (lastLocalCrashMs st) (lastMLBrakeMs st) (lastMLCrashMs st)
    (lastMLAttemptMs st) (currentPattern st) (savedPattern st) (lastLEDUpdate st)
    (ledAnimationStep st) (brakeEndTime st) (connectGreenUntil st) (lastSampleTime st)
    (lastMagLocal st).

Definition set_lastLocalCrashMs (t : Z) (st : State) : State :=
  mkState (deviceConnected st) (imuBuffer st) (bufferIndex st) (bufferFull st)
    (lastAccelMag st) (lastLocalBrakeMs st) t (lastMLBrakeMs st) (lastMLCrashMs st)
    (lastMLAttemptMs st) (currentPattern st) (savedPattern st) (lastLEDUpdate st)
    (ledAnimationStep st) (brakeEndTime st) (connectGreenUntil st) (lastSampleTime st)
    (lastMagLocal st).

Definition set_lastMLBrakeMs (t : Z) (st : State) : State :=
  mkState (deviceConnected st) (imuBuffer st) (bufferIndex st) (bufferFull st)
    (lastAccelMag st) (lastLocalBrakeMs st) (lastLocalCrashMs st) t (lastMLCrashMs st)
    (lastMLAttemptMs st) (currentPattern st) (savedPattern st) (lastLEDUpdate st)
    (ledAnimationStep st) (brakeEndTime st) (connectGreenUntil st) (lastSampleTime st)
    (lastMagLocal st).

Definition set_lastMLCrashMs (t : Z) (st : State) : State :=
  mkState (deviceConnected st) (imuBuffer st) (bufferIndex st) (bufferFull st)
    (lastAccelMag st) (lastLocalBrakeMs st) (lastLocalCrashMs st) (lastMLBrakeMs st) t
    (lastMLAttemptMs st) (currentPattern st) (savedPattern st) (lastLEDUpdate st)
    (ledAnimationStep st) (brakeEndTime st) (connectGreenUntil st) (lastSampleTime st)
    (lastMagLocal st).

Definition set_lastMLAttemptMs (t : Z) (st : State) : State :=
  mkState (deviceConnected st) (imuBuffer st) (bufferIndex st) (bufferFull st)
    (lastAccelMag st) (lastLocalBrakeMs st) (lastLocalCrashMs st) (lastMLBrakeMs st)
    (lastMLCrashMs st) t (currentPattern st) (savedPattern st) (lastLEDUpdate st)
    (ledAnimationStep st) (brakeEndTime st) (connectGreenUntil st) (lastSampleTime st)
    (lastMagLocal st).

Definition set_currentPattern (p : LEDPattern) (st : State) : State :=
  set_link (deviceConnected st) p st.

Definition set_savedPattern (p : LEDPattern) (st : State) : State :=
  mkState (deviceConnected st) (imuBuffer st) (bufferIndex st) (bufferFull st)
    (lastAccelMag st) (lastLocalBrakeMs st) (lastLocalCrashMs st) (lastMLBrakeMs st)
    (lastMLCrashMs st) (lastMLAttemptMs st) (currentPattern st) p (lastLEDUpdate st)
    (ledAnimationStep st) (brakeEndTime st) (connectGreenUntil st) (lastSampleTime st)
    (lastMagLocal st).

(** [lastLEDUpdate = t; ledAnimationStep = n;] *)
Definition set_animation (t n : Z) (st : State) : State :=
  mkState (deviceConnected st) (imuBuffer st) (bufferIndex st) (bufferFull st)
    (lastAccelMag st) (lastLocalBrakeMs st) (lastLocalCrashMs st) (lastMLBrakeMs st)
    (lastMLCrashMs st) (lastMLAttemptMs st) (currentPattern st) (savedPattern st) t
    n (brakeEndTime st) (connectGreenUntil st) (lastSampleTime st)
    (lastMagLocal st).

Definition set_ledAnimationStep (n : Z) (st : State) : State :=
  set_animation (lastLEDUpdate st) n st.

Definition set_brakeEndTime (t : Z) (st : State) : State :=
  mkState (deviceConnected st) (imuBuffer st) (bufferIndex st) (bufferFull st)
    (lastAccelMag st) (lastLocalBrakeMs st) (lastLocalCrashMs st) (lastMLBrakeMs st)
    (lastMLCrashMs st) (lastMLAttemptMs st) (currentPattern st) (savedPattern st)
    (lastLEDUpdate st) (ledAnimationStep st) t (connectGreenUntil st) (lastSampleTime st)
    (lastMagLocal st).

Definition set_connectGreenUntil (t : Z) (st : State) : State :=
  mkState (deviceConnected st) (imuBuffer st) (bufferIndex st) (bufferFull st)
    (lastAccelMag st) (lastLocalBrakeMs st) (lastLocalCrashMs st) (lastMLBrakeMs st)
    (lastMLCrashMs st) (lastMLAttemptMs st) (currentPattern st) (savedPattern st)
    (lastLEDUpdate st) (ledAnimationStep st) (brakeEndTime st) t (lastSampleTime st)
    (lastMagLocal st).

Definition set_lastSampleTime (t : Z) (st : State) : State :=
  mkState (deviceConnected st) (imuBuffer st) (bufferIndex st) (bufferFull st)
    (lastAccelMag st) (lastLocalBrakeMs st) (lastLocalCrashMs st) (lastMLBrakeMs st)
    (lastMLCrashMs st) (lastMLAttemptMs st) (currentPattern st) (savedPattern st)
    (lastLEDUpdate st) (ledAnimationStep st) (brakeEndTime st) (connectGreenUntil st) t
    (lastMagLocal st).

Definition set_lastMagLocal (x : float) (st : State) : State :=
  mkState (deviceConnected st) (imuBuffer st) (bufferIndex st) (bufferFull st)
    (lastAccelMag st) (lastLocalBrakeMs st) (lastLocalCrashMs st) (lastMLBrakeMs st)
    (lastMLCrashMs st) (lastMLAttemptMs st) (currentPattern st) (savedPattern st)
    (lastLEDUpdate st) (ledAnimationStep st) (brakeEndTime st) (connectGreenUntil st)
    (lastSampleTime st) x.

(** [deviceConnected ? LED_ARMED_RED : LED_IDLE] *)
Definition restPattern (st : State) : LEDPattern :=
  if deviceConnected st then LED_ARMED_RED else LED_IDLE.

(** ** Interactions with the collaborators

    [SensorRead] is a call of [readMPU6500]; [ImuNotify] and [EventNotify]
    are notifications on the two characteristics, with their payload;
    [Classified] marks one run of feature extraction and classification
    (the place of the firmware's ["ML CLS=..."] debug line). The [Origin]
    of an event notification names the path that called
    [sendEventNotification]; it is not part of the payload. *)
Inductive Origin := LocalPath | ModelPath.

#[global] Instance Origin_eq_dec : EqDecision Origin.
Proof. solve_decision. Defined.

Inductive Effect :=
| SensorRead (d : IMUData)
| ImuNotify (payload : list Z)
| EventNotify (o : Origin) (payload : list Z)
| Classified (cls : Z) (conf : float).

(** ** Link callbacks *)

Definition onConnect (t : Z) (st : State) : State :=
  let st := set_link true LED_CONNECTED_GREEN st in
  let st := set_connectGreenUntil (u32 (t + 3000)) st in
  set_ledAnimationStep 0 st.

Definition onDisconnect (st : State) : State :=
  set_link false LED_IDLE st.

Definition onWrite (value : string) (st : State) : State :=
  if (0 <? String.length value)%nat then
    if String.eqb value "LEFT_ON" then
      set_ledAnimationStep 0 (set_currentPattern LED_TURN_LEFT st)
    else if String.eqb value "RIGHT_ON" then
      set_ledAnimationStep 0 (set_currentPattern LED_TURN_RIGHT st)
    else if String.eqb value "TURN_OFF" then
      set_currentPattern (restPattern st) st
    else if String.eqb value "PARTY_ON" then
      set_ledAnimationStep 0 (set_currentPattern LED_PARTY st)
    else if String.eqb value "PARTY_OFF" then
      set_currentPattern (restPattern st) st
    else if String.eqb value "CRASH_DISMISS" then
      set_currentPattern (restPattern st) st
    else st
  else st.

(** ** Outbound notifications *)

Definition sendIMUData (d : IMUData) (st : State) : list Effect :=
  if deviceConnected st then [ImuNotify (imu_payload d)] else [].

Definition sendEventNotification (o : Origin) (cls : Z) (conf : float) (st : State)
  : list Effect :=
  if deviceConnected st then [EventNotify o (event_payload cls conf)] else [].

Definition confFromJerk (jerk_gps lo hi : float) : float :=
  let t := F32.div (F32.sub jerk_gps lo) (F32.sub hi lo) in
  let t := if F32.ltb t F32.zero then F32.zero else t in
  let t := if F32.gtb t (F32.of_Z 1) then F32.of_Z 1 else t in
  F32.add (F32.ratio 2 10) (F32.mul (F32.ratio 8 10) t).

Definition reportLocalBrake (jerk_gps : float) (st : State) : list Effect :=
  sendEventNotification LocalPath CLASS_BRAKE
    (confFromJerk jerk_gps (F32.of_Z 14) (F32.of_Z 30)) st.

Definition reportLocalCrash (jerk_gps accel_mag : float) (st : State) : list Effect :=
  let c1 := confFromJerk jerk_gps (F32.of_Z 40) (F32.of_Z 90) in
  let c2 := confFromJerk accel_mag (F32.of_Z 3) (F32.of_Z 5) in
  let c := if F32.gtb c1 c2 then c1 else c2 in
  sendEventNotification LocalPath CLASS_CRASH c st.

(** ** LED state machine

    [updateLEDs] with the value [now] that its call of [millis()] reads.
    The pixel frame handed to the strip is not part of the state; what is
    kept is the pattern, its deadlines and the animation step. *)
Definition elapsed (now since : Z) : Z := u32 (now - since).

Definition updateLEDs (now : Z) (st : State) : State :=
  (* Brake timeout *)
  let st :=
    if bool_decide (currentPattern st = LED_BRAKE)
       && negb (brakeEndTime st =? 0) && (now >? brakeEndTime st)
    then set_brakeEndTime 0 (set_currentPattern (savedPattern st) st)
    else st in
  (* Connected green timeout -> armed red *)
  let st :=
    if bool_decide (currentPattern st = LED_CONNECTED_GREEN)
       && (now >? connectGreenUntil st)
    then set_animation 0 0 (set_currentPattern LED_ARMED_RED st)
    else st in
  let half := LED_COUNT / 2 in
  match currentPattern st with
  | LED_OFF => st
  | LED_CONNECTED_GREEN =>
      if elapsed now (lastLEDUpdate st) >? 30
      then set_animation now (ledAnimationStep st + 1) st else st
  | LED_ARMED_RED => st
  | LED_BRAKE =>
      if elapsed now (lastLEDUpdate st) >? 40
      then let n := ledAnimationStep st + 1 in
           set_animation now (if n >? half then 0 else n) st
      else st
  | LED_CRASH =>
      if elapsed now (lastLEDUpdate st) >? 100
      then set_animation now (if ledAnimationStep st =? 0 then 1 else 0) st
      else st
  | LED_TURN_LEFT | LED_TURN_RIGHT =>
      if elapsed now (lastLEDUpdate st) >? 70
      then let n := ledAnimationStep st + 1 in
           set_animation now (if n >? half + 2 then 0 else n) st
      else st
  | LED_PARTY =>
      if elapsed now (lastLEDUpdate st) >? 20
      then set_animation now (Z.rem (ledAnimationStep st + 1) 256) st
      else st
  | LED_IDLE =>
      if elapsed now (lastLEDUpdate st) >? 50
      then set_animation now (ledAnimationStep st + 1) st else st
  end.

(** ** Event detection *)

Definition detectEventTrigger (cur : IMUData) (st : State) : bool * State :=
  let jerk :=
    F32.mul (F32.abs (F32.sub (accel_mag cur) (lastAccelMag st)))
            (F32.of_Z IMU_SAMPLE_RATE) in
  let st := set_lastAccelMag (accel_mag cur) st in
  (F32.gtb (accel_mag cur) (F32.ratio 16 10) || F32.gtb jerk (F32.of_Z 6), st).

(** [fireBrakePattern(ms)], where [t] is what its [millis()] reads. *)
Definition fireBrakePattern (ms t : Z) (st : State) : State :=
  let st := set_savedPattern (restPattern st) st in
  let st := set_currentPattern LED_BRAKE st in
  let st := set_brakeEndTime (u32 (t + ms)) st in
  set_animation 0 0 st.

Definition fireCrashPattern (st : State) : State :=
  let st := set_savedPattern (restPattern st) st in
  let st := set_currentPattern LED_CRASH st in
  set_animation 0 0 st.

(** [classifyAndRespondToEvent(nowMs)]; [t] is the clock reading of the
    [fireBrakePattern] call. *)
Definition classifyAndRespondToEvent (nowMs t : Z) (st : State) : State * list Effect :=
  let features := extractFeatures (imuBuffer st) EVENT_WINDOW_SIZE in
  let cls := classifyEvent features in
  let conf := getClassConfidence features cls in
  let '(st, out) :=
    if cls =? CLASS_BRAKE then
      if ML_BRAKE_COOLDOWN_MS <=? elapsed nowMs (lastMLBrakeMs st) then
        let st := set_lastMLBrakeMs nowMs st in
        let st := fireBrakePattern 900 t st in
        (st, sendEventNotification ModelPath cls conf st)
      else if bool_decide (currentPattern st = LED_BRAKE)
      then (set_brakeEndTime (u32 (nowMs + 900)) st, [])
      else (st, [])
    else if cls =? CLASS_CRASH then
      if (ML_CRASH_COOLDOWN_MS <=? elapsed nowMs (lastMLCrashMs st))
         && negb (bool_decide (currentPattern st = LED_CRASH))
      then
        let st := set_lastMLCrashMs nowMs st in
        let st := fireCrashPattern st in
        (st, sendEventNotification ModelPath cls conf st)
      else (st, [])
    else (st, sendEventNotification ModelPath cls conf st) in
  (st, Classified cls conf :: out).

(** [imuBuffer[bufferIndex] = d; bufferIndex = (bufferIndex + 1) %
    EVENT_WINDOW_SIZE; if (bufferIndex == 0) bufferFull = true;] *)
Definition storeSample (d : IMUData) (st : State) : State :=
  let buf := <[bufferIndex st := d]> (imuBuffer st) in
  let idx := ((bufferIndex st + 1) mod EVENT_WINDOW_SIZE)%nat in
  set_buffer buf idx (if (idx =? 0)%nat then true else bufferFull st) st.

(** One iteration of the [for] of [capturePostSamples]: the busy wait runs
    [updateLEDs] at the clock readings [led_times], then a sample is read,
    stored and sent. *)
Record PostInput := mkPost {
  led_times : list Z;
  post_sample : IMUData
}.

Definition capturePostSamples (nSamples : nat) (post : nat -> PostInput) (st : State)
  : State * list Effect :=
  for_loop 0 nSamples
    (fun (acc : State * list Effect) i =>
       let '(st, out) := acc in
       let st := fold_left (fun s t => updateLEDs t s) (led_times (post i)) st in
       let d := post_sample (post i) in
       let st := storeSample d st in
       (st, out ++ SensorRead d :: sendIMUData d st))
    (st, []).

(** ** Main loop

    What one iteration of [loop] reads from its environment: [now] is
    [millis()] at its top, [sample] the result of [readMPU6500], [t_local]
    and [t_model] the clock readings inside [fireBrakePattern] on the local
    and on the model path, [post] the environment of the post-event
    capture, and [t_led] the clock reading of the closing [updateLEDs]. *)
Record LoopInput := mkLoopInput {
  now : Z;
  sample : IMUData;
  t_local : Z;
  post : nat -> PostInput;
  t_model : Z;
  t_led : Z
}.

(** The local fallback block of [loop]. *)
Definition localFallback (now t : Z) (d : IMUData) (st : State) : State * list Effect :=
  let jerkLocal :=
    F32.mul (F32.abs (F32.sub (accel_mag d) (lastMagLocal st)))
            (F32.of_Z IMU_SAMPLE_RATE) in
  let st := set_lastMagLocal (accel_mag d) st in
  (* Crash: big hit *)
  if negb (bool_decide (currentPattern st = LED_CRASH))
     && (LOCAL_CRASH_COOLDOWN_MS <=? elapsed now (lastLocalCrashMs st))
     && (F32.gtb (accel_mag d) (F32.of_Z 3) || F32.gtb jerkLocal (F32.of_Z 40))
  then
    let st := set_lastLocalCrashMs now st in
    let st := fireCrashPattern st in
    (st, reportLocalCrash jerkLocal (accel_mag d) st)
  (* Brake: strong jerk but not a big hit *)
  else if (LOCAL_BRAKE_COOLDOWN_MS <=? elapsed now (lastLocalBrakeMs st))
          && (F32.gtb jerkLocal (F32.of_Z 14) && F32.ltb (accel_mag d) (F32.ratio 22 10))
  then
    let st := set_lastLocalBrakeMs now st in
    if bool_decide (currentPattern st = LED_BRAKE)
    then (set_brakeEndTime (u32 (now + 800)) st, [])
    else let st := fireBrakePattern 800 t st in
         (st, reportLocalBrake jerkLocal st)
  else (st, []).

(** The model-path block of [loop]. *)
Definition modelPath (i : LoopInput) (st : State) : State * list Effect :=
  if bufferFull st && (ML_ATTEMPT_COOLDOWN_MS <=? elapsed (now i) (lastMLAttemptMs st))
  then
    let '(trig, st) := detectEventTrigger (sample i) st in
    if trig then
      let st := set_lastMLAttemptMs (now i) st in
      let '(st, out1) := capturePostSamples 25 (post i) st in
      let '(st, out2) := classifyAndRespondToEvent (now i) (t_model i) st in
      (st, out1 ++ out2)
    else (st, [])
  else (st, []).

Definition loop (i : LoopInput) (st : State) : State * list Effect :=
  let '(st, out) :=
    if SAMPLE_INTERVAL_MS <=? elapsed (now i) (lastSampleTime st) then
      let st := set_lastSampleTime (now i) st in
      let d := sample i in
      let st := storeSample d st in
      let out0 := SensorRead d :: sendIMUData d st in
      let '(st, out1) := localFallback (now i) (t_local i) d st in
      let '(st, out2) := modelPath i st in
      (st, out0 ++ out1 ++ out2)
    else (st, []) in
  (updateLEDs (t_led i) st, out).

(** ** Runs

    The main loop and the link callbacks, taken one at a time. *)
Inductive Event :=
| Loop (i : LoopInput)
| Command (value : string)
| Connect (t : Z)
| Disconnect.

Definition step (st : State) (e : Event) : State * list Effect :=
  match e with
  | Loop i => loop i st
  | Command value => (onWrite value st, [])
  | Connect t => (onConnect t st, [])
  | Disconnect => (onDisconnect st, [])
  end.

Fixpoint run (st : State) (es : list Event) : State * list Effect :=
  match es with
  | [] => (st, [])
  | e :: es =>
      let '(st1, out1) := step st e in
      let '(st2, out2) := run st1 es in
      (st2, out1 ++ out2)
  end.

End Firmware.

(* ================================================================== *)
(** * Vocabulary of the properties *)
(* ================================================================== *)

Module Observe.

Import Features Classifier Wire Firmware.

(** The instantaneous jerk that the local fallback computes for sample
    [d] in state [st]. *)
Definition instantJerk (d : IMUData) (st : State) : float :=
  F32.mul (F32.abs (F32.sub (accel_mag d) (lastMagLocal st)))
          (F32.of_Z IMU_SAMPLE_RATE).

(** Local crash condition: [accel_mag > 3.0 g] or [jerk > 40 g/s]. *)
Definition crashCondition (d : IMUData) (st : State) : bool :=
  F32.gtb (accel_mag d) (F32.of_Z 3) || F32.gtb (instantJerk d st) (F32.of_Z 40).

(** The local crash channel is armed: no Crash pattern showing and the
    local crash cooldown elapsed. *)
Definition crashArmed (now : Z) (st : State) : bool :=
  negb (bool_decide (currentPattern st = LED_CRASH))
  && (LOCAL_CRASH_COOLDOWN_MS <=? elapsed now (lastLocalCrashMs st)).

Definition brakeArmed (now : Z) (st : State) : bool :=
  LOCAL_BRAKE_COOLDOWN_MS <=? elapsed now (lastLocalBrakeMs st).

(** Local brake condition as the source writes it: a lower bound on the
    jerk and a ceiling on the magnitude. *)
Definition brakeCondition (d : IMUData) (st : State) : bool :=
  F32.gtb (instantJerk d st) (F32.of_Z 14) && F32.ltb (accel_mag d) (F32.ratio 22 10).

(** The brake band: jerk above 14 g/s and not above the crash jerk
    threshold of 40 g/s, magnitude below 2.2 g. *)
Definition brakeBand (d : IMUData) (st : State) : bool :=
  F32.gtb (instantJerk d st) (F32.of_Z 14)
  && negb (F32.gtb (instantJerk d st) (F32.of_Z 40))
  && F32.ltb (accel_mag d) (F32.ratio 22 10).

(** A detection channel fired between [st] and [st']: its cooldown
    timestamp was stamped. *)
Definition localCrashFired (st st' : State) : Prop :=
  lastLocalCrashMs st' <> lastLocalCrashMs st.

Definition localBrakeFired (st st' : State) : Prop :=
  lastLocalBrakeMs st' <> lastLocalBrakeMs st.

Definition modelBrakeFired (st st' : State) : Prop :=
  lastMLBrakeMs st' <> lastMLBrakeMs st.

(** What the detection paths keep between iterations, apart from the
    sample buffer and the LED state. *)
Definition detection_state (st : State) : bool * (Z * Z * Z * Z * Z) :=
  (deviceConnected st,
   (lastLocalBrakeMs st, lastLocalCrashMs st, lastMLBrakeMs st, lastMLCrashMs st,
    lastMLAttemptMs st)).

(** Event notifications of class [cls] sent by path [o]. *)
Definition is_event (o : Origin) (cls : Z) (e : Effect) : bool :=
  match e with
  | EventNotify o' (c :: _) => bool_decide (o' = o) && (c =? cls)
  | _ => false
  end.

Definition count_events (o : Origin) (cls : Z) (tr : list Effect) : nat :=
  length (filter (fun e => is_event o cls e = true) tr).

(** Event notifications of class [cls], whichever path sent them. *)
Definition count_class (cls : Z) (tr : list Effect) : nat :=
  (count_events LocalPath cls tr + count_events ModelPath cls tr)%nat.

Definition is_read (e : Effect) : bool :=
  match e with SensorRead _ => true | _ => false end.

Definition is_classified (e : Effect) : bool :=
  match e with Classified _ _ => true | _ => false end.

(** Sensor reads and telemetry frames. *)
Definition is_telemetry (e : Effect) : bool :=
  match e with SensorRead _ | ImuNotify _ => true | _ => false end.

(** Samples read in a trace. *)
Definition reads (tr : list Effect) : nat :=
  length (filter (fun e => is_read e = true) tr).

(** Every classification of [tr] comes after at least [EVENT_WINDOW_SIZE]
    sensor reads, [n] of which happened before [tr]. *)
Fixpoint guarded (n : nat) (tr : list Effect) : bool :=
  match tr with
  | [] => true
  | SensorRead _ :: tr => guarded (S n) tr
  | Classified _ _ :: tr => (EVENT_WINDOW_SIZE <=? n)%nat && guarded n tr
  | _ :: tr => guarded n tr
  end.


(** The sample buffer after [n] sensor reads: until it is full its index
    counts the samples, and it is full only after [EVENT_WINDOW_SIZE] of
    them. *)
Definition buffer_inv (st : State) (n : nat) : Prop :=
  (bufferFull st = false -> bufferIndex st = n /\ (n < EVENT_WINDOW_SIZE)%nat) /\
  (bufferFull st = true -> (EVENT_WINDOW_SIZE <= n)%nat).

End Observe.

(* ================================================================== *)
(** * Concrete scenarios *)
(* ================================================================== *)

Module Scenario.

Import Features Classifier Wire Firmware Observe.

(** A sample with the given magnitude, all of it on the z axis. *)
Definition sample_z (mag : float) (t : Z) : IMUData :=
  mkIMU F32.zero F32.zero mag F32.zero F32.zero F32.zero mag t.

(** Post-event capture with an idle busy wait and resting samples. *)
Definition quiet_post : nat -> PostInput :=
  fun _ => mkPost [] (sample_z (F32.of_Z 1) 0).

(** A loop iteration at clock [t] reading magnitude [mag]. *)
Definition tick (t : Z) (mag : float) : LoopInput :=
  mkLoopInput t (sample_z mag t) t quiet_post t t.

(** A hit: the magnitude jumps from 1.0 g to 1.9 g (jerk 45 g/s) three
    seconds after boot, and falls back on the next sample. *)
Definition hit_then_release : list Event :=
  [ Connect 0; Loop (tick 3000 (F32.ratio 19 10)); Loop (tick 3020 (F32.of_Z 1)) ].

(** A hard hit of 8 g, then back to rest: the second sample has a jerk of
    350 g/s at a magnitude of 1.0 g. *)
Definition hard_hit_then_rest : list Event :=
  [ Connect 0; Loop (tick 3000 (F32.of_Z 8)); Loop (tick 3020 (F32.of_Z 1)) ].

(** Sustained braking: the magnitude alternates between 1.4 g and 1.0 g
    (jerk 20 g/s), one sample every 20 ms. *)
Definition brake_mag (k : nat) : float :=
  if Nat.even k then F32.of_Z 1 else F32.ratio 14 10.

Definition brake_post (k0 : nat) : nat -> PostInput :=
  fun j => mkPost [] (sample_z (brake_mag (k0 + 1 + j)) 0).

Definition brake_tick (k : nat) : LoopInput :=
  let t := 20 * Z.of_nat k in
  mkLoopInput t (sample_z (brake_mag k) t) t (brake_post k) t t.

Definition braking (n : nat) : list Event :=
  Connect 0 :: map (fun k => Loop (brake_tick k)) (seq 1 n).

(** A telemetry sample taken one second after boot. *)
Definition sample_1s : IMUData :=
  mkIMU (F32.ratio 1 10) (F32.ratio (-2) 10) (F32.of_Z 1)
        (F32.of_Z 3) (F32.of_Z (-4)) (F32.ratio 5 10) (F32.of_Z 1) 1000.

(** A feature vector with the given salient features and zeros elsewhere. *)
Definition salient (accel_z_std accel_mag_max gyro_mag_max jerk_mean jerk_max : float)
  : list float :=
  <[17%nat := accel_z_std]>
    (<[26%nat := accel_mag_max]>
       (<[51%nat := gyro_mag_max]>
          (<[52%nat := jerk_mean]>
             (<[53%nat := jerk_max]> (replicate N_FEATURES F32.zero))))).

Definition crash_vector : list float :=
  salient F32.zero (F32.of_Z 4) (F32.of_Z 260) (F32.of_Z 10) (F32.of_Z 70).

(** Both the Brake and the Bump predicate hold of this vector. *)
Definition brake_bump_vector : list float :=
  salient (F32.ratio 1 10) (F32.ratio 24 10) (F32.of_Z 50) (F32.of_Z 10) (F32.of_Z 30).

(** A constant series. *)
Definition flat_series : list float := replicate 5 (F32.ratio 12 10).

(** A window of samples at rest. *)
Definition rest_window : list IMUData :=
  replicate EVENT_WINDOW_SIZE (sample_z (F32.of_Z 1) 0).

(** The state after the link came up at boot. *)
Definition linked_state : State := fst (run init_state [ Connect 0 ]).

(** The state in which the local fallback has just fired Crash. *)
Definition crashed_state : State :=
  fst (run init_state [ Connect 0; Loop (tick 3000 (F32.ratio 19 10)) ]).

(** A violent sample: 4 g with a rotation of 300 deg/s. *)
Definition spike_sample (t : Z) : IMUData :=
  mkIMU F32.zero F32.zero (F32.of_Z 4) (F32.of_Z 300) F32.zero F32.zero (F32.of_Z 4) t.

(** A loop iteration that reads sample [d] at the time of its timestamp. *)
Definition tick_of (d : IMUData) : LoopInput :=
  mkLoopInput (timestamp d) d (timestamp d) quiet_post (timestamp d) (timestamp d).




End Scenario.

(* ================================================================== *)
(** * Sensor driver ([readMPU6500]) *)
(* ================================================================== *)

Module Driver.

(** Conversion to [int16_t]. *)
Definition int16 (x : Z) : Z :=
  let y := x mod 65536 in
  if y <? 32768 then y else y - 65536.

(** [(Wire.read() << 8) | Wire.read()], stored in an [int16_t]: the first
    byte read is the high one. *)
Definition word16 (hi lo : Z) : Z := int16 (Z.lor (Z.shiftl hi 8) lo).

(** [raw / 4096.0f]: the +-8 g range. *)
Definition accel_of_raw (raw : Z) : float := F32.div (F32.of_Z raw) (F32.of_Z 4096).

(** [raw / 65.5f]: the +-500 deg/s range. *)
Definition gyro_of_raw (raw : Z) : float := F32.div (F32.of_Z raw) (F32.ratio 655 10).

(** [readMPU6500(d)] on the fourteen register bytes that the burst read
    delivers, in the order of the [Wire.read()] calls (bytes 6 and 7 are the
    temperature, skipped); [t] is what [millis()] reads. [Wire.read()]
    returns -1 when the bus has delivered nothing. *)
Definition readMPU6500 (regs : list Z) (t : Z) : IMUData :=
  let r k := nth k regs (-1) in
  let ax := word16 (r 0%nat) (r 1%nat) in
  let ay := word16 (r 2%nat) (r 3%nat) in
  let az := word16 (r 4%nat) (r 5%nat) in
  let gx := word16 (r 8%nat) (r 9%nat) in
  let gy := word16 (r 10%nat) (r 11%nat) in
  let gz := word16 (r 12%nat) (r 13%nat) in
  let x := accel_of_raw ax in
  let y := accel_of_raw ay in
  let z := accel_of_raw az in
  mkIMU x y z (gyro_of_raw gx) (gyro_of_raw gy) (gyro_of_raw gz)
        (F32.sqrt (F32.add (F32.add (F32.mul x x) (F32.mul y y)) (F32.mul z z)))
        t.

(** Structural equality of two binary32 values. *)
Definition same_float (x y : float) : bool :=
  match x, y with
  | S754_zero s, S754_zero s' => Bool.eqb s s'
  | S754_infinity s, S754_infinity s' => Bool.eqb s s'
  | S754_nan, S754_nan => true
  | S754_finite s m e, S754_finite s' m' e' =>
      Bool.eqb s s' && Pos.eqb m m' && Z.eqb e e'
  | _, _ => false
  end.

(** What the driver's arithmetic keeps of one pair of register bytes: the
    16-bit word is their two's complement reading; the accelerometer
    scaling is exact (multiplying back by 4096 gives the raw value), a
    valid binary32 number in [-8, 8); the gyroscope scaling is a valid
    binary32 number within +-501 deg/s. *)
Definition word_ok (hi lo : Z) : bool :=
  let w := word16 hi lo in
  (-32768 <=? w) && (w <? 32768) && (w mod 65536 =? 256 * hi + lo).

Definition accel_scaling_ok (raw : Z) : bool :=
  let a := accel_of_raw raw in
  F32.valid a
  && same_float (F32.mul a (F32.of_Z 4096)) (F32.of_Z raw)
  && negb (F32.ltb a (F32.of_Z (-8))) && F32.ltb a (F32.of_Z 8).

Definition gyro_scaling_ok (raw : Z) : bool :=
  let g := gyro_of_raw raw in
  F32.valid g && F32.ltb (F32.of_Z (-501)) g && F32.ltb g (F32.of_Z 501).

(** Every byte value, and the check of a property of raw values on every
    pair of register bytes. *)
Definition all_bytes : list Z := map Z.of_nat (seq 0 256).

Definition on_all_bytes (ok : Z -> Z -> bool) : bool :=
  forallb (fun hi => forallb (fun lo => ok hi lo) all_bytes) all_bytes.

Definition is_byte_value (b : Z) : Prop := 0 <= b < 256.

(** A burst read that delivered all fourteen bytes. *)
Definition burst (regs : list Z) : Prop :=
  length regs = 14%nat /\ Forall is_byte_value regs.

End Driver.

(* ================================================================== *)
(** * Invariants and trace predicates *)
(* ================================================================== *)

Module Invariant.

Import Features Classifier Wire Firmware Observe.

(** The two rest patterns, [deviceConnected ? LED_ARMED_RED : LED_IDLE]. *)
Definition is_rest (p : LEDPattern) : bool :=
  match p with LED_ARMED_RED | LED_IDLE => true | _ => false end.

(** The range in which each animation keeps [ledAnimationStep]: the pixel
    loops of [updateLEDs] index the strip from it. *)
Definition step_in_range (p : LEDPattern) (n : Z) : Prop :=
  match p with
  | LED_BRAKE => n <= LED_COUNT / 2
  | LED_CRASH => n <= 1
  | LED_TURN_LEFT | LED_TURN_RIGHT => n <= LED_COUNT / 2 + 2
  | LED_PARTY => n <= 255
  | _ => True
  end.

Definition led_inv (st : State) : Prop :=
  is_rest (savedPattern st) = true /\
  0 <= ledAnimationStep st /\
  step_in_range (currentPattern st) (ledAnimationStep st).

(** The sample buffer is an array of [EVENT_WINDOW_SIZE] entries and the
    write index is inside it. *)
Definition buffer_ok (st : State) : Prop :=
  length (imuBuffer st) = EVENT_WINDOW_SIZE /\ (bufferIndex st < EVENT_WINDOW_SIZE)%nat.

(** Notifications on either characteristic. *)
Definition is_notify (e : Effect) : bool :=
  match e with ImuNotify _ | EventNotify _ _ => true | _ => false end.

Definition is_byte (b : Z) : bool := (0 <=? b) && (b <? 256).

(** A notification has the size of its frame, holds bytes, and an event
    frame starts with one of the five class ordinals. *)
Definition frame_ok (e : Effect) : bool :=
  match e with
  | ImuNotify p => (length p =? 28)%nat && forallb is_byte p
  | EventNotify _ p =>
      (length p =? 5)%nat && forallb is_byte p && (nth 0 p 0 <? 5)
  | _ => true
  end.

(** Events of the model path: classifications and its notifications. *)
Definition is_model (e : Effect) : bool :=
  match e with
  | Classified _ _ | EventNotify ModelPath _ => true
  | _ => false
  end.

Definition count (p : Effect -> bool) (tr : list Effect) : nat :=
  length (filter (fun e => p e = true) tr).

(** A run without loop iterations outside the cooldown [cd] of stamp [t0]. *)
Definition within (cd t0 : Z) (es : list Event) : Prop :=
  forall i, In (Loop i) es -> elapsed (now i) t0 < cd.

(** The command strings that [onWrite] knows. *)
Definition known_commands : list string :=
  [ "LEFT_ON"; "RIGHT_ON"; "TURN_OFF"; "PARTY_ON"; "PARTY_OFF"; "CRASH_DISMISS" ]%string.

(** A state property kept by each of the state transformers that a loop
    iteration is made of. *)
Definition loop_stable (P : State -> Prop) : Prop :=
  (forall t st, P st -> P (set_lastSampleTime t st)) /\
  (forall d st, P st -> P (storeSample d st)) /\
  (forall now t d st, P st -> P (fst (localFallback now t d st))) /\
  (forall d st, P st -> P (snd (detectEventTrigger d st))) /\
  (forall t st, P st -> P (set_lastMLAttemptMs t st)) /\
  (forall nowMs t st, P st -> P (fst (classifyAndRespondToEvent nowMs t st))) /\
  (forall t st, P st -> P (updateLEDs t st)).

(** A state property kept by the link callbacks. *)
Definition callback_stable (P : State -> Prop) : Prop :=
  (forall v st, P st -> P (onWrite v st)) /\
  (forall t st, P st -> P (onConnect t st)) /\
  (forall st, P st -> P (onDisconnect st)).

(** An effect property of everything a loop iteration can emit from a
    state that satisfies [P]. *)
Definition loop_emits (P : State -> Prop) (Q : Effect -> Prop) : Prop :=
  (forall d, Q (SensorRead d)) /\
  (forall d st, P st -> Forall Q (sendIMUData d st)) /\
  (forall now t d st, P st -> Forall Q (snd (localFallback now t d st))) /\
  (forall nowMs t st, P st -> Forall Q (snd (classifyAndRespondToEvent nowMs t st))).

End Invariant.

(* ================================================================== *)
(** * Series of the feature extractor *)
(* ================================================================== *)

Module Series.

Import Features.

(** [gyro_mag[i] = sqrt(gx*gx + gy*gy + gz*gz)] of [extractFeatures]. *)
Definition gyro_magnitudes (buffer : list IMUData) (windowSize : nat) : list float :=
  let gx := column gyro_x buffer windowSize in
  let gy := column gyro_y buffer windowSize in
  let gz := column gyro_z buffer windowSize in
  map (fun i =>
         F32.sqrt (F32.add (F32.add (F32.mul gx.[i] gx.[i]) (F32.mul gy.[i] gy.[i]))
                           (F32.mul gz.[i] gz.[i])))
      (seq 0 windowSize).

End Series.

(* ================================================================== *)
(** * Further scenarios *)
(* ================================================================== *)

Module Examples.

Import Features Classifier Wire Firmware Observe Scenario.

(** Link up, the window full of resting samples. *)
Definition full_state : State := set_buffer rest_window 0 true linked_state.

(** A hit and a command with the link down. *)
Definition offline_run : list Event :=
  [ Loop (tick 3000 (F32.ratio 19 10)); Command "LEFT_ON";
    Loop (tick 3020 (F32.of_Z 1)); Disconnect ].

(** The Brake pattern fired for 800 ms at clock 1000, link up. *)
Definition braking_state : State := fireBrakePattern 800 1000 linked_state.

(** Two violent samples within 400 ms of boot. *)
Definition early_spikes : list Event :=
  [ Loop (tick_of (spike_sample 100)); Command "PARTY_ON";
    Loop (tick_of (spike_sample 400)) ].

(** Jolts of 20 g/s within 140 ms of boot. *)
Definition early_jolts : list Event :=
  [ Loop (tick 100 (F32.ratio 14 10)); Loop (tick 120 (F32.of_Z 1));
    Loop (tick 140 (F32.ratio 14 10)) ].

(** Loop iterations 5 ms and 19 ms after boot. *)
Definition fast_polls : list Event :=
  [ Loop (tick 5 (F32.of_Z 2)); Command "LEFT_ON"; Loop (tick 19 (F32.of_Z 4)) ].

Definition updown : list float := [ F32.of_Z 1; F32.of_Z 3; F32.of_Z 2 ].

(** A burst at rest: 1 g on z (raw 4096), 2 deg/s on gyro x (raw 131),
    -2 deg/s on gyro z (raw -131). *)
Definition rest_burst : list Z := [ 0; 0; 0; 0; 16; 0; 12; 34; 0; 131; 0; 0; 255; 125 ].

(** A constant series: 150 entries of 0.1f. *)
Definition tenth_series : list float := replicate 150 (F32.ratio 1 10).

(** A sensor lying still: every burst delivers the raw values 100, 200
    and 4000 on the accelerometer axes and 0 on the gyroscope, and the
    window holds 150 readings of it. *)
Definition still_burst : list Z := [ 0; 100; 0; 200; 15; 160; 12; 34; 0; 0; 0; 0; 0; 0 ].

Definition still_window : list IMUData :=
  replicate EVENT_WINDOW_SIZE (Driver.readMPU6500 still_burst 0).

(** A window at rest with one violent sample in the middle. *)
Definition spike_window : list IMUData := <[75%nat := spike_sample 0]> rest_window.

(** A window of sustained braking, 1.0 g and 1.4 g in turn. *)
Definition brake_window : list IMUData :=
  map (fun k => sample_z (brake_mag k) 0) (seq 0 EVENT_WINDOW_SIZE).

(** The Crash pattern showing, then a sample of 1.5 g after one of 1.9 g:
    a jerk of 20 g/s. *)
Definition easing_sample : IMUData := sample_z (F32.ratio 15 10) 3020.

End Examples.

(* ================================================================== *)
(** * Properties *)
(* ================================================================== *)

Import Features Classifier Wire Firmware Observe Scenario.

(** ** Binary32 encoding *)

Lemma digits2_pos_size (m : positive) : digits2_pos m = Pos.size m.
Proof. induction m as [m IH | m IH |]; simpl; congruence. Qed.

Lemma size_bounds (m : positive) :
  2 ^ (Z.pos (Pos.size m) - 1) <= Z.pos m < 2 ^ Z.pos (Pos.size m).
Proof.
  pose proof (Pos.size_gt m) as Hgt.
  pose proof (Pos.size_le m) as Hle.
  apply Pos2Z.pos_lt_pos in Hgt. apply Pos2Z.pos_le_pos in Hle.
  rewrite Pos2Z.inj_pow in Hgt, Hle.
  split; [|exact Hgt].
  replace (Z.pos (Pos.size m)) with (Z.succ (Z.pos (Pos.size m) - 1)) in Hle by lia.
  rewrite Z.pow_succ_r in Hle by lia.
  rewrite (Pos2Z.inj_xO m) in Hle. lia.
Qed.

Lemma bounded_cases (m : positive) (e : Z) :
  bounded F32.prec F32.emax m e = true ->
  (Z.pos m < 8388608 /\ e = -149) \/
  (8388608 <= Z.pos m < 16777216 /\ -149 <= e <= 104).
Proof.
  unfold bounded, canonical_mantissa, fexp, emin, F32.prec, F32.emax.
  rewrite digits2_pos_size.
  intros H. apply andb_prop in H as [Hc He].
  apply Z.eqb_eq in Hc. apply Z.leb_le in He.
  pose proof (size_bounds m) as [Hlo Hhi].
  set (d := Z.pos (Pos.size m)) in *.
  assert (Hd : d <= 23 \/ d = 24 \/ 25 <= d) by lia.
  destruct Hd as [Hd | [Hd | Hd]].
  - left. split; [|lia].
    assert (2 ^ d <= 2 ^ 23) by (apply Z.pow_le_mono_r; lia).
    change (2 ^ 23) with 8388608 in *. lia.
  - right. rewrite Hd in *. change (2 ^ (24 - 1)) with 8388608 in Hlo.
    change (2 ^ 24) with 16777216 in Hhi. lia.
  - lia.
Qed.

Lemma sign_testbit (s : bool) (r : Z) :
  0 <= r < 2147483648 -> Z.testbit (F32.sign_bit s + r) 31 = s.
Proof.
  intros Hr.
  pose proof (Z.testbit_spec' (F32.sign_bit s + r) 31 ltac:(lia)) as H.
  change (2 ^ 31) with 2147483648 in H.
  destruct s; simpl F32.sign_bit in *;
    destruct (Z.testbit _ 31); simpl Z.b2z in H; try reflexivity;
    exfalso; Z.div_mod_to_equations; lia.
Qed.

Lemma float_of_bits_of_float (x : float) :
  F32.valid x = true -> F32.float_of_bits (F32.bits_of_float x) = x.
Proof.
  destruct x as [s | s | | s m e]; intros Hv.
  - unfold F32.bits_of_float, F32.float_of_bits. destruct s; reflexivity.
  - destruct s; reflexivity.
  - reflexivity.
  - apply bounded_cases in Hv.
    unfold F32.bits_of_float.
    destruct Hv as [[Hm He] | [Hm He]].
    + apply Z.ltb_lt in Hm as Hm'. rewrite Hm'. subst e.
      unfold F32.float_of_bits.
      rewrite sign_testbit by lia.
      assert (Hex : ((F32.sign_bit s + Z.pos m) / 8388608) mod 256 = 0).
      { destruct s; simpl F32.sign_bit; Z.div_mod_to_equations; lia. }
      assert (Hman : (F32.sign_bit s + Z.pos m) mod 8388608 = Z.pos m).
      { destruct s; simpl F32.sign_bit; Z.div_mod_to_equations; lia. }
      rewrite Hex, Hman. reflexivity.
    + assert (Hm' : (Z.pos m <? 8388608) = false) by (apply Z.ltb_ge; lia).
      rewrite Hm'.
      unfold F32.float_of_bits.
      replace (F32.sign_bit s + (e + 150) * 8388608 + (Z.pos m - 8388608))
        with (F32.sign_bit s + ((e + 150) * 8388608 + (Z.pos m - 8388608))) by lia.
      rewrite sign_testbit by lia.
      set (b := F32.sign_bit s + ((e + 150) * 8388608 + (Z.pos m - 8388608))).
      assert (Hex : (b / 8388608) mod 256 = e + 150).
      { subst b. destruct s; simpl F32.sign_bit; Z.div_mod_to_equations; lia. }
      assert (Hman : b mod 8388608 = Z.pos m - 8388608).
      { subst b. destruct s; simpl F32.sign_bit; Z.div_mod_to_equations; lia. }
      rewrite Hex, Hman.
      destruct (e + 150 =? 0) eqn:E0; [apply Z.eqb_eq in E0; lia|].
      destruct (e + 150 =? 255) eqn:E1; [apply Z.eqb_eq in E1; lia|].
      replace (Z.pos m - 8388608 + 8388608) with (Z.pos m) by lia.
      f_equal. lia.
Qed.

Lemma bits_of_float_range (x : float) :
  F32.valid x = true -> 0 <= F32.bits_of_float x < 4294967296.
Proof.
  destruct x as [s | s | | s m e]; intros Hv; unfold F32.bits_of_float.
  - destruct s; simpl; lia.
  - destruct s; simpl; lia.
  - lia.
  - apply bounded_cases in Hv. destruct Hv as [[Hm He] | [Hm He]].
    + apply Z.ltb_lt in Hm as Hm'. rewrite Hm'. destruct s; simpl; lia.
    + assert (Hm' : (Z.pos m <? 8388608) = false) by (apply Z.ltb_ge; lia).
      rewrite Hm'. destruct s; simpl F32.sign_bit; lia.
Qed.

Lemma of_le32_le32 (w : Z) : 0 <= w < 4294967296 -> of_le32 (le32 w) = w.
Proof. intros Hw. unfold le32, of_le32. Z.div_mod_to_equations. lia. Qed.

(** The order of [SFcompare] is transitive, on every pair of values. *)
Lemma ltb_trans (a b c : float) :
  F32.ltb a b = true -> F32.ltb b c = true -> F32.ltb a c = true.
Proof.
  unfold F32.ltb, SFltb.
  destruct a as [[]|[]| |[] ma ea], b as [[]|[]| |[] mb eb], c as [[]|[]| |[] mc ec];
    cbn [SFcompare]; try discriminate; try reflexivity; intros Hab Hbc.
  - destruct (Z.compare_spec ea eb), (Z.compare_spec eb ec), (Z.compare_spec ea ec);
      subst; try discriminate; try reflexivity; try lia.
    change (Pos.compare_cont Eq) with Pos.compare in *.
    destruct (Pos.compare_spec ma mb), (Pos.compare_spec mb mc), (Pos.compare_spec ma mc);
      subst; cbn in *; try discriminate; try reflexivity; lia.
  - destruct (Z.compare_spec ea eb), (Z.compare_spec eb ec), (Z.compare_spec ea ec);
      subst; try discriminate; try reflexivity; try lia.
    change (Pos.compare_cont Eq) with Pos.compare in *.
    destruct (Pos.compare_spec ma mb), (Pos.compare_spec mb mc), (Pos.compare_spec ma mc);
      subst; cbn in *; try discriminate; try reflexivity; lia.
Qed.

(** [x < lo] excludes [x > hi] as soon as [hi < lo] fails. *)
Lemma ltb_gtb_exclusive (x lo hi : float) :
  F32.ltb hi lo = false -> F32.ltb x lo = true -> F32.gtb x hi = false.
Proof.
  intros Hc Hlo. unfold F32.gtb. destruct (SFltb hi x) eqn:Hhi; [|reflexivity].
  rewrite (ltb_trans hi x lo Hhi Hlo) in Hc. discriminate.
Qed.

(** ** Wire format *)

Lemma of_le32_bytes (w : Z) :
  0 <= w < 4294967296 ->
  of_le32 [w mod 256; (w / 256) mod 256; (w / 65536) mod 256; (w / 16777216) mod 256] = w.
Proof. exact (of_le32_le32 w). Qed.

Lemma read_f32_bytes (x : float) :
  F32.valid x = true ->
  F32.float_of_bits
    (of_le32 [F32.bits_of_float x mod 256; (F32.bits_of_float x / 256) mod 256;
              (F32.bits_of_float x / 65536) mod 256;
              (F32.bits_of_float x / 16777216) mod 256]) = x.
Proof.
  intros Hx. rewrite of_le32_bytes by (apply bits_of_float_range, Hx).
  apply float_of_bits_of_float, Hx.
Qed.

(** C6, counterexample. The last four bytes of the telemetry frame are the
    bytes of the [unsigned long] timestamp: read as a binary32 number they
    are not the timestamp. For the sample taken at 1000 ms they decode to
    the subnormal number 1000 * 2^-149. *)
Lemma telemetry_timestamp_is_not_a_float :
  decode_imu_spec (imu_payload sample_1s)
  <> [ accel_x sample_1s; accel_y sample_1s; accel_z sample_1s;
       gyro_x sample_1s; gyro_y sample_1s; gyro_z sample_1s;
       F32.of_Z (timestamp sample_1s) ]
  /\ nth 6 (decode_imu_spec (imu_payload sample_1s)) F32.zero
     = S754_finite false 1000 (-149)
  /\ F32.of_Z (timestamp sample_1s) = S754_finite false 16384000 (-14).
Proof.
  split; [|split]; [|vm_compute; reflexivity..].
  vm_compute. intros H. discriminate H.
Qed.

(** C6, as amended. The 28-byte telemetry frame holds six little-endian
    binary32 numbers followed by the little-endian 32-bit unsigned
    timestamp; the 5-byte event frame holds the class ordinal and a
    little-endian binary32 confidence. Decoding them that way gives back
    every field of every sample and every (class, confidence) pair. *)
Theorem wire_roundtrip (d : IMUData) (cls : Z) (conf : float) :
  F32.valid (accel_x d) = true -> F32.valid (accel_y d) = true ->
  F32.valid (accel_z d) = true -> F32.valid (gyro_x d) = true ->
  F32.valid (gyro_y d) = true -> F32.valid (gyro_z d) = true ->
  0 <= timestamp d < 4294967296 ->
  0 <= cls < 256 -> F32.valid conf = true ->
  length (imu_payload d) = 28%nat /\
  decode_imu (imu_payload d)
  = ([accel_x d; accel_y d; accel_z d; gyro_x d; gyro_y d; gyro_z d], timestamp d) /\
  length (event_payload cls conf) = 5%nat /\
  decode_event (event_payload cls conf) = (cls, conf).
Proof.
  intros Hax Hay Haz Hgx Hgy Hgz Hts Hcls Hconf.
  split; [reflexivity|]. split; [|split; [reflexivity|]].
  - unfold decode_imu, read_f32, read_u32, imu_payload, slice, le32.
    cbn [app drop take skipn firstn].
    rewrite !read_f32_bytes by assumption.
    rewrite of_le32_bytes by assumption. reflexivity.
  - unfold decode_event, read_f32, event_payload, slice, le32, u8.
    cbn [nth drop take skipn firstn].
    rewrite read_f32_bytes by assumption.
    rewrite Z.mod_small by lia. reflexivity.
Qed.

(** A frame that satisfies every hypothesis of [wire_roundtrip]. *)
Lemma wire_roundtrip_witness :
  decode_imu (imu_payload sample_1s)
  = ([accel_x sample_1s; accel_y sample_1s; accel_z sample_1s;
      gyro_x sample_1s; gyro_y sample_1s; gyro_z sample_1s], 1000) /\
  decode_event (event_payload CLASS_CRASH (F32.ratio 8 10)) = (CLASS_CRASH, F32.ratio 8 10).
Proof.
  pose proof (wire_roundtrip sample_1s CLASS_CRASH (F32.ratio 8 10)) as H.
  destruct H as (_ & Himu & _ & Hev);
    [ reflexivity | reflexivity | reflexivity | reflexivity | reflexivity | reflexivity
    | simpl; lia | unfold CLASS_CRASH; lia | reflexivity | ].
  split; [exact Himu | exact Hev].
Defined.

(** ** Threshold classifier *)

(** C5. [classifyEvent] tests the class predicates in the fixed order
    Crash, Brake, Turn, Bump and returns the class of the first one that
    holds, Normal when none does. A vector of which the Crash predicate
    holds is classified Crash whatever the other predicates say, so in
    particular when the Brake predicate holds too; and a vector of which
    a later predicate holds gets that class only if every earlier one
    fails. *)
Theorem classifier_priority (f : list float) :
  classifyEvent f = first_match priority_rules f /\
  (crashPredicate f = true -> classifyEvent f = CLASS_CRASH) /\
  (crashPredicate f = true -> brakePredicate f = true -> classifyEvent f = CLASS_CRASH) /\
  (crashPredicate f = false -> brakePredicate f = true -> classifyEvent f = CLASS_BRAKE) /\
  (crashPredicate f = false -> brakePredicate f = false -> turnPredicate f = true ->
   classifyEvent f = CLASS_TURN) /\
  (crashPredicate f = false -> brakePredicate f = false -> turnPredicate f = false ->
   bumpPredicate f = true -> classifyEvent f = CLASS_BUMP) /\
  (crashPredicate f = false -> brakePredicate f = false -> turnPredicate f = false ->
   bumpPredicate f = false -> classifyEvent f = CLASS_NORMAL).
Proof.
  unfold classifyEvent. cbn [first_match priority_rules].
  destruct (crashPredicate f), (brakePredicate f), (turnPredicate f), (bumpPredicate f);
    repeat split; intros; try reflexivity; discriminate.
Qed.

(** The priority at work: a crash vector, and a vector that satisfies both
    the Brake and the Bump predicate and is classified Brake. *)
Lemma classifier_priority_witness :
  classifyEvent crash_vector = CLASS_CRASH /\
  bumpPredicate brake_bump_vector = true /\
  classifyEvent brake_bump_vector = CLASS_BRAKE.
Proof.
  split; [|split].
  - destruct (classifier_priority crash_vector) as (_ & H & _).
    apply H. reflexivity.
  - reflexivity.
  - destruct (classifier_priority brake_bump_vector) as (_ & _ & _ & H & _).
    apply H; reflexivity.
Defined.

(** The Crash and the Brake predicate exclude each other: Crash needs a
    peak magnitude above 3.2 g, Brake one below 2.6 g. *)
Lemma crash_excludes_brake (f : list float) :
  crashPredicate f = true -> brakePredicate f = false.
Proof.
  unfold crashPredicate, brakePredicate. cbv zeta.
  intros Hc.
  destruct (F32.ltb f.[26] (F32.ratio 26 10)) eqn:Hlow;
    [|rewrite !andb_false_r; reflexivity].
  rewrite (ltb_gtb_exclusive f.[26] (F32.ratio 26 10) (F32.ratio 32 10) eq_refl Hlow) in Hc.
  rewrite (ltb_gtb_exclusive f.[26] (F32.ratio 26 10) (F32.ratio 36 10) eq_refl Hlow) in Hc.
  discriminate Hc.
Qed.

(** ** Feature extraction *)

Lemma for_loop_trap_some {A : Type} (lo hi : nat) (body : A -> nat -> A)
    (tbody : A -> nat -> option A) (acc : A) :
  (forall a i, tbody a i = Some (body a i)) ->
  for_loop_trap lo hi tbody acc = Some (for_loop lo hi body acc).
Proof.
  intros Hb. unfold for_loop_trap, for_loop.
  generalize (seq lo (hi - lo)). intros l. revert acc.
  induction l as [|i l IH]; intros acc; cbn [fold_left]; [reflexivity|].
  rewrite Hb. apply IH.
Qed.

(** The trapping division never traps inside the two functions: they
    compute what the plain functions compute. *)
Lemma skewness_never_traps (data : list float) (size : nat) (mean std : float) :
  calculateSkewness_trap data size mean std
  = Some (calculateSkewness data size mean std).
Proof.
  unfold calculateSkewness_trap, calculateSkewness.
  destruct (F32.eqb std F32.zero) eqn:Hz; [reflexivity|].
  erewrite for_loop_trap_some; [reflexivity|].
  intros a i. cbv beta. unfold div_by_std. rewrite Hz. reflexivity.
Qed.

Lemma kurtosis_never_traps (data : list float) (size : nat) (mean std : float) :
  calculateKurtosis_trap data size mean std
  = Some (calculateKurtosis data size mean std).
Proof.
  unfold calculateKurtosis_trap, calculateKurtosis.
  destruct (F32.eqb std F32.zero) eqn:Hz; [reflexivity|].
  erewrite for_loop_trap_some; [reflexivity|].
  intros a i. cbv beta. unfold div_by_std. rewrite Hz. reflexivity.
Qed.

(** The guard as the source has it: when the standard deviation handed to
    [calculateSkewness] and [calculateKurtosis] compares equal to zero (a
    zero of either sign), both return 0, and they do so without dividing
    by it: with a division that traps on a zero divisor they still return
    0. *)
Theorem zero_std_guard (data : list float) (size : nat) (mean std : float) :
  F32.eqb std F32.zero = true ->
  calculateSkewness data size mean std = F32.zero /\
  calculateKurtosis data size mean std = F32.zero /\
  calculateSkewness_trap data size mean std = Some F32.zero /\
  calculateKurtosis_trap data size mean std = Some F32.zero.
Proof.
  intros Hz.
  unfold calculateSkewness, calculateKurtosis, calculateSkewness_trap,
    calculateKurtosis_trap.
  rewrite Hz. repeat split; reflexivity.
Qed.

(** A constant series: its computed standard deviation is zero, and so are
    its skewness and kurtosis. *)
Lemma zero_std_guard_witness :
  let mean := calculateMean flat_series 5 in
  let std := calculateStd flat_series 5 mean in
  std = F32.zero /\
  calculateSkewness flat_series 5 mean std = F32.zero /\
  calculateKurtosis flat_series 5 mean std = F32.zero.
Proof.
  cbv zeta.
  destruct (zero_std_guard flat_series 5 (calculateMean flat_series 5)
              (calculateStd flat_series 5 (calculateMean flat_series 5)))
    as (Hs & Hk & _); [reflexivity|].
  split; [reflexivity|]. split; [exact Hs | exact Hk].
Defined.

(** C9, the failing input. A series of 150 entries all equal to 0.1f has
    population standard deviation zero, but the sum of the entries rounds,
    the computed mean differs from 0.1f, and the computed standard
    deviation is about 1.4e-7 and does not compare equal to zero. The guard
    [std == 0] is passed, and [calculateSkewness] returns -1 and
    [calculateKurtosis] returns -2, not 0 (still without a division by
    zero). The same happens in the feature vector of a sensor lying still,
    whose 150 readings are all the same: on the three axes, whose values
    are multiples of 1/4096, the sums are exact, the standard deviation is
    0 and the guard gives 0 (features 6, 7, 14, 15, 22, 23); on the
    magnitude the mean rounds, and its skewness and kurtosis (features 30,
    31) are -1 and -2. *)
Theorem constant_series_passes_the_guard :
  Forall (fun x => x = F32.ratio 1 10) Examples.tenth_series /\
  calculateMean Examples.tenth_series 150 <> F32.ratio 1 10 /\
  F32.eqb (calculateStd Examples.tenth_series 150 (calculateMean Examples.tenth_series 150))
          F32.zero = false /\
  F32.ltb (calculateStd Examples.tenth_series 150 (calculateMean Examples.tenth_series 150))
          (F32.ratio 1 1000000) = true /\
  calculateSkewness Examples.tenth_series 150 (calculateMean Examples.tenth_series 150)
    (calculateStd Examples.tenth_series 150 (calculateMean Examples.tenth_series 150))
  = F32.of_Z (-1) /\
  calculateKurtosis Examples.tenth_series 150 (calculateMean Examples.tenth_series 150)
    (calculateStd Examples.tenth_series 150 (calculateMean Examples.tenth_series 150))
  = F32.of_Z (-2) /\
  calculateSkewness_trap Examples.tenth_series 150 (calculateMean Examples.tenth_series 150)
    (calculateStd Examples.tenth_series 150 (calculateMean Examples.tenth_series 150))
  = Some (F32.of_Z (-1)) /\
  Forall (fun d => d = Driver.readMPU6500 Examples.still_burst 0) Examples.still_window /\
  map (fun i => (extractFeatures Examples.still_window EVENT_WINDOW_SIZE).[i])
      [6; 7; 14; 15; 22; 23]%nat
  = replicate 6 F32.zero /\
  map (fun i => (extractFeatures Examples.still_window EVENT_WINDOW_SIZE).[i])
      [30; 31]%nat
  = [F32.of_Z (-1); F32.of_Z (-2)].
Proof.
  split; [apply Forall_replicate; reflexivity|].
  split; [vm_compute; discriminate|].
  split; [vm_compute; reflexivity|].
  split; [vm_compute; reflexivity|].
  split; [vm_compute; reflexivity|].
  split; [vm_compute; reflexivity|].
  split; [vm_compute; reflexivity|].
  split; [apply Forall_replicate; reflexivity|].
  split; vm_compute; reflexivity.
Qed.

(** In the feature vector, the skewness and kurtosis of each accelerometer
    series sit at offsets 6 and 7 of its block of eight, computed from the
    series' own mean and standard deviation: they are 0 when that standard
    deviation is zero. *)
Lemma accel_block_zero_std (a : list float) (n : nat) :
  F32.eqb (calculateStd a n (calculateMean a n)) F32.zero = true ->
  (accel_block a n).[6] = F32.zero /\ (accel_block a n).[7] = F32.zero.
Proof.
  intros Hz. unfold accel_block. cbn [nth].
  unfold calculateSkewness, calculateKurtosis. rewrite Hz.
  split; reflexivity.
Qed.

Lemma extractFeatures_blocks (buffer : list IMUData) (n : nat) :
  exists rest,
    extractFeatures buffer n
    = accel_block (column accel_x buffer n) n ++
      accel_block (column accel_y buffer n) n ++
      accel_block (column accel_z buffer n) n ++
      accel_block (column accel_mag buffer n) n ++ rest.
Proof.
  unfold extractFeatures. cbv zeta.
  eexists. rewrite <- !app_assoc. reflexivity.
Qed.

Lemma column_window (field : IMUData -> float) (w1 w2 : list IMUData) (n : nat) :
  take n w1 = take n w2 -> column field w1 n = column field w2 n.
Proof.
  intros Hw. unfold column. apply map_ext_in. intros i Hi.
  apply in_seq in Hi. f_equal.
  assert (Hi' : (i <? n)%nat = true) by (apply Nat.ltb_lt; lia).
  pose proof (nth_firstn n w1 i zeroIMU) as H1.
  pose proof (nth_firstn n w2 i zeroIMU) as H2.
  rewrite Hi' in H1, H2. rewrite <- H1, <- H2, Hw. reflexivity.
Qed.

(** C8. [extractFeatures] is a function of its window alone: its model has
    no other input, and two buffers that agree on the [windowSize] samples
    it reads give the same output. The output has exactly 61 values for
    every buffer and every window size, whatever the samples are. *)
Theorem extractFeatures_pure (w1 w2 : list IMUData) (windowSize : nat) :
  take windowSize w1 = take windowSize w2 ->
  extractFeatures w1 windowSize = extractFeatures w2 windowSize /\
  length (extractFeatures w1 windowSize) = N_FEATURES.
Proof.
  intros Hw. split.
  - unfold extractFeatures.
    rewrite !(column_window _ w1 w2 windowSize Hw). reflexivity.
  - unfold extractFeatures, accel_block, gyro_block. cbv zeta.
    rewrite !length_app. cbn [length]. reflexivity.
Qed.

(** Two buffers that agree on the window, and differ after it. *)
Lemma extractFeatures_pure_witness :
  extractFeatures rest_window 150 = extractFeatures (rest_window ++ [sample_z (F32.of_Z 4) 0]) 150 /\
  length (extractFeatures rest_window 150) = 61%nat.
Proof.
  apply (extractFeatures_pure rest_window (rest_window ++ [sample_z (F32.of_Z 4) 0]) 150).
  vm_compute. reflexivity.
Defined.

(** ** Inbound commands *)

(** C10. While the Crash pattern is showing, each of the commands LEFT_ON,
    RIGHT_ON, TURN_OFF, PARTY_ON and PARTY_OFF replaces it at once by the
    commanded pattern (the rest pattern, armed red or idle by link status,
    for the two OFF commands): nothing protects the crash display from a
    remote command. *)
Theorem commands_replace_crash (st : State) :
  currentPattern st = LED_CRASH ->
  currentPattern (fst (step st (Command "LEFT_ON"))) = LED_TURN_LEFT /\
  currentPattern (fst (step st (Command "RIGHT_ON"))) = LED_TURN_RIGHT /\
  currentPattern (fst (step st (Command "TURN_OFF"))) = restPattern st /\
  currentPattern (fst (step st (Command "PARTY_ON"))) = LED_PARTY /\
  currentPattern (fst (step st (Command "PARTY_OFF"))) = restPattern st /\
  restPattern st <> LED_CRASH.
Proof.
  intros _. repeat split.
  unfold restPattern. destruct (deviceConnected st); discriminate.
Qed.

(** The state reached when the fallback has just fired Crash. *)
Lemma commands_replace_crash_witness :
  currentPattern crashed_state = LED_CRASH /\
  currentPattern (fst (step crashed_state (Command "PARTY_ON"))) = LED_PARTY /\
  currentPattern (fst (step crashed_state (Command "TURN_OFF"))) = LED_ARMED_RED.
Proof.
  assert (Hc : currentPattern crashed_state = LED_CRASH) by (vm_compute; reflexivity).
  destruct (commands_replace_crash crashed_state Hc) as (_ & _ & Hoff & Hparty & _).
  split; [exact Hc|]. split; [exact Hparty|].
  rewrite Hoff. vm_compute. reflexivity.
Defined.

(** ** Frame properties of the state transformers *)

Ltac state_simpl :=
  cbn [deviceConnected imuBuffer bufferIndex bufferFull lastAccelMag lastLocalBrakeMs
       lastLocalCrashMs lastMLBrakeMs lastMLCrashMs lastMLAttemptMs currentPattern
       savedPattern lastLEDUpdate ledAnimationStep brakeEndTime connectGreenUntil
       lastSampleTime lastMagLocal
       set_link set_buffer set_lastAccelMag set_lastLocalBrakeMs set_lastLocalCrashMs
       set_lastMLBrakeMs set_lastMLCrashMs set_lastMLAttemptMs set_currentPattern
       set_savedPattern set_animation set_ledAnimationStep set_brakeEndTime
       set_connectGreenUntil set_lastSampleTime set_lastMagLocal restPattern
       fireBrakePattern fireCrashPattern detection_state fst snd] in *.

Lemma for_loop_ind {A : Type} (P : A -> Prop) (lo hi : nat) (body : A -> nat -> A) (acc : A) :
  P acc -> (forall a i, P a -> P (body a i)) -> P (for_loop lo hi body acc).
Proof.
  intros H0 Hstep. unfold for_loop.
  generalize (seq lo (hi - lo)). intros l. revert acc H0.
  induction l as [|i l IH]; intros acc H0; cbn [fold_left]; auto.
Qed.

Lemma updateLEDs_detection (now : Z) (st : State) :
  detection_state (updateLEDs now st) = detection_state st /\
  bufferFull (updateLEDs now st) = bufferFull st /\
  bufferIndex (updateLEDs now st) = bufferIndex st.
Proof.
  unfold updateLEDs. cbv zeta. destruct st. state_simpl.
  repeat case_match; repeat split; reflexivity.
Qed.

Lemma updateLEDs_crash (now : Z) (st : State) :
  currentPattern st = LED_CRASH -> currentPattern (updateLEDs now st) = LED_CRASH.
Proof.
  unfold updateLEDs. cbv zeta. destruct st. state_simpl. intros ->.
  rewrite bool_decide_eq_false_2 by discriminate. cbn [andb]. state_simpl.
  rewrite bool_decide_eq_false_2 by discriminate. cbn [andb]. state_simpl.
  case_match; reflexivity.
Qed.

Lemma storeSample_frame (d : IMUData) (st : State) :
  detection_state (storeSample d st) = detection_state st /\
  currentPattern (storeSample d st) = currentPattern st /\
  brakeEndTime (storeSample d st) = brakeEndTime st /\
  lastMagLocal (storeSample d st) = lastMagLocal st.
Proof. unfold storeSample. destruct st. repeat split; reflexivity. Qed.

Lemma count_events_app (o : Origin) (cls : Z) (a b : list Effect) :
  count_events o cls (a ++ b) = (count_events o cls a + count_events o cls b)%nat.
Proof. unfold count_events. rewrite filter_app, length_app. reflexivity. Qed.

Lemma reads_app (a b : list Effect) : reads (a ++ b) = (reads a + reads b)%nat.
Proof. unfold reads. rewrite filter_app, length_app. reflexivity. Qed.

Lemma sendIMUData_cases (d : IMUData) (st : State) :
  sendIMUData d st = [] \/ sendIMUData d st = [ImuNotify (imu_payload d)].
Proof. unfold sendIMUData. destruct (deviceConnected st); auto. Qed.

Lemma telemetry_counts (tr : list Effect) :
  Forall (fun e => is_telemetry e = true) tr ->
  (forall o cls, count_events o cls tr = 0%nat) /\
  (forall n rest, guarded n (tr ++ rest) = guarded (n + reads tr) rest).
Proof.
  induction 1 as [|e tr He Htr [IHc IHg]].
  - split; [reflexivity|]. intros n rest. cbn. f_equal. lia.
  - destruct e; try discriminate He.
    + split.
      * intros o cls. apply (IHc o cls).
      * intros n rest. cbn [app guarded]. rewrite IHg.
        unfold reads. rewrite filter_cons_True by reflexivity. cbn [length].
        f_equal. lia.
    + split.
      * intros o cls. apply (IHc o cls).
      * intros n rest. cbn [app guarded]. rewrite IHg. reflexivity.
Qed.

Lemma leds_fold_frame (ts : list Z) (st : State) :
  let st' := fold_left (fun s t => updateLEDs t s) ts st in
  detection_state st' = detection_state st /\
  bufferFull st' = bufferFull st /\
  bufferIndex st' = bufferIndex st /\
  (currentPattern st = LED_CRASH -> currentPattern st' = LED_CRASH).
Proof.
  cbv zeta. revert st. induction ts as [|t ts IH]; intros st; cbn [fold_left].
  - repeat split; auto.
  - destruct (IH (updateLEDs t st)) as (H1 & H2 & H3 & H4).
    destruct (updateLEDs_detection t st) as (G1 & G2 & G3).
    rewrite H1, H2, H3, G1, G2, G3. repeat split.
    intros Hc. apply H4, updateLEDs_crash, Hc.
Qed.

Lemma storeSample_full (d : IMUData) (st : State) :
  bufferFull st = true -> bufferFull (storeSample d st) = true.
Proof. unfold storeSample. destruct st. state_simpl. intros ->. case_match; reflexivity. Qed.

(** The post-event capture reads and sends samples and advances the LED
    animation; it fires nothing. *)
Lemma capturePostSamples_frame (n : nat) (post : nat -> PostInput) (st : State) :
  let r := capturePostSamples n post st in
  detection_state (fst r) = detection_state st /\
  (bufferFull st = true -> bufferFull (fst r) = true) /\
  (currentPattern st = LED_CRASH -> currentPattern (fst r) = LED_CRASH) /\
  Forall (fun e => is_telemetry e = true) (snd r).
Proof.
  cbv zeta. unfold capturePostSamples.
  apply (for_loop_ind
           (fun r : State * list Effect =>
              detection_state (fst r) = detection_state st /\
              (bufferFull st = true -> bufferFull (fst r) = true) /\
              (currentPattern st = LED_CRASH -> currentPattern (fst r) = LED_CRASH) /\
              Forall (fun e => is_telemetry e = true) (snd r))).
  - cbn [fst snd]. repeat split; auto.
  - intros [s out] i (H1 & H2 & H3 & H4). cbn [fst snd] in *.
    destruct (leds_fold_frame (led_times (post i)) s) as (L1 & L2 & L3 & L4).
    cbv zeta in L1, L2, L3, L4.
    set (s1 := fold_left (fun s t => updateLEDs t s) (led_times (post i)) s) in *.
    destruct (storeSample_frame (post_sample (post i)) s1) as (S1 & S2 & _).
    split; [rewrite S1, L1; exact H1|].
    split; [intros Hf; apply storeSample_full; rewrite L2; auto|].
    split; [intros Hc; rewrite S2; auto|].
    apply Forall_app. split; [exact H4|].
    constructor; [reflexivity|].
    destruct (sendIMUData_cases (post_sample (post i)) (storeSample (post_sample (post i)) s1))
      as [-> | ->]; repeat constructor.
Qed.

(** ** Cooldowns *)

Lemma cooldown_elapsed_neq (cd now last : Z) :
  0 < cd -> (cd <=? elapsed now last) = true -> now <> last.
Proof.
  intros Hcd H Heq. apply Z.leb_le in H. subst last.
  unfold elapsed, u32 in H. rewrite Z.sub_diag, Z.mod_0_l in H by lia. lia.
Qed.

(** ** Local fallback detector *)

(** C7, counterexample. One second after boot a sample of 4 g satisfies the
    crash condition and the local fallback fires nothing: the crash channel
    is still in its cooldown. And when a hard hit of 8 g is followed by a
    sample at rest, the Crash pattern is showing, the crash check is skipped,
    and Brake fires at a jerk of 350 g/s, far above the crash jerk
    threshold: the brake check itself has no upper bound on the jerk. *)
Lemma local_crash_not_iff_condition :
  (crashCondition (sample_z (F32.of_Z 4) 1000) init_state = true /\
   localFallback 1000 1000 (sample_z (F32.of_Z 4) 1000) init_state
   = (set_lastMagLocal (F32.of_Z 4) init_state, [])) /\
  (let st := fst (run init_state [Connect 0; Loop (tick 3000 (F32.of_Z 8))]) in
   let d := sample_z (F32.of_Z 1) 3020 in
   currentPattern st = LED_CRASH /\
   crashCondition d st = true /\
   instantJerk d st = F32.of_Z 350 /\
   localBrakeFired st (fst (localFallback 3020 3020 d st)) /\
   currentPattern (fst (localFallback 3020 3020 d st)) = LED_BRAKE).
Proof.
  split; [split; vm_compute; reflexivity|].
  cbv zeta. repeat split; try (vm_compute; reflexivity).
  vm_compute. discriminate.
Qed.

(** C7, as amended. On every sampling tick the local fallback evaluates
    Crash first. Crash fires if and only if its channel is armed (no Crash
    pattern showing and the local crash cooldown elapsed) and the magnitude
    exceeds 3 g or the instantaneous jerk exceeds 40 g/s; when it fires,
    Brake does not fire on that tick. Brake fires only if its cooldown has
    elapsed, the jerk exceeds 14 g/s and the magnitude is below 2.2 g; it
    does fire, whether the crash channel is armed or not, whenever its
    cooldown has elapsed and the jerk lies in the band above 14 g/s and not
    above 40 g/s with the magnitude below 2.2 g; and on a tick where the
    crash channel is armed these are the only ticks on which it fires. *)
Theorem local_fallback_decision (now t : Z) (d : IMUData) (st : State) :
  (localCrashFired st (fst (localFallback now t d st))
   <-> crashArmed now st = true /\ crashCondition d st = true) /\
  (localCrashFired st (fst (localFallback now t d st)) ->
   ~ localBrakeFired st (fst (localFallback now t d st))) /\
  (localBrakeFired st (fst (localFallback now t d st)) ->
   brakeArmed now st = true /\ brakeCondition d st = true) /\
  (brakeArmed now st = true /\ brakeBand d st = true ->
   localBrakeFired st (fst (localFallback now t d st))) /\
  (crashArmed now st = true ->
   (localBrakeFired st (fst (localFallback now t d st))
    <-> brakeArmed now st = true /\ brakeBand d st = true)).
Proof.
  unfold localFallback, crashArmed, crashCondition, brakeArmed, brakeCondition,
    brakeBand, instantJerk, localCrashFired, localBrakeFired.
  cbv zeta. destruct st. state_simpl.
  set (jerk := F32.mul _ _).
  pose proof (cooldown_elapsed_neq LOCAL_CRASH_COOLDOWN_MS now lastLocalCrashMs0 eq_refl) as HC.
  pose proof (cooldown_elapsed_neq LOCAL_BRAKE_COOLDOWN_MS now lastLocalBrakeMs0 eq_refl) as HB.
  pose proof (fun H => ltb_gtb_exclusive (accel_mag d) (F32.ratio 22 10) (F32.of_Z 3) eq_refl H)
    as HA.
  destruct (LOCAL_CRASH_COOLDOWN_MS <=? elapsed now lastLocalCrashMs0);
    destruct (LOCAL_BRAKE_COOLDOWN_MS <=? elapsed now lastLocalBrakeMs0);
    destruct (bool_decide (currentPattern0 = LED_CRASH));
    destruct (F32.ltb (accel_mag d) (F32.ratio 22 10));
    destruct (F32.gtb (accel_mag d) (F32.of_Z 3));
    destruct (F32.gtb jerk (F32.of_Z 40));
    destruct (F32.gtb jerk (F32.of_Z 14));
    cbn [negb andb orb]; state_simpl;
    try (specialize (HA eq_refl); discriminate HA);
    try specialize (HC eq_refl); try specialize (HB eq_refl);
    repeat case_match; state_simpl; intuition congruence.
Qed.

(** The crash channel armed by the connection three seconds after boot:
    Crash fires and Brake does not. And with the Crash pattern showing, a
    jerk of 20 g/s at 1.5 g fires Brake. *)
Lemma local_fallback_decision_witness :
  let st := fst (run init_state [Connect 0]) in
  let d := sample_z (F32.ratio 19 10) 3000 in
  (localCrashFired st (fst (localFallback 3000 3000 d st)) /\
   ~ localBrakeFired st (fst (localFallback 3000 3000 d st))) /\
  (crashArmed 3020 crashed_state = false /\
   localBrakeFired crashed_state
     (fst (localFallback 3020 3020 Examples.easing_sample crashed_state))).
Proof.
  cbv zeta.
  destruct (local_fallback_decision 3000 3000 (sample_z (F32.ratio 19 10) 3000)
              (fst (run init_state [Connect 0]))) as ([_ Hfire] & Hsup & _).
  assert (Hc : localCrashFired (fst (run init_state [Connect 0]))
                 (fst (localFallback 3000 3000 (sample_z (F32.ratio 19 10) 3000)
                         (fst (run init_state [Connect 0])))))
    by (apply Hfire; split; vm_compute; reflexivity).
  destruct (local_fallback_decision 3020 3020 Examples.easing_sample crashed_state)
    as (_ & _ & _ & Hband & _).
  assert (Ha : brakeArmed 3020 crashed_state = true) by (vm_compute; reflexivity).
  assert (Hb : brakeBand Examples.easing_sample crashed_state = true)
    by (vm_compute; reflexivity).
  assert (Hn : crashArmed 3020 crashed_state = false) by (vm_compute; reflexivity).
  exact (conj (conj Hc (Hsup Hc)) (conj Hn (Hband (conj Ha Hb)))).
Defined.

Lemma localFallback_frame (now t : Z) (d : IMUData) (st : State) :
  let r := localFallback now t d st in
  deviceConnected (fst r) = deviceConnected st /\
  bufferFull (fst r) = bufferFull st /\
  bufferIndex (fst r) = bufferIndex st /\
  lastMLBrakeMs (fst r) = lastMLBrakeMs st /\
  (snd r = [] \/ exists cls conf, snd r = [EventNotify LocalPath (event_payload cls conf)]).
Proof.
  cbv zeta. unfold localFallback, reportLocalCrash, reportLocalBrake, sendEventNotification.
  cbv zeta. destruct st. state_simpl.
  repeat case_match; state_simpl; repeat split; eauto.
Qed.

(** The model path's response to a classification. *)
Lemma classify_frame (nowMs t : Z) (st : State) :
  let r := classifyAndRespondToEvent nowMs t st in
  deviceConnected (fst r) = deviceConnected st /\
  bufferFull (fst r) = bufferFull st /\
  bufferIndex (fst r) = bufferIndex st /\
  lastLocalBrakeMs (fst r) = lastLocalBrakeMs st /\
  lastLocalCrashMs (fst r) = lastLocalCrashMs st /\
  (exists cls conf,
      snd r = [Classified cls conf] \/
      snd r = [Classified cls conf; EventNotify ModelPath (event_payload cls conf)]) /\
  (currentPattern st = LED_CRASH -> ~ modelBrakeFired st (fst r) ->
   currentPattern (fst r) = LED_CRASH) /\
  (modelBrakeFired st (fst r) -> currentPattern (fst r) = LED_BRAKE).
Proof.
  cbv zeta. unfold classifyAndRespondToEvent, sendEventNotification, modelBrakeFired.
  cbv zeta.
  generalize (extractFeatures (imuBuffer st) EVENT_WINDOW_SIZE). intros features.
  generalize (getClassConfidence features (classifyEvent features)).
  generalize (classifyEvent features). intros cls conf.
  pose proof (cooldown_elapsed_neq ML_BRAKE_COOLDOWN_MS nowMs (lastMLBrakeMs st) eq_refl) as HB.
  destruct st. state_simpl.
  destruct (ML_BRAKE_COOLDOWN_MS <=? elapsed nowMs lastMLBrakeMs0);
    try specialize (HB eq_refl);
    repeat case_match; state_simpl;
    repeat match goal with H : (_, _) = (_, _) |- _ => inversion H; clear H; subst end;
    state_simpl; repeat split; eauto; try congruence; try tauto;
    try (intros; subst; discriminate).
Qed.


Lemma detectEventTrigger_frame (cur : IMUData) (st : State) :
  let st' := snd (detectEventTrigger cur st) in
  detection_state st' = detection_state st /\
  bufferFull st' = bufferFull st /\ bufferIndex st' = bufferIndex st /\
  currentPattern st' = currentPattern st /\ imuBuffer st' = imuBuffer st.
Proof. destruct st. repeat split; reflexivity. Qed.

Lemma set_lastMLAttemptMs_frame (t : Z) (st : State) :
  let st' := set_lastMLAttemptMs t st in
  deviceConnected st' = deviceConnected st /\
  lastLocalBrakeMs st' = lastLocalBrakeMs st /\
  lastLocalCrashMs st' = lastLocalCrashMs st /\
  lastMLBrakeMs st' = lastMLBrakeMs st /\
  bufferFull st' = bufferFull st /\ bufferIndex st' = bufferIndex st /\
  currentPattern st' = currentPattern st.
Proof. destruct st. repeat split; reflexivity. Qed.

Lemma detection_state_fields (st st' : State) :
  detection_state st' = detection_state st ->
  deviceConnected st' = deviceConnected st /\
  lastLocalBrakeMs st' = lastLocalBrakeMs st /\
  lastLocalCrashMs st' = lastLocalCrashMs st /\
  lastMLBrakeMs st' = lastMLBrakeMs st /\
  lastMLCrashMs st' = lastMLCrashMs st /\
  lastMLAttemptMs st' = lastMLAttemptMs st.
Proof. unfold detection_state. intros H. inversion H. repeat split; assumption. Qed.

(** The model path: it runs only on a full buffer, leaves the local
    channels alone, and notifies under its own origin. *)
Lemma modelPath_frame (i : LoopInput) (st : State) :
  let r := modelPath i st in
  (bufferFull st = false -> r = (st, [])) /\
  (bufferFull st = true -> bufferFull (fst r) = true) /\
  deviceConnected (fst r) = deviceConnected st /\
  lastLocalBrakeMs (fst r) = lastLocalBrakeMs st /\
  lastLocalCrashMs (fst r) = lastLocalCrashMs st /\
  (forall cls, count_events LocalPath cls (snd r) = 0%nat) /\
  (forall n, (EVENT_WINDOW_SIZE <= n)%nat -> guarded n (snd r) = true) /\
  (currentPattern st = LED_CRASH -> ~ modelBrakeFired st (fst r) ->
   currentPattern (fst r) = LED_CRASH).
Proof.
  cbv zeta. unfold modelPath.
  destruct (bufferFull st) eqn:Hfull; cbn [andb];
    [|repeat split; intros; try reflexivity; try discriminate; cbn [fst]; auto].
  destruct (ML_ATTEMPT_COOLDOWN_MS <=? elapsed (now i) (lastMLAttemptMs st));
    [|repeat split; intros; try reflexivity; try discriminate; cbn [fst]; auto].
  destruct (detectEventTrigger_frame (sample i) st) as (D1 & D2 & D3 & D4 & _).
  cbv zeta in D1, D2, D3, D4.
  destruct (detectEventTrigger (sample i) st) as [trig st1]. cbn [snd] in *.
  apply detection_state_fields in D1. destruct D1 as (E1 & E2 & E3 & E4 & _).
  destruct trig;
    [|cbn [fst snd]; repeat split; intros; try reflexivity; try discriminate; try congruence].
  destruct (set_lastMLAttemptMs_frame (now i) st1) as (A1 & A2 & A3 & A4 & A5 & A6 & A7).
  cbv zeta in A1, A2, A3, A4, A5, A6, A7.
  set (st2 := set_lastMLAttemptMs (now i) st1) in *.
  destruct (capturePostSamples_frame 25 (post i) st2) as (C1 & C2 & C3 & C4).
  cbv zeta in C1, C2, C3, C4.
  destruct (capturePostSamples 25 (post i) st2) as [st3 out1]. cbn [fst snd] in *.
  apply detection_state_fields in C1. destruct C1 as (F1 & F2 & F3 & F4 & _).
  destruct (classify_frame (now i) (t_model i) st3)
    as (G1 & G2 & G3 & G4 & G5 & (cls & conf & G6) & G7 & G8).
  cbv zeta in G1, G2, G3, G4, G5, G6, G7, G8.
  destruct (classifyAndRespondToEvent (now i) (t_model i) st3) as [st4 out2].
  cbn [fst snd] in *.
  destruct (telemetry_counts out1 C4) as [T1 T2].
  repeat split.
  - discriminate.
  - intros _. rewrite G2. apply C2. rewrite A5, D2. exact Hfull.
  - rewrite G1, F1, A1. exact E1.
  - rewrite G4, F2, A2. exact E2.
  - rewrite G5, F3, A3. exact E3.
  - intros c. rewrite count_events_app, T1.
    destruct G6 as [-> | ->]; reflexivity.
  - intros n Hn. rewrite T2.
    assert (Hle : (EVENT_WINDOW_SIZE <=? n + reads out1)%nat = true)
      by (apply Nat.leb_le; lia).
    destruct G6 as [-> | ->]; cbn [guarded]; rewrite Hle; reflexivity.
  - intros Hc Hnb. apply G7.
    + apply C3. rewrite A7, D4. exact Hc.
    + unfold modelBrakeFired in *. rewrite F4, A4, E4. exact Hnb.
Qed.

(** ** Crash pattern and Brake detections *)

Lemma sampling_prefix_frame (now : Z) (d : IMUData) (st : State) :
  let st' := storeSample d (set_lastSampleTime now st) in
  detection_state st' = detection_state st /\
  currentPattern st' = currentPattern st /\
  brakeEndTime st' = brakeEndTime st /\
  lastMagLocal st' = lastMagLocal st.
Proof. unfold storeSample. destruct st. repeat split; reflexivity. Qed.




(** ** Brake debounce *)

(** C2, counterexample. Under sustained braking the local fallback fires
    the Brake pattern at 400 ms and keeps extending it. At 3020 ms the
    window is full, the model path classifies Brake with its cooldown
    elapsed, and a second Brake notification goes out while the Brake
    pattern is showing. *)
Lemma second_brake_notification :
  let st := fst (run init_state (braking 150)) in
  count_class CLASS_BRAKE (snd (run init_state (braking 150))) = 1%nat /\
  currentPattern st = LED_BRAKE /\
  snd (classifyAndRespondToEvent 3020 3020
         (fst (capturePostSamples 25 (brake_post 151)
                 (set_lastMLAttemptMs 3020
                    (snd (detectEventTrigger (sample (brake_tick 151))
                            (fst (localFallback 3020 3020 (sample (brake_tick 151))
                                    (storeSample (sample (brake_tick 151))
                                       (set_lastSampleTime 3020 st))))))))))
  = [ Classified CLASS_BRAKE (S754_finite false 10345950 (-25));
      EventNotify ModelPath (event_payload CLASS_BRAKE (S754_finite false 10345950 (-25))) ] /\
  count_class CLASS_BRAKE (snd (loop (brake_tick 151) st)) = 1%nat /\
  currentPattern (fst (loop (brake_tick 151) st)) = LED_BRAKE /\
  count_class CLASS_BRAKE (snd (run init_state (braking 151))) = 2%nat.
Proof.
  cbv zeta.
  split; [vm_compute; reflexivity|].
  split; [vm_compute; reflexivity|].
  split; [vm_compute; reflexivity|].
  split; [vm_compute; reflexivity|].
  split; vm_compute; reflexivity.
Qed.

(** C2, as amended. While the Brake pattern is showing, a local-fallback
    Brake detection sets the end-time to [now + 800] and sends nothing.
    A model-path Brake classification inside the model brake cooldown sets
    the end-time to [nowMs + 900] and sends nothing; once that cooldown
    has elapsed it fires the pattern again, with the end-time 900 ms after
    the clock reading of that moment, and sends a Brake notification when
    the link is up. The Brake pattern stays in place in every case. *)
Theorem brake_debounce (now t nowMs tm : Z) (d : IMUData) (st : State) :
  currentPattern st = LED_BRAKE ->
  (localBrakeFired st (fst (localFallback now t d st)) ->
   currentPattern (fst (localFallback now t d st)) = LED_BRAKE /\
   brakeEndTime (fst (localFallback now t d st)) = u32 (now + 800) /\
   snd (localFallback now t d st) = []) /\
  (classifyEvent (extractFeatures (imuBuffer st) EVENT_WINDOW_SIZE) = CLASS_BRAKE ->
   let conf := getClassConfidence (extractFeatures (imuBuffer st) EVENT_WINDOW_SIZE)
                 CLASS_BRAKE in
   let r := classifyAndRespondToEvent nowMs tm st in
   currentPattern (fst r) = LED_BRAKE /\
   ((ML_BRAKE_COOLDOWN_MS <=? elapsed nowMs (lastMLBrakeMs st)) = false ->
    brakeEndTime (fst r) = u32 (nowMs + 900) /\
    snd r = [Classified CLASS_BRAKE conf]) /\
   ((ML_BRAKE_COOLDOWN_MS <=? elapsed nowMs (lastMLBrakeMs st)) = true ->
    brakeEndTime (fst r) = u32 (tm + 900) /\
    snd r = Classified CLASS_BRAKE conf
              :: (if deviceConnected st
                  then [EventNotify ModelPath (event_payload CLASS_BRAKE conf)]
                  else []))).
Proof.
  intros Hb. split.
  - unfold localFallback, localBrakeFired. cbv zeta.
    pose proof (cooldown_elapsed_neq LOCAL_BRAKE_COOLDOWN_MS now (lastLocalBrakeMs st) eq_refl)
      as HB.
    destruct st. state_simpl. subst currentPattern0.
    rewrite (bool_decide_eq_false_2 (LED_BRAKE = LED_CRASH)) by discriminate.
    rewrite (bool_decide_eq_true_2 (LED_BRAKE = LED_BRAKE)) by reflexivity.
    cbn [negb andb].
    repeat case_match; state_simpl; intros Hf;
      try (exfalso; apply Hf; reflexivity); auto.
  - intros Hcls. cbv zeta.
    unfold classifyAndRespondToEvent, sendEventNotification. cbv zeta.
    rewrite Hcls.
    generalize (getClassConfidence (extractFeatures (imuBuffer st) EVENT_WINDOW_SIZE)
                  CLASS_BRAKE).
    intros conf. change (CLASS_BRAKE =? CLASS_BRAKE) with true. cbv iota.
    destruct st. state_simpl. subst currentPattern0.
    rewrite (bool_decide_eq_true_2 (LED_BRAKE = LED_BRAKE)) by reflexivity.
    destruct (ML_BRAKE_COOLDOWN_MS <=? elapsed nowMs lastMLBrakeMs0); state_simpl.
    + split; [reflexivity|]. split; [discriminate|]. intros _.
      split; reflexivity.
    + split; [reflexivity|]. split; [|discriminate]. intros _.
      split; reflexivity.
Qed.

(** The state under sustained braking, just before the window fills. *)
Lemma brake_debounce_witness :
  let st := fst (run init_state (braking 140)) in
  let d := sample (brake_tick 141) in
  currentPattern st = LED_BRAKE /\
  brakeEndTime (fst (localFallback 3220 3220 d st)) = 4020 /\
  snd (localFallback 3220 3220 d st) = [].
Proof.
  cbv zeta.
  assert (Hb : currentPattern (fst (run init_state (braking 140))) = LED_BRAKE)
    by (vm_compute; reflexivity).
  destruct (brake_debounce 3220 3220 3220 3220 (sample (brake_tick 141))
              (fst (run init_state (braking 140))) Hb) as [Hl _].
  destruct Hl as (_ & He & Hs); [vm_compute; discriminate|].
  split; [exact Hb|]. split; [rewrite He; reflexivity | exact Hs].
Defined.

(** ** Local crash cooldown *)







(** The hit at 3000 ms fires Crash. On the next sample, 20 ms later, the
    local crash condition holds again (jerk 45 g/s) well inside the
    cooldown, and the tick does emit an event: the fallback's brake branch
    runs in place of the skipped crash check and sends a Brake
    notification. *)
Lemma later_tick_emits_brake :
  let d := sample (tick 3020 (F32.of_Z 1)) in
  crashCondition d crashed_state = true /\
  elapsed 3020 (lastLocalCrashMs crashed_state) = 20 /\
  snd (loop (tick 3020 (F32.of_Z 1)) crashed_state)
  = [ SensorRead d; ImuNotify (imu_payload d);
      EventNotify LocalPath (event_payload CLASS_BRAKE (F32.of_Z 1)) ].
Proof.
  cbv zeta.
  split; [vm_compute; reflexivity|].
  split; vm_compute; reflexivity.
Qed.




(** ** Window gating of the model path *)

Lemma guarded_app (a b : list Effect) (n : nat) :
  guarded n (a ++ b) = guarded n a && guarded (n + reads a) b.
Proof.
  revert n. induction a as [|e a IH]; intros n.
  - cbn. f_equal. lia.
  - destruct e; cbn [app guarded]; rewrite IH.
    + unfold reads. rewrite filter_cons_True by reflexivity. cbn [length].
      do 2 f_equal. lia.
    + reflexivity.
    + reflexivity.
    + rewrite andb_assoc. reflexivity.
Qed.

(** A guarded trace with fewer than [EVENT_WINDOW_SIZE] reads holds no
    classification. *)
Lemma guarded_short (tr : list Effect) (n : nat) :
  guarded n tr = true -> (n + reads tr < EVENT_WINDOW_SIZE)%nat ->
  Forall (fun e => is_classified e = false) tr.
Proof.
  revert n. induction tr as [|e tr IH]; intros n Hg Hn; [constructor|].
  destruct e; cbn [guarded] in Hg.
  - constructor; [reflexivity|]. apply (IH (S n) Hg).
    unfold reads in *. rewrite filter_cons_True in Hn by reflexivity.
    cbn [length] in Hn. lia.
  - constructor; [reflexivity|]. apply (IH n Hg). exact Hn.
  - constructor; [reflexivity|]. apply (IH n Hg). exact Hn.
  - apply andb_prop in Hg as [Hle _]. apply Nat.leb_le in Hle. lia.
Qed.

Lemma storeSample_buffer_inv (d : IMUData) (st : State) (n : nat) :
  buffer_inv st n -> buffer_inv (storeSample d st) (S n).
Proof.
  unfold buffer_inv, storeSample. destruct st. state_simpl.
  intros [Hf Ht]. destruct bufferFull0.
  - specialize (Ht eq_refl). split; [|intros _; lia].
    intros H. exfalso. revert H. case_match; discriminate.
  - destruct (Hf eq_refl) as [-> Hn]. clear Hf Ht.
    unfold EVENT_WINDOW_SIZE in *.
    destruct (Nat.eq_dec (S n) 150%nat) as [E | E].
    + replace ((n + 1) mod 150)%nat with 0%nat
        by (replace (n + 1)%nat with 150%nat by lia; reflexivity).
      cbn [Nat.eqb]. split; [discriminate | intros _; lia].
    + rewrite (Nat.mod_small (n + 1)%nat 150%nat) by lia.
      replace ((n + 1 =? 0)%nat) with false by (symmetry; apply Nat.eqb_neq; lia).
      split; [intros _; split; lia | discriminate].
Qed.

Lemma buffer_inv_frame (st st' : State) (n : nat) :
  bufferFull st' = bufferFull st -> bufferIndex st' = bufferIndex st ->
  buffer_inv st n -> buffer_inv st' n.
Proof. unfold buffer_inv. intros -> ->. auto. Qed.

Lemma buffer_inv_full (st st' : State) (n m : nat) :
  bufferFull st = true -> bufferFull st' = true -> (n <= m)%nat ->
  buffer_inv st n -> buffer_inv st' m.
Proof.
  unfold buffer_inv. intros Hf Hf' Hnm [_ Ht]. specialize (Ht Hf).
  split; [rewrite Hf'; discriminate | intros _; lia].
Qed.

Lemma sendIMUData_quiet (d : IMUData) (st : State) :
  reads (sendIMUData d st) = 0%nat /\ forall n, guarded n (sendIMUData d st) = true.
Proof. destruct (sendIMUData_cases d st) as [-> | ->]; split; reflexivity. Qed.

Lemma localFallback_quiet (now t : Z) (d : IMUData) (st : State) :
  reads (snd (localFallback now t d st)) = 0%nat /\
  forall n, guarded n (snd (localFallback now t d st)) = true.
Proof.
  destruct (localFallback_frame now t d st) as (_ & _ & _ & _ & [-> | (c & conf & ->)]);
    split; reflexivity.
Qed.

Lemma reads_cons_read (d : IMUData) (tr : list Effect) :
  reads (SensorRead d :: tr) = S (reads tr).
Proof. unfold reads. rewrite filter_cons_True by reflexivity. reflexivity. Qed.

(** One loop iteration keeps the buffer invariant and emits a guarded
    trace. *)
Lemma loop_buffer_inv (i : LoopInput) (st : State) (n : nat) :
  buffer_inv st n ->
  buffer_inv (fst (loop i st)) (n + reads (snd (loop i st))) /\
  guarded n (snd (loop i st)) = true.
Proof.
  intros Hinv. unfold loop.
  destruct (SAMPLE_INTERVAL_MS <=? elapsed (now i) (lastSampleTime st)).
  - assert (Hinv0 : buffer_inv (set_lastSampleTime (now i) st) n)
      by (apply (buffer_inv_frame st); [destruct st; reflexivity.. | exact Hinv]).
    apply (storeSample_buffer_inv (sample i)) in Hinv0.
    set (st1 := storeSample (sample i) (set_lastSampleTime (now i) st)) in *.
    destruct (sendIMUData_quiet (sample i) st1) as [Q1 Q2].
    destruct (localFallback_frame (now i) (t_local i) (sample i) st1)
      as (_ & L1 & L2 & _).
    cbv zeta in L1, L2.
    destruct (localFallback_quiet (now i) (t_local i) (sample i) st1) as [Q3 Q4].
    destruct (localFallback (now i) (t_local i) (sample i) st1) as [st2 out1].
    cbn [fst snd] in *.
    assert (Hinv2 : buffer_inv st2 (S n))
      by (apply (buffer_inv_frame st1); assumption).
    destruct (modelPath_frame i st2) as (M1 & M2 & _ & _ & _ & _ & M3 & _).
    cbv zeta in M1, M2, M3.
    assert (Hmodel : buffer_inv (fst (modelPath i st2)) (S n + reads (snd (modelPath i st2)))
                     /\ guarded (S n) (snd (modelPath i st2)) = true).
    { destruct (bufferFull st2) eqn:Hfull.
      - split.
        + apply (buffer_inv_full st2 _ (S n)); [exact Hfull | apply M2; reflexivity | lia | exact Hinv2].
        + apply M3. apply Hinv2. exact Hfull.
      - rewrite (M1 eq_refl). cbn [fst snd]. split; [|reflexivity].
        replace (S n + reads [])%nat with (S n) by (cbn; lia). exact Hinv2. }
    destruct Hmodel as [H1 H2].
    destruct (modelPath i st2) as [st3 out2]. cbn [fst snd] in *.
    destruct (updateLEDs_detection (t_led i) st3) as (_ & U1 & U2).
    split.
    + apply (buffer_inv_frame st3); [exact U1 | exact U2 |].
      cbn [app]. rewrite reads_cons_read, !reads_app, Q1, Q3.
      replace (n + S (0 + (0 + reads out2)))%nat with (S n + reads out2)%nat by lia.
      exact H1.
    + cbn [app guarded]. rewrite !guarded_app, Q2, Q4, Q1, Q3.
      replace (S n + 0 + 0)%nat with (S n) by lia. rewrite H2. reflexivity.
  - cbn [fst snd]. destruct (updateLEDs_detection (t_led i) st) as (_ & U1 & U2).
    split; [|reflexivity].
    apply (buffer_inv_frame st); [exact U1 | exact U2 |].
    replace (n + reads [])%nat with n by (cbn; lia). exact Hinv.
Qed.

Lemma step_buffer_inv (e : Event) (st : State) (n : nat) :
  buffer_inv st n ->
  buffer_inv (fst (step st e)) (n + reads (snd (step st e))) /\
  guarded n (snd (step st e)) = true.
Proof.
  intros Hinv. destruct e as [i | v | t |]; cbn [step].
  - apply loop_buffer_inv, Hinv.
  - cbn [fst snd]. split; [|reflexivity].
    replace (n + reads [])%nat with n by (cbn; lia).
    apply (buffer_inv_frame st); [| | exact Hinv];
      unfold onWrite; destruct st; repeat case_match; reflexivity.
  - cbn [fst snd]. split; [|reflexivity].
    replace (n + reads [])%nat with n by (cbn; lia).
    apply (buffer_inv_frame st); [destruct st; reflexivity.. | exact Hinv].
  - cbn [fst snd]. split; [|reflexivity].
    replace (n + reads [])%nat with n by (cbn; lia).
    apply (buffer_inv_frame st); [destruct st; reflexivity.. | exact Hinv].
Qed.

Lemma run_buffer_inv (es : list Event) (st : State) (n : nat) :
  buffer_inv st n ->
  buffer_inv (fst (run st es)) (n + reads (snd (run st es))) /\
  guarded n (snd (run st es)) = true.
Proof.
  revert st n. induction es as [|e es IH]; intros st n Hinv; cbn [run].
  - cbn [fst snd]. split; [|reflexivity].
    replace (n + reads [])%nat with n by (cbn; lia). exact Hinv.
  - destruct (step_buffer_inv e st n Hinv) as [S1 S2].
    destruct (step st e) as [st1 out1]. cbn [fst snd] in *.
    destruct (IH st1 _ S1) as [R1 R2].
    destruct (run st1 es) as [st2 out2]. cbn [fst snd] in *.
    split.
    + rewrite reads_app. rewrite Nat.add_assoc. exact R1.
    + rewrite guarded_app, S2, R2. reflexivity.
Qed.

Lemma init_buffer_inv : buffer_inv init_state 0.
Proof. split; [intros _; split; [reflexivity | unfold EVENT_WINDOW_SIZE; lia] | discriminate]. Qed.

(** C4. From boot, as long as fewer than W = 150 samples have been read the
    buffer-full flag is false and the run holds no classification; and in
    any run, whatever precedes a classification contains at least 150
    sensor reads. *)
Theorem classification_needs_full_window (es : list Event) :
  ((reads (snd (run init_state es)) < EVENT_WINDOW_SIZE)%nat ->
   bufferFull (fst (run init_state es)) = false /\
   Forall (fun e => is_classified e = false) (snd (run init_state es))) /\
  (forall tr1 cls conf tr2,
      snd (run init_state es) = tr1 ++ Classified cls conf :: tr2 ->
      (EVENT_WINDOW_SIZE <= reads tr1)%nat).
Proof.
  destruct (run_buffer_inv es init_state 0 init_buffer_inv) as [[_ Hfull] Hg].
  cbn [Nat.add] in Hfull. split.
  - intros Hlt. split.
    + destruct (bufferFull (fst (run init_state es))); [|reflexivity].
      specialize (Hfull eq_refl). lia.
    + apply (guarded_short _ 0 Hg). exact Hlt.
  - intros tr1 cls conf tr2 Htr. rewrite Htr, guarded_app in Hg.
    apply andb_prop in Hg as [_ Hg]. cbn [guarded Nat.add] in Hg.
    apply andb_prop in Hg as [Hle _]. apply Nat.leb_le in Hle. exact Hle.
Qed.

(** Sustained braking: 149 samples leave the window open; the 151st tick
    classifies, after 150 reads and more. *)
Lemma classification_needs_full_window_witness :
  bufferFull (fst (run init_state (braking 149))) = false /\
  Forall (fun e => is_classified e = false) (snd (run init_state (braking 149))).
Proof.
  apply (proj1 (classification_needs_full_window (braking 149))).
  vm_compute. lia.
Defined.

(* ================================================================== *)
(** * Further properties of the firmware *)
(* ================================================================== *)

Import Driver Invariant.

(** ** LED state machine *)

Ltac led_simpl :=
  unfold led_inv, step_in_range, is_rest, LED_COUNT in *; state_simpl;
  change (12 / 2) with 6 in *.

(** The animation switch of [updateLEDs] keeps the step in range. *)
Lemma animate_led_inv (now : Z) (st : State) :
  led_inv st ->
  led_inv
    (match currentPattern st with
     | LED_OFF => st
     | LED_CONNECTED_GREEN =>
         if elapsed now (lastLEDUpdate st) >? 30
         then set_animation now (ledAnimationStep st + 1) st else st
     | LED_ARMED_RED => st
     | LED_BRAKE =>
         if elapsed now (lastLEDUpdate st) >? 40
         then let n := ledAnimationStep st + 1 in
              set_animation now (if n >? LED_COUNT / 2 then 0 else n) st
         else st
     | LED_CRASH =>
         if elapsed now (lastLEDUpdate st) >? 100
         then set_animation now (if ledAnimationStep st =? 0 then 1 else 0) st
         else st
     | LED_TURN_LEFT | LED_TURN_RIGHT =>
         if elapsed now (lastLEDUpdate st) >? 70
         then let n := ledAnimationStep st + 1 in
              set_animation now (if n >? LED_COUNT / 2 + 2 then 0 else n) st
         else st
     | LED_PARTY =>
         if elapsed now (lastLEDUpdate st) >? 20
         then set_animation now (Z.rem (ledAnimationStep st + 1) 256) st
         else st
     | LED_IDLE =>
         if elapsed now (lastLEDUpdate st) >? 50
         then set_animation now (ledAnimationStep st + 1) st else st
     end).
Proof.
  destruct st. led_simpl. intros (Hs & H0 & Hr).
  destruct currentPattern0; cbv zeta;
    try (destruct (elapsed now lastLEDUpdate0 >? _)); led_simpl;
    repeat split; try assumption; try lia;
    repeat match goal with
      | |- context [?a >? ?b] => destruct (Z.gtb_spec a b)
      | |- context [?a =? ?b] => destruct (Z.eqb_spec a b)
      end; try lia;
    pose proof (Z.rem_bound_pos (ledAnimationStep0 + 1) 256 ltac:(lia) ltac:(lia)); lia.
Qed.

Lemma updateLEDs_led_inv (now : Z) (st : State) :
  led_inv st -> led_inv (updateLEDs now st).
Proof.
  intros Hinv. unfold updateLEDs. cbv zeta.
  apply animate_led_inv.
  match goal with |- led_inv (if ?c then ?a else ?b) => set (st1 := b) end.
  assert (H1 : led_inv st1).
  { subst st1. destruct (_ && _); [|exact Hinv].
    destruct st. led_simpl. destruct Hinv as (Hs & H0 & Hr).
    destruct savedPattern0; try discriminate Hs; repeat split; auto. }
  clearbody st1. destruct (_ && _); [|exact H1].
  destruct st1. led_simpl. destruct H1 as (Hs & H0 & Hr).
  repeat split; auto; lia.
Qed.

(** ** Properties kept by every loop iteration *)

Lemma leds_fold_stable (P : State -> Prop) (ts : list Z) (st : State) :
  (forall t st, P st -> P (updateLEDs t st)) ->
  P st -> P (fold_left (fun s t => updateLEDs t s) ts st).
Proof.
  intros Hu. revert st. induction ts as [|t ts IH]; intros st Hst; cbn [fold_left]; auto.
Qed.

Lemma capture_stable (P : State -> Prop) (Q : Effect -> Prop)
    (n : nat) (post : nat -> PostInput) (st : State) :
  loop_stable P -> loop_emits P Q -> P st ->
  P (fst (capturePostSamples n post st)) /\
  Forall Q (snd (capturePostSamples n post st)).
Proof.
  intros (_ & Hstore & _ & _ & _ & _ & Hled) (Hread & Hsend & _) Hst.
  unfold capturePostSamples.
  apply (for_loop_ind (fun r : State * list Effect => P (fst r) /\ Forall Q (snd r))).
  - split; [exact Hst | constructor].
  - intros [s out] i [Hs Hout]. cbn [fst snd] in *.
    assert (Hs' : P (storeSample (post_sample (post i))
                       (fold_left (fun s t => updateLEDs t s) (led_times (post i)) s)))
      by (apply Hstore, leds_fold_stable; assumption).
    split; [exact Hs'|].
    apply Forall_app. split; [exact Hout|].
    constructor; [apply Hread | apply Hsend, Hs'].
Qed.

Lemma modelPath_stable (P : State -> Prop) (Q : Effect -> Prop)
    (i : LoopInput) (st : State) :
  loop_stable P -> loop_emits P Q -> P st ->
  P (fst (modelPath i st)) /\ Forall Q (snd (modelPath i st)).
Proof.
  intros HP HQ Hst.
  pose proof HP as (_ & _ & _ & Htrig & Hatt & Hcls & _).
  pose proof HQ as (_ & _ & _ & Hout).
  unfold modelPath.
  destruct (bufferFull st && _); [|split; [exact Hst | constructor]].
  specialize (Htrig (sample i) st Hst).
  destruct (detectEventTrigger (sample i) st) as [trig st1]. cbn [snd] in Htrig.
  destruct trig; [|split; [exact Htrig | constructor]].
  destruct (capture_stable P Q 25 (post i) (set_lastMLAttemptMs (now i) st1) HP HQ)
    as [C1 C2]; [apply Hatt, Htrig|].
  destruct (capturePostSamples 25 (post i) (set_lastMLAttemptMs (now i) st1)) as [st3 out1].
  cbn [fst snd] in *.
  specialize (Hcls (now i) (t_model i) st3 C1).
  specialize (Hout (now i) (t_model i) st3 C1).
  destruct (classifyAndRespondToEvent (now i) (t_model i) st3) as [st4 out2].
  cbn [fst snd] in *.
  split; [exact Hcls | apply Forall_app; split; assumption].
Qed.

Lemma loop_stable_effects (P : State -> Prop) (Q : Effect -> Prop)
    (i : LoopInput) (st : State) :
  loop_stable P -> loop_emits P Q -> P st ->
  P (fst (loop i st)) /\ Forall Q (snd (loop i st)).
Proof.
  intros HP HQ Hst.
  pose proof HP as (Htime & Hstore & Hlocal & _ & _ & _ & Hled).
  pose proof HQ as (Hread & Hsend & Hlout & _).
  unfold loop.
  destruct (SAMPLE_INTERVAL_MS <=? elapsed (now i) (lastSampleTime st));
    [|cbn [fst snd]; split; [apply Hled, Hst | constructor]].
  assert (H1 : P (storeSample (sample i) (set_lastSampleTime (now i) st)))
    by (apply Hstore, Htime, Hst).
  set (st1 := storeSample (sample i) (set_lastSampleTime (now i) st)) in *.
  specialize (Hlocal (now i) (t_local i) (sample i) st1 H1).
  specialize (Hlout (now i) (t_local i) (sample i) st1 H1).
  destruct (localFallback (now i) (t_local i) (sample i) st1) as [st2 out1].
  cbn [fst snd] in *.
  destruct (modelPath_stable P Q i st2 HP HQ Hlocal) as [M1 M2].
  destruct (modelPath i st2) as [st3 out2]. cbn [fst snd] in *.
  split; [apply Hled, M1|].
  constructor; [apply Hread|].
  apply Forall_app. split; [apply Hsend, H1|].
  apply Forall_app. split; assumption.
Qed.

Lemma trivial_emits (P : State -> Prop) : loop_emits P (fun _ => True).
Proof.
  repeat split; intros; try exact I; apply Forall_forall; intros; exact I.
Qed.

Lemma run_stable_effects (P : State -> Prop) (Q : Effect -> Prop)
    (es : list Event) (st : State) :
  loop_stable P -> loop_emits P Q ->
  (forall e st, In e es -> (forall i, e <> Loop i) -> P st -> P (fst (step st e))) ->
  P st ->
  P (fst (run st es)) /\ Forall Q (snd (run st es)).
Proof.
  intros HP HQ. revert st. induction es as [|e es IH]; intros st Hcb Hst; cbn [run].
  - split; [exact Hst | constructor].
  - assert (Hstep : P (fst (step st e)) /\ Forall Q (snd (step st e))).
    { destruct e as [i | v | t |].
      - apply loop_stable_effects; assumption.
      - split; [apply Hcb; [left; reflexivity | discriminate | exact Hst] | constructor].
      - split; [apply Hcb; [left; reflexivity | discriminate | exact Hst] | constructor].
      - split; [apply Hcb; [left; reflexivity | discriminate | exact Hst] | constructor]. }
    destruct Hstep as [S1 S2].
    destruct (step st e) as [st1 out1]. cbn [fst snd] in *.
    destruct (IH st1) as [R1 R2]; [|exact S1|].
    { intros e' st' Hin. apply Hcb. right. exact Hin. }
    destruct (run st1 es) as [st2 out2]. cbn [fst snd] in *.
    split; [exact R1 | apply Forall_app; split; assumption].
Qed.

Lemma callbacks_step (P : State -> Prop) (e : Event) (st : State) :
  callback_stable P -> (forall i, e <> Loop i) -> P st -> P (fst (step st e)).
Proof.
  intros (Hw & Hc & Hd) Hne Hst. destruct e as [i | v | t |]; cbn [step fst].
  - destruct (Hne i eq_refl).
  - apply Hw, Hst.
  - apply Hc, Hst.
  - apply Hd, Hst.
Qed.

Ltac by_cases_on_state st :=
  destruct st; state_simpl; repeat case_match; state_simpl.

Ltac split_ifs :=
  repeat match goal with
    | |- context [if ?c then _ else _] => destruct c
    end.

Ltac led_finish H :=
  led_simpl; destruct H as (?Hs & ?H0 & ?Hr); repeat apply conj; auto; try lia;
  try (unfold restPattern; cbn;
       match goal with |- context [if ?b then _ else _] => destruct b end;
       reflexivity).

Lemma led_inv_loop_stable : loop_stable led_inv.
Proof.
  unfold loop_stable. repeat apply conj.
  - intros t st H. destruct st. led_finish H.
  - intros d st H. unfold storeSample. destruct st. led_finish H.
  - intros now t d st H. unfold localFallback. cbv zeta. destruct st. state_simpl.
    split_ifs; state_simpl; led_finish H.
  - intros d st H. unfold detectEventTrigger. destruct st. led_finish H.
  - intros t st H. destruct st. led_finish H.
  - intros nowMs t st H. unfold classifyAndRespondToEvent. cbv zeta.
    generalize (extractFeatures (imuBuffer st) EVENT_WINDOW_SIZE). intros f.
    generalize (getClassConfidence f (classifyEvent f)). generalize (classifyEvent f).
    intros cls conf. destruct st. state_simpl.
    split_ifs; state_simpl; led_finish H.
  - intros t st. apply updateLEDs_led_inv.
Qed.

Lemma led_inv_callback_stable : callback_stable led_inv.
Proof.
  unfold callback_stable. repeat apply conj.
  - intros v st H. unfold onWrite. destruct st. state_simpl.
    split_ifs; state_simpl; led_finish H.
  - intros t st H. unfold onConnect. destruct st. led_finish H.
  - intros st H. unfold onDisconnect. destruct st. led_finish H.
Qed.

(** X1. In every state the firmware reaches from boot, the pattern saved
    for the end of a Brake is one of the two rest patterns, and the
    animation step is inside the range that its pattern's pixel loop
    expects: 0..6 for Brake, 0..1 for Crash, 0..8 for the turn signals,
    0..255 for Party. *)
Theorem led_state_invariant (es : list Event) :
  (savedPattern (fst (run init_state es)) = LED_ARMED_RED \/
   savedPattern (fst (run init_state es)) = LED_IDLE) /\
  (currentPattern (fst (run init_state es)) = LED_BRAKE ->
   0 <= ledAnimationStep (fst (run init_state es)) <= 6) /\
  (currentPattern (fst (run init_state es)) = LED_CRASH ->
   0 <= ledAnimationStep (fst (run init_state es)) <= 1) /\
  (currentPattern (fst (run init_state es)) = LED_TURN_LEFT \/
   currentPattern (fst (run init_state es)) = LED_TURN_RIGHT ->
   0 <= ledAnimationStep (fst (run init_state es)) <= 8) /\
  (currentPattern (fst (run init_state es)) = LED_PARTY ->
   0 <= ledAnimationStep (fst (run init_state es)) <= 255).
Proof.
  destruct (run_stable_effects led_inv (fun _ => True) es init_state
              led_inv_loop_stable (trivial_emits _)) as [H _].
  - intros e st _. apply callbacks_step, led_inv_callback_stable.
  - unfold led_inv. cbn. repeat apply conj; [reflexivity | lia | exact I].
  - destruct H as (Hs & H0 & Hr). unfold step_in_range, is_rest, LED_COUNT in *.
    change (12 / 2) with 6 in Hr.
    split; [destruct (savedPattern _); try discriminate Hs; auto|].
    destruct (currentPattern _); repeat apply conj; try discriminate; try lia;
      intros [E | E]; try discriminate E; lia.
Qed.

(** ** Sample buffer *)

Lemma updateLEDs_buffer (now : Z) (st : State) :
  imuBuffer (updateLEDs now st) = imuBuffer st.
Proof.
  unfold updateLEDs. cbv zeta. destruct st. state_simpl.
  repeat case_match; reflexivity.
Qed.

Lemma buffer_ok_loop_stable : loop_stable buffer_ok.
Proof.
  unfold loop_stable, buffer_ok. repeat apply conj.
  - intros t st H. destruct st. exact H.
  - intros d st [Hl Hi]. unfold storeSample. destruct st. state_simpl.
    split; [rewrite length_insert; exact Hl|].
    apply Nat.mod_upper_bound. discriminate.
  - intros now t d st H. unfold localFallback. cbv zeta. destruct st. state_simpl.
    split_ifs; exact H.
  - intros d st H. destruct st. exact H.
  - intros t st H. destruct st. exact H.
  - intros nowMs t st H. unfold classifyAndRespondToEvent. cbv zeta.
    generalize (extractFeatures (imuBuffer st) EVENT_WINDOW_SIZE). intros f.
    generalize (getClassConfidence f (classifyEvent f)). generalize (classifyEvent f).
    intros cls conf. destruct st. state_simpl. split_ifs; exact H.
  - intros t st H. rewrite updateLEDs_buffer.
    destruct (updateLEDs_detection t st) as (_ & _ & U). rewrite U. exact H.
Qed.

Lemma buffer_ok_callback_stable : callback_stable buffer_ok.
Proof.
  unfold callback_stable, buffer_ok. repeat apply conj.
  - intros v st H. unfold onWrite. destruct st. state_simpl. split_ifs; exact H.
  - intros t st H. destruct st. exact H.
  - intros st H. destruct st. exact H.
Qed.

(** X2. The sample buffer keeps its 150 entries and the write index stays
    inside it in every state reached from boot, so every store lands in
    the array: it overwrites the slot at the write index and no other. *)
Theorem buffer_write_in_bounds (es : list Event) (d : IMUData) :
  length (imuBuffer (fst (run init_state es))) = EVENT_WINDOW_SIZE /\
  (bufferIndex (fst (run init_state es)) < EVENT_WINDOW_SIZE)%nat /\
  imuBuffer (storeSample d (fst (run init_state es)))
    !! bufferIndex (fst (run init_state es)) = Some d /\
  (forall k, k <> bufferIndex (fst (run init_state es)) ->
             imuBuffer (storeSample d (fst (run init_state es))) !! k
             = imuBuffer (fst (run init_state es)) !! k).
Proof.
  destruct (run_stable_effects buffer_ok (fun _ => True) es init_state
              buffer_ok_loop_stable (trivial_emits _)) as [[Hl Hi] _].
  - intros e st _. apply callbacks_step, buffer_ok_callback_stable.
  - split; [reflexivity | unfold EVENT_WINDOW_SIZE; cbn; lia].
  - split; [exact Hl|]. split; [exact Hi|].
    unfold storeSample. destruct (fst (run init_state es)). state_simpl. split.
    + apply list_lookup_insert_eq. rewrite Hl. exact Hi.
    + intros k Hk. apply list_lookup_insert_ne. congruence.
Qed.

Lemma full_loop_stable : loop_stable (fun st => bufferFull st = true).
Proof.
  unfold loop_stable. repeat apply conj.
  - intros t st H. destruct st. exact H.
  - intros d st H. apply storeSample_full, H.
  - intros now t d st H. unfold localFallback. cbv zeta. destruct st. state_simpl.
    split_ifs; exact H.
  - intros d st H. destruct st. exact H.
  - intros t st H. destruct st. exact H.
  - intros nowMs t st H. unfold classifyAndRespondToEvent. cbv zeta.
    generalize (extractFeatures (imuBuffer st) EVENT_WINDOW_SIZE). intros f.
    generalize (getClassConfidence f (classifyEvent f)). generalize (classifyEvent f).
    intros cls conf. destruct st. state_simpl. split_ifs; exact H.
  - intros t st H. destruct (updateLEDs_detection t st) as (_ & U & _). rewrite U. exact H.
Qed.

(** X3. Once the window is full it stays full: no loop iteration, command
    or link event ever clears the buffer-full flag. *)
Theorem buffer_full_is_permanent (st : State) (es : list Event) :
  bufferFull st = true -> bufferFull (fst (run st es)) = true.
Proof.
  intros Hfull.
  destruct (run_stable_effects (fun st => bufferFull st = true) (fun _ => True) es st
              full_loop_stable (trivial_emits _)) as [H _]; [|exact Hfull|exact H].
  intros e s _. apply (callbacks_step (fun st => bufferFull st = true)).
  unfold callback_stable. repeat apply conj.
  - intros v s' H. unfold onWrite. destruct s'. state_simpl. split_ifs; exact H.
  - intros t s' H. destruct s'. exact H.
  - intros s' H. destruct s'. exact H.
Qed.

(** ** Link gating and frame sizes *)

Lemma down_loop_stable : loop_stable (fun st => deviceConnected st = false).
Proof.
  unfold loop_stable. repeat apply conj.
  - intros t st H. destruct st. exact H.
  - intros d st H. destruct st. exact H.
  - intros now t d st H.
    destruct (localFallback_frame now t d st) as (L & _). rewrite L. exact H.
  - intros d st H. destruct st. exact H.
  - intros t st H. destruct st. exact H.
  - intros nowMs t st H.
    destruct (classify_frame nowMs t st) as (L & _). rewrite L. exact H.
  - intros t st H. destruct (updateLEDs_detection t st) as (U & _).
    apply detection_state_fields in U. destruct U as (U & _). rewrite U. exact H.
Qed.

Lemma down_emits :
  loop_emits (fun st => deviceConnected st = false) (fun e => is_notify e = false).
Proof.
  unfold loop_emits. repeat apply conj.
  - intros d. reflexivity.
  - intros d st H. unfold sendIMUData. rewrite H. constructor.
  - intros now t d st H.
    unfold localFallback, reportLocalCrash, reportLocalBrake, sendEventNotification.
    cbv zeta. destruct st. state_simpl. subst deviceConnected0.
    split_ifs; state_simpl; constructor.
  - intros nowMs t st H. unfold classifyAndRespondToEvent, sendEventNotification.
    cbv zeta.
    generalize (extractFeatures (imuBuffer st) EVENT_WINDOW_SIZE). intros f.
    generalize (getClassConfidence f (classifyEvent f)). generalize (classifyEvent f).
    intros cls conf. destruct st. state_simpl. subst deviceConnected0.
    split_ifs; state_simpl; repeat constructor.
Qed.

(** X4. While the link is down nothing is sent: in a run that starts
    disconnected and sees no connect event, no telemetry frame and no event
    notification goes out, whatever is sampled, detected or classified, and
    the link flag stays down. *)
Theorem nothing_sent_while_disconnected (st : State) (es : list Event) :
  deviceConnected st = false ->
  (forall t, ~ In (Connect t) es) ->
  deviceConnected (fst (run st es)) = false /\
  Forall (fun e => is_notify e = false) (snd (run st es)).
Proof.
  intros Hdown Hnc.
  apply (run_stable_effects (fun st => deviceConnected st = false)
           (fun e => is_notify e = false) es st down_loop_stable down_emits);
    [|exact Hdown].
  intros e s Hin Hne Hs. destruct e as [i | v | t |]; cbn [step fst].
  - destruct (Hne i eq_refl).
  - unfold onWrite. destruct s. state_simpl. split_ifs; exact Hs.
  - destruct (Hnc t Hin).
  - reflexivity.
Qed.

Lemma le32_bytes (w : Z) : forallb is_byte (le32 w) = true.
Proof.
  unfold le32, is_byte. cbn [forallb].
  repeat match goal with
    | |- context [?x mod 256] =>
        let H := fresh in
        pose proof (Z.mod_pos_bound x 256 ltac:(lia)) as H;
        generalize dependent (x mod 256); intros
    end.
  repeat (apply andb_true_intro; split); try reflexivity;
    try (apply Z.leb_le; lia); try (apply Z.ltb_lt; lia).
Qed.

Lemma imu_payload_ok (d : IMUData) : frame_ok (ImuNotify (imu_payload d)) = true.
Proof.
  unfold frame_ok, imu_payload. apply andb_true_intro. split; [reflexivity|].
  rewrite !forallb_app, !le32_bytes. reflexivity.
Qed.

Lemma classifyEvent_range (f : list float) : 0 <= classifyEvent f < 5.
Proof.
  unfold classifyEvent, CLASS_CRASH, CLASS_BRAKE, CLASS_TURN, CLASS_BUMP, CLASS_NORMAL.
  split_ifs; lia.
Qed.

Lemma event_payload_ok (o : Origin) (cls : Z) (conf : float) :
  0 <= cls < 5 -> frame_ok (EventNotify o (event_payload cls conf)) = true.
Proof.
  intros Hc. unfold frame_ok, event_payload, u8.
  rewrite Z.mod_small by lia. cbn [length nth forallb Nat.eqb andb].
  rewrite le32_bytes. unfold is_byte.
  repeat (apply andb_true_intro; split); try reflexivity;
    try (apply Z.leb_le; lia); try (apply Z.ltb_lt; lia).
Qed.

Lemma frames_emits : loop_emits (fun _ => True) (fun e => frame_ok e = true).
Proof.
  unfold loop_emits. repeat apply conj.
  - intros d. reflexivity.
  - intros d st _. unfold sendIMUData. destruct (deviceConnected st);
      repeat constructor. apply imu_payload_ok.
  - intros now t d st _.
    unfold localFallback, reportLocalCrash, reportLocalBrake, sendEventNotification.
    cbv zeta. destruct st. state_simpl.
    split_ifs; state_simpl; repeat constructor;
      apply event_payload_ok; unfold CLASS_CRASH, CLASS_BRAKE; lia.
  - intros nowMs t st _. unfold classifyAndRespondToEvent, sendEventNotification.
    cbv zeta.
    generalize (extractFeatures (imuBuffer st) EVENT_WINDOW_SIZE). intros f.
    pose proof (classifyEvent_range f) as Hr.
    generalize (getClassConfidence f (classifyEvent f)).
    generalize dependent (classifyEvent f).
    intros cls Hr conf. destruct st. state_simpl.
    split_ifs; state_simpl; repeat constructor; apply event_payload_ok; exact Hr.
Qed.

Lemma true_loop_stable : loop_stable (fun _ => True).
Proof. unfold loop_stable. repeat apply conj; intros; exact I. Qed.

(** X5. Every frame the firmware ever sends has its size: a telemetry
    notification carries 28 bytes, an event notification 5 bytes, the first
    of which is one of the five class ordinals 0..4. This holds in every
    run from every state. *)
Theorem frames_have_their_size (st : State) (es : list Event) :
  Forall (fun e => frame_ok e = true) (snd (run st es)) /\
  (forall p, In (ImuNotify p) (snd (run st es)) -> length p = 28%nat) /\
  (forall o p, In (EventNotify o p) (snd (run st es)) ->
               length p = 5%nat /\ 0 <= nth 0 p 0 < 5).
Proof.
  destruct (run_stable_effects (fun _ => True) (fun e => frame_ok e = true) es st
              true_loop_stable frames_emits) as [_ H]; [intros; exact I | exact I |].
  split; [exact H|].
  pose proof (proj1 (List.Forall_forall (fun e => frame_ok e = true) (snd (run st es))) H)
    as H'. clear H. rename H' into H. split.
  - intros p Hin. specialize (H _ Hin). cbn [frame_ok] in H.
    apply andb_prop in H as [Hl _]. apply Nat.eqb_eq in Hl. exact Hl.
  - intros o p Hin. specialize (H _ Hin). cbn [frame_ok] in H.
    apply andb_prop in H as [H Hc]. apply andb_prop in H as [Hl Hb].
    apply Nat.eqb_eq in Hl. split; [exact Hl|].
    apply Z.ltb_lt in Hc. split; [|exact Hc].
    destruct p as [|b p]; [discriminate Hl|]. cbn [nth forallb] in *.
    apply andb_prop in Hb as [Hb _]. unfold is_byte in Hb.
    apply andb_prop in Hb as [Hb _]. apply Z.leb_le in Hb. exact Hb.
Qed.

(** ** Pattern timeouts *)

Lemma updateLEDs_pattern (now : Z) (st : State) :
  currentPattern (updateLEDs now st)
  = let p1 := if bool_decide (currentPattern st = LED_BRAKE)
                 && negb (brakeEndTime st =? 0) && (now >? brakeEndTime st)
              then savedPattern st else currentPattern st in
    if bool_decide (p1 = LED_CONNECTED_GREEN) && (now >? connectGreenUntil st)
    then LED_ARMED_RED else p1.
Proof.
  unfold updateLEDs. cbv zeta. destruct st. state_simpl.
  destruct (bool_decide (currentPattern0 = LED_BRAKE) && negb (brakeEndTime0 =? 0)
            && (now >? brakeEndTime0)); state_simpl.
  - destruct (bool_decide (savedPattern0 = LED_CONNECTED_GREEN) && (now >? connectGreenUntil0));
      state_simpl; [reflexivity|].
    destruct savedPattern0; split_ifs; reflexivity.
  - destruct (bool_decide (currentPattern0 = LED_CONNECTED_GREEN) && (now >? connectGreenUntil0));
      state_simpl; [reflexivity|].
    destruct currentPattern0; split_ifs; reflexivity.
Qed.

Lemma updateLEDs_deadlines (now : Z) (st : State) :
  connectGreenUntil (updateLEDs now st) = connectGreenUntil st /\
  savedPattern (updateLEDs now st) = savedPattern st /\
  brakeEndTime (updateLEDs now st)
  = if bool_decide (currentPattern st = LED_BRAKE)
       && negb (brakeEndTime st =? 0) && (now >? brakeEndTime st)
    then 0 else brakeEndTime st.
Proof.
  unfold updateLEDs. cbv zeta. destruct st. state_simpl.
  destruct (bool_decide (currentPattern0 = LED_BRAKE) && negb (brakeEndTime0 =? 0)
            && (now >? brakeEndTime0)); state_simpl;
    repeat case_match; state_simpl; repeat apply conj; reflexivity.
Qed.

(** X6. LED updates alone never end a sticky pattern: through any number
    of calls of [updateLEDs], at any clock readings, Off, Crash, the turn
    signals, Party, Armed and Idle stay as they are. The only transitions
    an update makes by itself are the two timeouts: the connection
    indicator becomes Armed once the clock passes its deadline and not
    before. *)
Theorem led_updates_keep_sticky_patterns (ts : list Z) (now : Z) (st : State) :
  (currentPattern st <> LED_BRAKE -> currentPattern st <> LED_CONNECTED_GREEN ->
   currentPattern (fold_left (fun s t => updateLEDs t s) ts st) = currentPattern st) /\
  (currentPattern st = LED_CONNECTED_GREEN ->
   currentPattern (updateLEDs now st)
   = if now >? connectGreenUntil st then LED_ARMED_RED else LED_CONNECTED_GREEN).
Proof.
  split.
  - revert st. induction ts as [|t ts IH]; intros st Hb Hg; cbn [fold_left]; [reflexivity|].
    assert (E : currentPattern (updateLEDs t st) = currentPattern st).
    { rewrite updateLEDs_pattern. cbv zeta.
      rewrite (bool_decide_eq_false_2 _ Hb). cbn [andb].
      rewrite (bool_decide_eq_false_2 _ Hg). reflexivity. }
    rewrite IH; rewrite E; auto.
  - intros Hg. rewrite updateLEDs_pattern. cbv zeta. rewrite Hg.
    rewrite (bool_decide_eq_false_2 (LED_CONNECTED_GREEN = LED_BRAKE)) by discriminate.
    cbn [andb]. rewrite bool_decide_eq_true_2 by reflexivity. reflexivity.
Qed.

(** X7. The Brake pattern reverts by itself, and only on its deadline: an
    update at a clock reading above a non-zero end-time puts the saved
    pattern back and clears the end-time; until then Brake stays. An
    end-time of 0 counts as "no deadline": such a Brake pattern survives
    every LED update, and [fireBrakePattern] produces it when its clock
    reading plus the duration wraps to 0. *)
Theorem brake_reverts_on_deadline (ts : list Z) (now : Z) (st : State) :
  currentPattern st = LED_BRAKE ->
  is_rest (savedPattern st) = true ->
  (brakeEndTime st <> 0 -> now > brakeEndTime st ->
   currentPattern (updateLEDs now st) = savedPattern st /\
   brakeEndTime (updateLEDs now st) = 0) /\
  (now <= brakeEndTime st -> currentPattern (updateLEDs now st) = LED_BRAKE) /\
  (brakeEndTime st = 0 ->
   currentPattern (fold_left (fun s t => updateLEDs t s) ts st) = LED_BRAKE) /\
  (forall ms t, u32 (t + ms) = 0 -> brakeEndTime (fireBrakePattern ms t st) = 0).
Proof.
  intros Hb Hs. repeat apply conj.
  - intros Hnz Hgt.
    destruct (updateLEDs_deadlines now st) as (_ & _ & D).
    rewrite updateLEDs_pattern, D. cbv zeta. rewrite Hb.
    rewrite (bool_decide_eq_true_2 (LED_BRAKE = LED_BRAKE)) by reflexivity.
    assert (E1 : (brakeEndTime st =? 0) = false) by (apply Z.eqb_neq; exact Hnz).
    assert (E2 : (now >? brakeEndTime st) = true) by (apply Z.gtb_lt; lia).
    rewrite E1, E2. cbn [negb andb].
    split; [|reflexivity].
    rewrite bool_decide_eq_false_2; [reflexivity|].
    intros E. rewrite E in Hs. discriminate Hs.
  - intros Hle. rewrite updateLEDs_pattern. cbv zeta. rewrite Hb.
    assert (E2 : (now >? brakeEndTime st) = false).
    { destruct (Z.gtb_spec now (brakeEndTime st)); [lia | reflexivity]. }
    rewrite E2, andb_false_r.
    rewrite (bool_decide_eq_false_2 (LED_BRAKE = LED_CONNECTED_GREEN)) by discriminate.
    reflexivity.
  - clear now. intros Hz. revert st Hb Hs Hz.
    induction ts as [|t ts IH]; intros st Hb Hs Hz; cbn [fold_left]; [exact Hb|].
    destruct (updateLEDs_deadlines t st) as (_ & D1 & D2).
    assert (E : currentPattern (updateLEDs t st) = LED_BRAKE).
    { rewrite updateLEDs_pattern. cbv zeta. rewrite Hb, Hz.
      cbn [Z.eqb negb andb]. rewrite andb_false_r.
      rewrite (bool_decide_eq_false_2 (LED_BRAKE = LED_CONNECTED_GREEN)) by discriminate.
      reflexivity. }
    apply IH; [exact E | rewrite D1; exact Hs |].
    rewrite D2, Hz. cbn [Z.eqb negb andb]. rewrite andb_false_r. reflexivity.
  - intros ms t Hw. unfold fireBrakePattern. destruct st. state_simpl. exact Hw.
Qed.

(** ** Cooldowns of the other channels *)

Lemma count_app (p : Effect -> bool) (a b : list Effect) :
  count p (a ++ b) = (count p a + count p b)%nat.
Proof. unfold count. rewrite filter_app, length_app. reflexivity. Qed.

Lemma localFallback_model_stamps (now t : Z) (d : IMUData) (st : State) :
  lastMLAttemptMs (fst (localFallback now t d st)) = lastMLAttemptMs st /\
  lastMLBrakeMs (fst (localFallback now t d st)) = lastMLBrakeMs st /\
  lastMLCrashMs (fst (localFallback now t d st)) = lastMLCrashMs st /\
  count is_model (snd (localFallback now t d st)) = 0%nat /\
  (forall cls, count (is_event ModelPath cls) (snd (localFallback now t d st)) = 0%nat).
Proof.
  unfold localFallback, reportLocalCrash, reportLocalBrake, sendEventNotification.
  cbv zeta. destruct st. state_simpl.
  split_ifs; state_simpl; repeat apply conj; reflexivity.
Qed.

Lemma localFallback_brake_cooldown (now t : Z) (d : IMUData) (st : State) :
  elapsed now (lastLocalBrakeMs st) < LOCAL_BRAKE_COOLDOWN_MS ->
  lastLocalBrakeMs (fst (localFallback now t d st)) = lastLocalBrakeMs st /\
  count (is_event LocalPath CLASS_BRAKE) (snd (localFallback now t d st)) = 0%nat.
Proof.
  intros Hcd. apply Z.leb_gt in Hcd.
  unfold localFallback, reportLocalCrash, sendEventNotification. cbv zeta.
  destruct st. state_simpl. rewrite Hcd. cbn [andb].
  split_ifs; state_simpl; split; reflexivity.
Qed.

(** What a sampling loop iteration is made of. *)
Lemma loop_sampling (i : LoopInput) (st : State) :
  (SAMPLE_INTERVAL_MS <=? elapsed (now i) (lastSampleTime st)) = true ->
  let st1 := storeSample (sample i) (set_lastSampleTime (now i) st) in
  let l := localFallback (now i) (t_local i) (sample i) st1 in
  let m := modelPath i (fst l) in
  loop i st
  = (updateLEDs (t_led i) (fst m),
     (SensorRead (sample i) :: sendIMUData (sample i) st1) ++ snd l ++ snd m).
Proof.
  intros Hs. cbv zeta. unfold loop. rewrite Hs.
  destruct (localFallback _ _ _ _) as [st2 out1]. cbn [fst snd].
  destruct (modelPath i st2) as [st3 out2]. reflexivity.
Qed.

Lemma loop_idle (i : LoopInput) (st : State) :
  (SAMPLE_INTERVAL_MS <=? elapsed (now i) (lastSampleTime st)) = false ->
  loop i st = (updateLEDs (t_led i) st, []).
Proof. intros Hs. unfold loop. rewrite Hs. reflexivity. Qed.

Lemma head_counts (p : Effect -> bool) (d : IMUData) (st : State) :
  p (SensorRead d) = false -> (forall q, p (ImuNotify q) = false) ->
  count p (SensorRead d :: sendIMUData d st) = 0%nat.
Proof.
  intros H1 H2. unfold count.
  destruct (sendIMUData_cases d st) as [-> | ->];
    rewrite !filter_cons_False, ?filter_nil by (rewrite ?H1, ?H2; discriminate);
    reflexivity.
Qed.

(** Inside the attempt cooldown the model path does not run. *)
Lemma loop_attempt_cooldown (i : LoopInput) (st : State) :
  elapsed (now i) (lastMLAttemptMs st) < ML_ATTEMPT_COOLDOWN_MS ->
  lastMLAttemptMs (fst (loop i st)) = lastMLAttemptMs st /\
  count is_model (snd (loop i st)) = 0%nat.
Proof.
  intros Hcd. apply Z.leb_gt in Hcd.
  destruct (SAMPLE_INTERVAL_MS <=? elapsed (now i) (lastSampleTime st)) eqn:Hs.
  - rewrite (loop_sampling i st Hs). cbv zeta. cbn [fst snd].
    destruct (sampling_prefix_frame (now i) (sample i) st) as (P1 & _).
    cbv zeta in P1. apply detection_state_fields in P1.
    destruct P1 as (_ & _ & _ & _ & _ & P).
    set (st1 := storeSample (sample i) (set_lastSampleTime (now i) st)) in *.
    destruct (localFallback_model_stamps (now i) (t_local i) (sample i) st1)
      as (L1 & _ & _ & L2 & _).
    set (l := localFallback (now i) (t_local i) (sample i) st1) in *.
    assert (M : modelPath i (fst l) = (fst l, [])).
    { unfold modelPath. rewrite L1, P, Hcd, andb_false_r. reflexivity. }
    rewrite M. cbn [fst snd].
    destruct (updateLEDs_detection (t_led i) (fst l)) as (U & _).
    apply detection_state_fields in U. destruct U as (_ & _ & _ & _ & _ & U).
    split; [rewrite U, L1; exact P|].
    rewrite !count_app, L2, head_counts by reflexivity. reflexivity.
  - rewrite (loop_idle i st Hs). cbn [fst snd].
    destruct (updateLEDs_detection (t_led i) st) as (U & _).
    apply detection_state_fields in U. destruct U as (_ & _ & _ & _ & _ & U).
    split; [exact U | reflexivity].
Qed.

(** A stamp that loop iterations inside its cooldown and the callbacks
    leave alone stays put over a whole run, and the run is free of the
    channel's events. *)
Lemma run_quiet (chan : State -> Z) (cd : Z) (p : Effect -> bool)
    (es : list Event) (st : State) (t0 : Z) :
  (forall i st, elapsed (now i) (chan st) < cd ->
                chan (fst (loop i st)) = chan st /\ count p (snd (loop i st)) = 0%nat) ->
  (forall e st, (forall i, e <> Loop i) -> chan (fst (step st e)) = chan st) ->
  chan st = t0 -> within cd t0 es ->
  chan (fst (run st es)) = t0 /\ count p (snd (run st es)) = 0%nat.
Proof.
  intros Hloop Hcb. revert st. induction es as [|e es IH]; intros st Hst Hin; cbn [run].
  - split; [exact Hst | reflexivity].
  - assert (Hstep : chan (fst (step st e)) = t0 /\ count p (snd (step st e)) = 0%nat).
    { destruct e as [i | v | t |].
      - cbn [step]. destruct (Hloop i st) as [H1 H2].
        + rewrite Hst. apply Hin. left. reflexivity.
        + split; [rewrite H1; exact Hst | exact H2].
      - split; [rewrite Hcb by discriminate; exact Hst | reflexivity].
      - split; [rewrite Hcb by discriminate; exact Hst | reflexivity].
      - split; [rewrite Hcb by discriminate; exact Hst | reflexivity]. }
    destruct Hstep as [S1 S2].
    destruct (step st e) as [st1 out1]. cbn [fst snd] in *.
    destruct (IH st1 S1) as [R1 R2].
    { intros i Hi. apply Hin. right. exact Hi. }
    destruct (run st1 es) as [st2 out2]. cbn [fst snd] in *.
    split; [exact R1|]. rewrite count_app, S2, R2. reflexivity.
Qed.

Lemma callbacks_keep_detection (e : Event) (st : State) :
  (forall i, e <> Loop i) ->
  lastLocalBrakeMs (fst (step st e)) = lastLocalBrakeMs st /\
  lastMLBrakeMs (fst (step st e)) = lastMLBrakeMs st /\
  lastMLCrashMs (fst (step st e)) = lastMLCrashMs st /\
  lastMLAttemptMs (fst (step st e)) = lastMLAttemptMs st.
Proof.
  intros Hne. destruct e as [i | v | t |]; cbn [step fst].
  - destruct (Hne i eq_refl).
  - unfold onWrite. destruct st. state_simpl. split_ifs; repeat apply conj; reflexivity.
  - destruct st. repeat apply conj; reflexivity.
  - destruct st. repeat apply conj; reflexivity.
Qed.

(** X8. The model path is rate limited: after an attempt stamped at [t0],
    no run whose loop iterations all fall inside the attempt cooldown of
    800 ms contains a classification or a model-path notification,
    whatever the samples and whatever commands or link events arrive. *)
Theorem model_path_rate_limit (st : State) (es : list Event) :
  within ML_ATTEMPT_COOLDOWN_MS (lastMLAttemptMs st) es ->
  lastMLAttemptMs (fst (run st es)) = lastMLAttemptMs st /\
  Forall (fun e => is_model e = false) (snd (run st es)).
Proof.
  intros Hin.
  destruct (run_quiet lastMLAttemptMs ML_ATTEMPT_COOLDOWN_MS is_model es st
              (lastMLAttemptMs st)) as [H1 H2]; auto.
  - apply loop_attempt_cooldown.
  - intros e s Hne. apply (callbacks_keep_detection e s Hne).
  - split; [exact H1|]. unfold count in H2.
    apply length_zero_iff_nil in H2.
    apply List.Forall_forall. intros e He.
    destruct (is_model e) eqn:E; [|reflexivity].
    assert (Hf : e ∈ filter (fun e => is_model e = true) (snd (run st es))).
    { apply list_elem_of_filter. split; [exact E | apply list_elem_of_In; exact He]. }
    rewrite H2 in Hf. inversion Hf.
Qed.

Lemma telemetry_count (p : Effect -> bool) (tr : list Effect) :
  (forall d, p (SensorRead d) = false) -> (forall q, p (ImuNotify q) = false) ->
  Forall (fun e => is_telemetry e = true) tr -> count p tr = 0%nat.
Proof.
  intros H1 H2. induction 1 as [|e tr He Htr IH]; [reflexivity|].
  unfold count in *.
  destruct e; try discriminate He;
    rewrite filter_cons_False by (rewrite ?H1, ?H2; discriminate); exact IH.
Qed.

Lemma classify_cooldowns (nowMs t : Z) (st : State) :
  (elapsed nowMs (lastMLBrakeMs st) < ML_BRAKE_COOLDOWN_MS ->
   lastMLBrakeMs (fst (classifyAndRespondToEvent nowMs t st)) = lastMLBrakeMs st /\
   count (is_event ModelPath CLASS_BRAKE) (snd (classifyAndRespondToEvent nowMs t st))
   = 0%nat) /\
  (elapsed nowMs (lastMLCrashMs st) < ML_CRASH_COOLDOWN_MS \/ currentPattern st = LED_CRASH ->
   lastMLCrashMs (fst (classifyAndRespondToEvent nowMs t st)) = lastMLCrashMs st /\
   count (is_event ModelPath CLASS_CRASH) (snd (classifyAndRespondToEvent nowMs t st))
   = 0%nat).
Proof.
  unfold classifyAndRespondToEvent, sendEventNotification. cbv zeta.
  generalize (extractFeatures (imuBuffer st) EVENT_WINDOW_SIZE). intros f.
  pose proof (classifyEvent_range f) as Hr.
  generalize (getClassConfidence f (classifyEvent f)).
  generalize dependent (classifyEvent f). intros cls Hr conf.
  assert (Hu : u8 cls = cls) by (unfold u8; apply Z.mod_small; lia).
  unfold count, is_event, event_payload. rewrite Hu.
  destruct st. state_simpl. split.
  - intros Hcd. apply Z.leb_gt in Hcd. rewrite Hcd.
    destruct (Z.eqb_spec cls CLASS_BRAKE) as [-> | Hne].
    + split_ifs; state_simpl; split; reflexivity.
    + assert (Hc : (cls =? CLASS_BRAKE) = false) by (apply Z.eqb_neq; exact Hne).
      split_ifs; state_simpl; split; try reflexivity;
        rewrite filter_cons_False by discriminate;
        rewrite filter_cons_False, filter_nil
          by (cbn [bool_decide andb]; rewrite ?Hc, ?andb_false_r; discriminate);
        reflexivity.
  - intros Hcd.
    assert (Hg : (ML_CRASH_COOLDOWN_MS <=? elapsed nowMs lastMLCrashMs0)
                 && negb (bool_decide (currentPattern0 = LED_CRASH)) = false).
    { destruct Hcd as [Hcd | ->].
      - apply Z.leb_gt in Hcd. rewrite Hcd. reflexivity.
      - rewrite bool_decide_eq_true_2 by reflexivity. apply andb_false_r. }
    rewrite Hg.
    destruct (Z.eqb_spec cls CLASS_BRAKE) as [-> | Hne].
    + split_ifs; state_simpl; split; reflexivity.
    + destruct (Z.eqb_spec cls CLASS_CRASH) as [-> | Hnc].
      * split; reflexivity.
      * assert (Hc : (cls =? CLASS_CRASH) = false) by (apply Z.eqb_neq; exact Hnc).
        split_ifs; state_simpl; split; try reflexivity;
          rewrite filter_cons_False by discriminate;
          rewrite filter_cons_False, filter_nil
            by (cbn [bool_decide andb]; rewrite ?Hc, ?andb_false_r; discriminate);
          reflexivity.
Qed.

Lemma modelPath_quiet (chan : State -> Z) (cd : Z) (p : Effect -> bool)
    (i : LoopInput) (st : State) :
  (forall s s', detection_state s' = detection_state s -> chan s' = chan s) ->
  (forall t s, chan (set_lastMLAttemptMs t s) = chan s) ->
  (forall d, p (SensorRead d) = false) -> (forall q, p (ImuNotify q) = false) ->
  (forall nowMs t s, elapsed nowMs (chan s) < cd ->
                     chan (fst (classifyAndRespondToEvent nowMs t s)) = chan s /\
                     count p (snd (classifyAndRespondToEvent nowMs t s)) = 0%nat) ->
  elapsed (now i) (chan st) < cd ->
  chan (fst (modelPath i st)) = chan st /\ count p (snd (modelPath i st)) = 0%nat.
Proof.
  intros Hdet Hatt Hr Hn Hcls Hcd. unfold modelPath.
  destruct (bufferFull st && _); [|split; reflexivity].
  destruct (detectEventTrigger_frame (sample i) st) as (D1 & _).
  cbv zeta in D1. apply Hdet in D1.
  destruct (detectEventTrigger (sample i) st) as [trig st1]. cbn [snd] in D1.
  destruct trig; [|cbn [fst snd]; split; [exact D1 | reflexivity]].
  destruct (capturePostSamples_frame 25 (post i) (set_lastMLAttemptMs (now i) st1))
    as (C1 & _ & _ & C4).
  cbv zeta in C1, C4. apply Hdet in C1. rewrite Hatt, D1 in C1.
  destruct (capturePostSamples 25 (post i) (set_lastMLAttemptMs (now i) st1)) as [st3 out1].
  cbn [fst snd] in *.
  destruct (Hcls (now i) (t_model i) st3) as [G1 G2]; [rewrite C1; exact Hcd|].
  destruct (classifyAndRespondToEvent (now i) (t_model i) st3) as [st4 out2].
  cbn [fst snd] in *.
  split; [rewrite G1; exact C1|].
  rewrite count_app, G2, (telemetry_count p out1 Hr Hn C4). reflexivity.
Qed.

Lemma loop_model_quiet (chan : State -> Z) (cd : Z) (cls : Z)
    (i : LoopInput) (st : State) :
  (forall s s', detection_state s' = detection_state s -> chan s' = chan s) ->
  (forall t s, chan (set_lastMLAttemptMs t s) = chan s) ->
  (forall now t d s, chan (fst (localFallback now t d s)) = chan s) ->
  (forall nowMs t s, elapsed nowMs (chan s) < cd ->
                     chan (fst (classifyAndRespondToEvent nowMs t s)) = chan s /\
                     count (is_event ModelPath cls)
                       (snd (classifyAndRespondToEvent nowMs t s)) = 0%nat) ->
  elapsed (now i) (chan st) < cd ->
  chan (fst (loop i st)) = chan st /\
  count (is_event ModelPath cls) (snd (loop i st)) = 0%nat.
Proof.
  intros Hdet Hatt Hloc Hcls Hcd.
  destruct (SAMPLE_INTERVAL_MS <=? elapsed (now i) (lastSampleTime st)) eqn:Hs.
  - rewrite (loop_sampling i st Hs). cbv zeta. cbn [fst snd].
    destruct (sampling_prefix_frame (now i) (sample i) st) as (P1 & _).
    cbv zeta in P1. apply Hdet in P1.
    set (st1 := storeSample (sample i) (set_lastSampleTime (now i) st)) in *.
    destruct (localFallback_model_stamps (now i) (t_local i) (sample i) st1)
      as (_ & _ & _ & _ & L2).
    pose proof (Hloc (now i) (t_local i) (sample i) st1) as L1.
    set (l := localFallback (now i) (t_local i) (sample i) st1) in *.
    destruct (modelPath_quiet chan cd (is_event ModelPath cls) i (fst l))
      as [M1 M2]; auto.
    { rewrite L1, P1. exact Hcd. }
    destruct (updateLEDs_detection (t_led i) (fst (modelPath i (fst l)))) as (U & _).
    apply Hdet in U.
    split; [rewrite U, M1, L1; exact P1|].
    rewrite !count_app, L2, M2, head_counts by reflexivity. reflexivity.
  - rewrite (loop_idle i st Hs). cbn [fst snd].
    destruct (updateLEDs_detection (t_led i) st) as (U & _). apply Hdet in U.
    split; [exact U | reflexivity].
Qed.

(** X9. The model path's notification channels are silent inside their
    cooldowns: after a model-path Brake stamped at [lastMLBrakeMs], no run
    whose loop iterations stay within 1500 ms of it sends a model-path
    Brake notification, and after a model-path Crash stamped at
    [lastMLCrashMs], none within 5000 ms sends a model-path Crash
    notification. The stamps stay where they are. *)
Theorem model_notifications_respect_cooldowns (st : State) (es : list Event) :
  (within ML_BRAKE_COOLDOWN_MS (lastMLBrakeMs st) es ->
   lastMLBrakeMs (fst (run st es)) = lastMLBrakeMs st /\
   count_events ModelPath CLASS_BRAKE (snd (run st es)) = 0%nat) /\
  (within ML_CRASH_COOLDOWN_MS (lastMLCrashMs st) es ->
   lastMLCrashMs (fst (run st es)) = lastMLCrashMs st /\
   count_events ModelPath CLASS_CRASH (snd (run st es)) = 0%nat).
Proof.
  split; intros Hin.
  - apply (run_quiet lastMLBrakeMs ML_BRAKE_COOLDOWN_MS (is_event ModelPath CLASS_BRAKE)
             es st (lastMLBrakeMs st)); auto.
    + intros i s. apply loop_model_quiet.
      * intros s1 s2 H. apply detection_state_fields in H. apply H.
      * intros t s1. destruct s1. reflexivity.
      * intros now t d s1. apply (localFallback_model_stamps now t d s1).
      * intros nowMs t s1. apply (classify_cooldowns nowMs t s1).
    + intros e s Hne. apply (callbacks_keep_detection e s Hne).
  - apply (run_quiet lastMLCrashMs ML_CRASH_COOLDOWN_MS (is_event ModelPath CLASS_CRASH)
             es st (lastMLCrashMs st)); auto.
    + intros i s. apply loop_model_quiet.
      * intros s1 s2 H. apply detection_state_fields in H. apply H.
      * intros t s1. destruct s1. reflexivity.
      * intros now t d s1. apply (localFallback_model_stamps now t d s1).
      * intros nowMs t s1 Hcd. apply (classify_cooldowns nowMs t s1). left. exact Hcd.
    + intros e s Hne. apply (callbacks_keep_detection e s Hne).
Qed.

Lemma loop_local_brake_cooldown (i : LoopInput) (st : State) :
  elapsed (now i) (lastLocalBrakeMs st) < LOCAL_BRAKE_COOLDOWN_MS ->
  lastLocalBrakeMs (fst (loop i st)) = lastLocalBrakeMs st /\
  count (is_event LocalPath CLASS_BRAKE) (snd (loop i st)) = 0%nat.
Proof.
  intros Hcd.
  destruct (SAMPLE_INTERVAL_MS <=? elapsed (now i) (lastSampleTime st)) eqn:Hs.
  - rewrite (loop_sampling i st Hs). cbv zeta. cbn [fst snd].
    destruct (sampling_prefix_frame (now i) (sample i) st) as (P1 & _).
    cbv zeta in P1. apply detection_state_fields in P1. destruct P1 as (_ & P1 & _).
    set (st1 := storeSample (sample i) (set_lastSampleTime (now i) st)) in *.
    destruct (localFallback_brake_cooldown (now i) (t_local i) (sample i) st1)
      as [L1 L2]; [rewrite P1; exact Hcd|].
    set (l := localFallback (now i) (t_local i) (sample i) st1) in *.
    destruct (modelPath_frame i (fst l)) as (_ & _ & _ & M1 & _ & M2 & _).
    cbv zeta in M1, M2.
    destruct (updateLEDs_detection (t_led i) (fst (modelPath i (fst l)))) as (U & _).
    apply detection_state_fields in U. destruct U as (_ & U & _).
    split; [rewrite U, M1, L1; exact P1|].
    rewrite !count_app, L2, head_counts by reflexivity.
    exact (M2 CLASS_BRAKE).
  - rewrite (loop_idle i st Hs). cbn [fst snd].
    destruct (updateLEDs_detection (t_led i) st) as (U & _).
    apply detection_state_fields in U. destruct U as (_ & U & _).
    split; [exact U | reflexivity].
Qed.

(** X10. The local brake channel is silent inside its cooldown: after a
    local Brake stamped at [lastLocalBrakeMs], no run whose loop
    iterations stay within 400 ms of it stamps the channel again or sends a
    local Brake notification, however strong the jerk on those samples. *)
Theorem local_brake_respects_cooldown (st : State) (es : list Event) :
  within LOCAL_BRAKE_COOLDOWN_MS (lastLocalBrakeMs st) es ->
  lastLocalBrakeMs (fst (run st es)) = lastLocalBrakeMs st /\
  count_events LocalPath CLASS_BRAKE (snd (run st es)) = 0%nat.
Proof.
  intros Hin.
  apply (run_quiet lastLocalBrakeMs LOCAL_BRAKE_COOLDOWN_MS (is_event LocalPath CLASS_BRAKE)
           es st (lastLocalBrakeMs st)); auto.
  - apply loop_local_brake_cooldown.
  - intros e s Hne. apply (callbacks_keep_detection e s Hne).
Qed.

(** ** Feature extraction: scans and layout *)

Import Series.

Lemma ltb_irrefl (x : float) : F32.ltb x x = false.
Proof.
  unfold F32.ltb, SFltb. destruct x as [[]|[]| |[] m e]; cbn [SFcompare]; try reflexivity;
    rewrite Z.compare_refl; change (Pos.compare_cont Eq m m) with (Pos.compare m m);
    rewrite Pos.compare_refl; reflexivity.
Qed.

Lemma fold_seq_ind {A : Type} (P : nat -> A -> Prop) (body : A -> nat -> A) (n : nat) :
  forall (lo : nat) (acc : A),
  P lo acc ->
  (forall i a, (lo <= i < lo + n)%nat -> P i a -> P (S i) (body a i)) ->
  P (lo + n)%nat (fold_left body (seq lo n) acc).
Proof.
  induction n as [|n IH]; intros lo acc H0 Hb; cbn [seq fold_left].
  - rewrite Nat.add_0_r. exact H0.
  - replace (lo + S n)%nat with (S lo + n)%nat by lia. apply IH.
    + apply Hb; [lia | exact H0].
    + intros i a Hi. apply Hb. lia.
Qed.

Lemma for_loop_ind_idx {A : Type} (P : nat -> A -> Prop) (lo hi : nat)
    (body : A -> nat -> A) (acc : A) :
  (lo <= hi)%nat -> P lo acc ->
  (forall i a, (lo <= i < hi)%nat -> P i a -> P (S i) (body a i)) ->
  P hi (for_loop lo hi body acc).
Proof.
  intros Hle H0 Hstep. unfold for_loop.
  replace hi with (lo + (hi - lo))%nat at 1 by lia.
  apply fold_seq_ind; [exact H0|].
  intros i a Hi. apply Hstep. lia.
Qed.

Lemma scan_max_spec (a : list float) (n : nat) :
  (1 <= n)%nat ->
  (exists k, (k < n)%nat /\ scan_max a n = a.[k]) /\
  (forall j, (j < n)%nat -> F32.gtb a.[j] (scan_max a n) = false).
Proof.
  intros Hn. unfold scan_max.
  apply (for_loop_ind_idx
           (fun i m => (exists k, (k < i)%nat /\ m = a.[k]) /\
                       (forall j, (j < i)%nat -> F32.gtb a.[j] m = false))).
  - exact Hn.
  - split; [exists 0%nat; split; [lia | reflexivity]|].
    intros j Hj. replace j with 0%nat by lia. apply ltb_irrefl.
  - intros i m Hi [(k & Hk & Hm) Hub].
    destruct (F32.gtb a.[i] m) eqn:Hgt.
    + split; [exists i; split; [lia | reflexivity]|].
      intros j Hj. destruct (Nat.eq_dec j i) as [-> | Hne]; [apply ltb_irrefl|].
      unfold F32.gtb in *. destruct (SFltb a.[i] a.[j]) eqn:Hji; [|reflexivity].
      rewrite <- (Hub j ltac:(lia)). symmetry.
      exact (ltb_trans m a.[i] a.[j] Hgt Hji).
    + split; [exists k; split; [lia | exact Hm]|].
      intros j Hj. destruct (Nat.eq_dec j i) as [-> | Hne]; [exact Hgt|].
      apply Hub. lia.
Qed.

Lemma scan_min_spec (a : list float) (n : nat) :
  (1 <= n)%nat ->
  (exists k, (k < n)%nat /\ scan_min a n = a.[k]) /\
  (forall j, (j < n)%nat -> F32.ltb a.[j] (scan_min a n) = false).
Proof.
  intros Hn. unfold scan_min.
  apply (for_loop_ind_idx
           (fun i m => (exists k, (k < i)%nat /\ m = a.[k]) /\
                       (forall j, (j < i)%nat -> F32.ltb a.[j] m = false))).
  - exact Hn.
  - split; [exists 0%nat; split; [lia | reflexivity]|].
    intros j Hj. replace j with 0%nat by lia. apply ltb_irrefl.
  - intros i m Hi [(k & Hk & Hm) Hlb].
    destruct (F32.ltb a.[i] m) eqn:Hlt.
    + split; [exists i; split; [lia | reflexivity]|].
      intros j Hj. destruct (Nat.eq_dec j i) as [-> | Hne]; [apply ltb_irrefl|].
      destruct (F32.ltb a.[j] a.[i]) eqn:Hji; [|reflexivity].
      rewrite <- (Hlb j ltac:(lia)). symmetry.
      exact (ltb_trans a.[j] a.[i] m Hji Hlt).
    + split; [exists k; split; [lia | exact Hm]|].
      intros j Hj. destruct (Nat.eq_dec j i) as [-> | Hne]; [exact Hlt|].
      apply Hlb. lia.
Qed.

(** X11. The max and min scans of the feature extractor return an element
    of the series they scan, and that element bounds the series: no entry
    compares greater than the scanned maximum, none smaller than the
    scanned minimum (NaN entries compare neither way and are passed
    over). *)
Theorem scans_bound_the_series (a : list float) (n : nat) :
  (1 <= n)%nat ->
  (exists k, (k < n)%nat /\ scan_max a n = a.[k]) /\
  (forall j, (j < n)%nat -> F32.gtb a.[j] (scan_max a n) = false) /\
  (exists k, (k < n)%nat /\ scan_min a n = a.[k]) /\
  (forall j, (j < n)%nat -> F32.ltb a.[j] (scan_min a n) = false).
Proof.
  intros Hn. destruct (scan_max_spec a n Hn) as [H1 H2].
  destruct (scan_min_spec a n Hn) as [H3 H4]. repeat apply conj; assumption.
Qed.


(** ** Classifier: which rules can overlap, confidence range *)

Lemma gtb_ltb_exclusive (x lo hi : float) :
  F32.ltb hi lo = false -> F32.gtb x hi = true -> F32.ltb x lo = false.
Proof.
  intros Hc Hhi. destruct (F32.ltb x lo) eqn:Hlo; [|reflexivity].
  rewrite (ltb_gtb_exclusive x lo hi Hc Hlo) in Hhi. discriminate.
Qed.

Lemma crash_accel (f : list float) :
  crashPredicate f = true -> F32.gtb f.[26] (F32.ratio 32 10) = true.
Proof.
  unfold crashPredicate. cbv zeta. intros Hc.
  apply orb_true_iff in Hc. destruct Hc as [Hc | Hc].
  - apply andb_true_iff in Hc. destruct Hc as [Hc _].
    apply andb_true_iff in Hc. exact (proj1 Hc).
  - apply andb_true_iff in Hc. destruct Hc as [Hc _].
    apply andb_true_iff in Hc. destruct Hc as [Hc _].
    unfold F32.gtb in *.
    exact (ltb_trans (F32.ratio 32 10) (F32.ratio 36 10) f.[26] eq_refl Hc).
Qed.

Lemma crash_excludes_turn (f : list float) :
  crashPredicate f = true -> turnPredicate f = false.
Proof.
  intros Hc. apply crash_accel in Hc. unfold turnPredicate. cbv zeta.
  rewrite (gtb_ltb_exclusive f.[26] (F32.ratio 22 10) (F32.ratio 32 10) eq_refl Hc).
  apply andb_false_r.
Qed.

Lemma crash_excludes_bump (f : list float) :
  crashPredicate f = true -> bumpPredicate f = false.
Proof.
  intros Hc. apply crash_accel in Hc. unfold bumpPredicate. cbv zeta.
  rewrite (gtb_ltb_exclusive f.[26] (F32.ratio 32 10) (F32.ratio 32 10) eq_refl Hc).
  rewrite andb_false_r. reflexivity.
Qed.

Lemma brake_excludes_turn (f : list float) :
  brakePredicate f = true -> turnPredicate f = false.
Proof.
  unfold brakePredicate, turnPredicate. cbv zeta. intros Hb.
  apply andb_true_iff in Hb. destruct Hb as [Hb _].
  apply andb_true_iff in Hb. destruct Hb as [Hb _].
  apply andb_true_iff in Hb. destruct Hb as [_ Hg].
  rewrite (ltb_gtb_exclusive f.[51] (F32.of_Z 140) (F32.of_Z 200) eq_refl Hg).
  reflexivity.
Qed.

Lemma turn_excludes_bump (f : list float) :
  turnPredicate f = true -> bumpPredicate f = false.
Proof.
  unfold turnPredicate, bumpPredicate. cbv zeta. intros Ht.
  apply andb_true_iff in Ht. destruct Ht as [_ Ha].
  rewrite (ltb_gtb_exclusive f.[26] (F32.ratio 22 10) (F32.ratio 22 10) eq_refl Ha).
  reflexivity.
Qed.

(** X13. Of the four rules of [classifyEvent] only Brake and Bump can hold
    for the same feature vector: every other pair is exclusive, so the
    order of the [if]s decides nothing but Brake before Bump, and there
    it does decide (a vector satisfying both exists and is classified
    Brake). *)
Theorem rules_overlap_only_brake_bump :
  (forall f,
     crashPredicate f && (brakePredicate f || turnPredicate f || bumpPredicate f) = false /\
     brakePredicate f && turnPredicate f = false /\
     turnPredicate f && bumpPredicate f = false) /\
  (exists f, brakePredicate f = true /\ bumpPredicate f = true /\
             classifyEvent f = CLASS_BRAKE).
Proof.
  split.
  - intros f. repeat apply conj.
    + destruct (crashPredicate f) eqn:Hc; [|reflexivity].
      rewrite (crash_excludes_brake f Hc), (crash_excludes_turn f Hc),
        (crash_excludes_bump f Hc). reflexivity.
    + destruct (brakePredicate f) eqn:Hb; [|reflexivity].
      rewrite (brake_excludes_turn f Hb). reflexivity.
    + destruct (turnPredicate f) eqn:Ht; [|reflexivity].
      rewrite (turn_excludes_bump f Ht). reflexivity.
  - exists brake_bump_vector. repeat apply conj; vm_compute; reflexivity.
Qed.

Ltac class_settle :=
  repeat match goal with
         | H : _ /\ _ |- _ => destruct H
         end;
  try discriminate;
  try (match goal with
       | H : @eq Z _ _ |- _ => vm_compute in H; discriminate H
       end);
  repeat apply conj; reflexivity.

(** X14. Each class is returned exactly when its own rule holds, except
    Bump, which also needs the Brake rule to fail; Normal is returned
    exactly when no rule holds. *)
Theorem class_iff_rule (f : list float) :
  (classifyEvent f = CLASS_CRASH <-> crashPredicate f = true) /\
  (classifyEvent f = CLASS_BRAKE <-> brakePredicate f = true) /\
  (classifyEvent f = CLASS_TURN <-> turnPredicate f = true) /\
  (classifyEvent f = CLASS_BUMP <->
     bumpPredicate f = true /\ brakePredicate f = false) /\
  (classifyEvent f = CLASS_NORMAL <->
     crashPredicate f = false /\ brakePredicate f = false /\
     turnPredicate f = false /\ bumpPredicate f = false).
Proof.
  unfold classifyEvent.
  destruct (crashPredicate f) eqn:Hc.
  - rewrite (crash_excludes_brake f Hc), (crash_excludes_turn f Hc),
      (crash_excludes_bump f Hc).
    repeat apply conj; intros H; class_settle.
  - destruct (brakePredicate f) eqn:Hb.
    + rewrite (brake_excludes_turn f Hb).
      repeat apply conj; intros H; class_settle.
    + destruct (turnPredicate f) eqn:Ht.
      * rewrite (turn_excludes_bump f Ht).
        repeat apply conj; intros H; class_settle.
      * destruct (bumpPredicate f) eqn:Hbu;
          repeat apply conj; intros H; class_settle.
Qed.

Lemma constrain_range (amt low high : float) :
  F32.ltb high low = false ->
  F32.ltb (constrain amt low high) low = false /\
  F32.gtb (constrain amt low high) high = false.
Proof.
  intros Hc. unfold constrain.
  destruct (F32.ltb amt low) eqn:Hlo.
  - split; [apply ltb_irrefl | exact Hc].
  - destruct (F32.gtb amt high) eqn:Hhi.
    + split; [exact Hc | apply ltb_irrefl].
    + split; [exact Hlo | exact Hhi].
Qed.

Lemma below_cap (x cap top : float) :
  F32.gtb x cap = false -> F32.ltb cap top = true -> F32.gtb x top = false.
Proof.
  intros Hx Hcap. destruct (F32.gtb x top) eqn:Htop; [|reflexivity].
  pose proof (ltb_trans cap top x Hcap Htop) as Ht.
  unfold F32.gtb, F32.ltb in *. congruence.
Qed.

Ltac class_absurd :=
  let H := fresh in intros H; vm_compute in H; discriminate H.

(** X15. The confidence reported for a classification never compares
    below 0.2 nor above the cap of its class (1.0 Crash, 0.95 Brake, 0.9
    Turn, 0.85 Bump), whatever the features, infinities and NaN included;
    for every class number it stays within 0.2 and 1.0. *)
Theorem confidence_is_clamped (f : list float) (c : Z) :
  F32.ltb (getClassConfidence f c) (F32.ratio 2 10) = false /\
  F32.gtb (getClassConfidence f c) (F32.of_Z 1) = false /\
  (c = CLASS_BRAKE -> F32.gtb (getClassConfidence f c) (F32.ratio 95 100) = false) /\
  (c = CLASS_TURN -> F32.gtb (getClassConfidence f c) (F32.ratio 9 10) = false) /\
  (c = CLASS_BUMP -> F32.gtb (getClassConfidence f c) (F32.ratio 85 100) = false) /\
  (c <> CLASS_CRASH -> c <> CLASS_BRAKE -> c <> CLASS_TURN -> c <> CLASS_BUMP ->
   getClassConfidence f c = F32.ratio 8 10).
Proof.
  unfold getClassConfidence. cbv zeta.
  destruct (Z.eqb_spec c CLASS_CRASH) as [-> | Hcr].
  { match goal with |- context [constrain ?a ?l ?h] =>
      destruct (constrain_range a l h eq_refl) as [Hlo Hhi] end.
    repeat apply conj; try assumption; try class_absurd.
    intros H; contradiction. }
  destruct (Z.eqb_spec c CLASS_BRAKE) as [-> | Hbr].
  { match goal with |- context [constrain ?a ?l ?h] =>
      destruct (constrain_range a l h eq_refl) as [Hlo Hhi] end.
    repeat apply conj; try assumption; try class_absurd; try (intros _; assumption).
    - exact (below_cap _ (F32.ratio 95 100) (F32.of_Z 1) Hhi eq_refl).
    - intros _ H; contradiction. }
  destruct (Z.eqb_spec c CLASS_TURN) as [-> | Htu].
  { match goal with |- context [constrain ?a ?l ?h] =>
      destruct (constrain_range a l h eq_refl) as [Hlo Hhi] end.
    repeat apply conj; try assumption; try class_absurd; try (intros _; assumption).
    - exact (below_cap _ (F32.ratio 9 10) (F32.of_Z 1) Hhi eq_refl).
    - intros _ _ H; contradiction. }
  destruct (Z.eqb_spec c CLASS_BUMP) as [-> | Hbu].
  { match goal with |- context [constrain ?a ?l ?h] =>
      destruct (constrain_range a l h eq_refl) as [Hlo Hhi] end.
    repeat apply conj; try assumption; try class_absurd; try (intros _; assumption).
    - exact (below_cap _ (F32.ratio 85 100) (F32.of_Z 1) Hhi eq_refl).
    - intros _ _ _ H; contradiction. }
  repeat apply conj; try reflexivity; try (intros H; contradiction).
Qed.

(** ** From the window to the class *)

Lemma column_nth (field : IMUData -> float) (buffer : list IMUData) (n k : nat) :
  (k < n)%nat -> (column field buffer n).[k] = field (nth k buffer zeroIMU).
Proof.
  intros Hk. unfold column.
  rewrite (nth_indep _ F32.zero (field (nth n buffer zeroIMU)))
    by (rewrite length_map, length_seq; exact Hk).
  rewrite (map_nth (fun i => field (nth i buffer zeroIMU)) (seq 0 n) n k).
  rewrite seq_nth by exact Hk. reflexivity.
Qed.

Lemma max_above (a : list float) (n : nat) (c : float) :
  (1 <= n)%nat -> F32.gtb (scan_max a n) c = true ->
  exists k, (k < n)%nat /\ F32.gtb a.[k] c = true.
Proof.
  intros Hn Hgt. destruct (scan_max_spec a n Hn) as [(k & Hk & Hm) _].
  exists k. split; [exact Hk|]. rewrite <- Hm. exact Hgt.
Qed.

Lemma max_below (a : list float) (n : nat) (c : float) :
  (1 <= n)%nat -> F32.ltb (scan_max a n) c = true ->
  forall j, (j < n)%nat -> F32.gtb a.[j] c = false.
Proof.
  intros Hn Hlt j Hj. destruct (scan_max_spec a n Hn) as [_ Hub].
  destruct (F32.gtb a.[j] c) eqn:Hgt; [|reflexivity].
  rewrite <- (Hub j Hj). symmetry. unfold F32.gtb in *.
  exact (ltb_trans (scan_max a n) c a.[j] Hlt Hgt).
Qed.

Lemma feature_accel_max (buffer : list IMUData) (n : nat) :
  (extractFeatures buffer n).[26] = scan_max (column accel_mag buffer n) n.
Proof. reflexivity. Qed.

Lemma feature_gyro_max (buffer : list IMUData) (n : nat) :
  (extractFeatures buffer n).[51] = scan_max (gyro_magnitudes buffer n) n.
Proof. reflexivity. Qed.

Lemma brake_accel (f : list float) :
  brakePredicate f = true -> F32.ltb f.[26] (F32.ratio 26 10) = true.
Proof.
  unfold brakePredicate. cbv zeta. intros Hb.
  apply andb_true_iff in Hb. destruct Hb as [Hb _].
  apply andb_true_iff in Hb. exact (proj2 Hb).
Qed.

Lemma turn_accel_gyro (f : list float) :
  turnPredicate f = true ->
  F32.gtb f.[51] (F32.of_Z 200) = true /\ F32.ltb f.[26] (F32.ratio 22 10) = true.
Proof. unfold turnPredicate. cbv zeta. intros Ht. apply andb_true_iff in Ht. exact Ht. Qed.

Lemma bump_accel (f : list float) :
  bumpPredicate f = true ->
  F32.gtb f.[26] (F32.ratio 22 10) = true /\ F32.ltb f.[26] (F32.ratio 32 10) = true.
Proof.
  unfold bumpPredicate. cbv zeta. intros Hb.
  apply andb_true_iff in Hb. destruct Hb as [Hb _].
  apply andb_true_iff in Hb. destruct Hb as [Hb _].
  apply andb_true_iff in Hb. exact Hb.
Qed.

Lemma classify_rule (f : list float) :
  (classifyEvent f = CLASS_CRASH -> crashPredicate f = true) /\
  (classifyEvent f = CLASS_BRAKE -> brakePredicate f = true) /\
  (classifyEvent f = CLASS_TURN -> turnPredicate f = true) /\
  (classifyEvent f = CLASS_BUMP -> bumpPredicate f = true).
Proof.
  unfold classifyEvent.
  destruct (crashPredicate f), (brakePredicate f), (turnPredicate f), (bumpPredicate f);
    repeat apply conj; intros H; class_settle.
Qed.

(** X16. What a class returned for a window says about the samples of the
    window ([accel_mag] of the first [n] buffer slots, [n >= 1]): Crash
    needs a sample above 3.2 g; Brake allows no sample above 2.6 g; Turn
    allows none above 2.2 g and needs a gyro magnitude above 200 deg/s;
    Bump needs a sample above 2.2 g and allows none above 3.2 g. *)
Theorem class_reflects_window (buffer : list IMUData) (n : nat) :
  (1 <= n)%nat ->
  (classifyEvent (extractFeatures buffer n) = CLASS_CRASH ->
   exists k, (k < n)%nat /\
             F32.gtb (accel_mag (nth k buffer zeroIMU)) (F32.ratio 32 10) = true) /\
  (classifyEvent (extractFeatures buffer n) = CLASS_BRAKE ->
   forall k, (k < n)%nat ->
             F32.gtb (accel_mag (nth k buffer zeroIMU)) (F32.ratio 26 10) = false) /\
  (classifyEvent (extractFeatures buffer n) = CLASS_TURN ->
   (forall k, (k < n)%nat ->
              F32.gtb (accel_mag (nth k buffer zeroIMU)) (F32.ratio 22 10) = false) /\
   (exists k, (k < n)%nat /\
              F32.gtb (gyro_magnitudes buffer n).[k] (F32.of_Z 200) = true)) /\
  (classifyEvent (extractFeatures buffer n) = CLASS_BUMP ->
   (exists k, (k < n)%nat /\
              F32.gtb (accel_mag (nth k buffer zeroIMU)) (F32.ratio 22 10) = true) /\
   (forall k, (k < n)%nat ->
              F32.gtb (accel_mag (nth k buffer zeroIMU)) (F32.ratio 32 10) = false)).
Proof.
  intros Hn.
  destruct (classify_rule (extractFeatures buffer n)) as (Hcr & Hbr & Htu & Hbu).
  repeat apply conj.
  - intros Hc. apply Hcr, crash_accel in Hc. rewrite feature_accel_max in Hc.
    destruct (max_above _ n _ Hn Hc) as (k & Hk & Hgt).
    exists k. split; [exact Hk|]. rewrite column_nth in Hgt by exact Hk. exact Hgt.
  - intros Hc k Hk. apply Hbr, brake_accel in Hc. rewrite feature_accel_max in Hc.
    rewrite <- (column_nth accel_mag buffer n k Hk).
    exact (max_below _ n _ Hn Hc k Hk).
  - intros Hc. apply Htu, turn_accel_gyro in Hc. destruct Hc as [Hg Ha].
    rewrite feature_accel_max in Ha. rewrite feature_gyro_max in Hg. split.
    + intros k Hk. rewrite <- (column_nth accel_mag buffer n k Hk).
      exact (max_below _ n _ Hn Ha k Hk).
    + exact (max_above _ n _ Hn Hg).
  - intros Hc. apply Hbu, bump_accel in Hc. destruct Hc as [Hlo Hhi].
    rewrite feature_accel_max in Hlo, Hhi. split.
    + destruct (max_above _ n _ Hn Hlo) as (k & Hk & Hgt).
      exists k. split; [exact Hk|]. rewrite column_nth in Hgt by exact Hk. exact Hgt.
    + intros k Hk. rewrite <- (column_nth accel_mag buffer n k Hk).
      exact (max_below _ n _ Hn Hhi k Hk).
Qed.

(** ** Sensor driver *)

Lemma same_float_eq (x y : float) : same_float x y = true -> x = y.
Proof.
  destruct x as [s|s| |s m e], y as [s'|s'| |s' m' e']; cbn [same_float];
    try discriminate; try reflexivity; intros H.
  - apply eqb_prop in H. congruence.
  - apply eqb_prop in H. congruence.
  - apply andb_true_iff in H. destruct H as [H He].
    apply andb_true_iff in H. destruct H as [Hs Hm].
    apply eqb_prop in Hs. apply Pos.eqb_eq in Hm. apply Z.eqb_eq in He. congruence.
Qed.

Lemma in_all_bytes (b : Z) : is_byte_value b -> In b all_bytes.
Proof.
  intros Hb. unfold all_bytes. apply in_map_iff. exists (Z.to_nat b).
  split; [unfold is_byte_value in Hb; lia|]. apply in_seq. unfold is_byte_value in Hb. lia.
Qed.

Lemma on_all_bytes_spec (ok : Z -> Z -> bool) :
  on_all_bytes ok = true ->
  forall hi lo, is_byte_value hi -> is_byte_value lo -> ok hi lo = true.
Proof.
  unfold on_all_bytes. intros H hi lo Hhi Hlo.
  pose proof (proj1 (forallb_forall _ _) H hi (in_all_bytes hi Hhi)) as H1.
  cbv beta in H1.
  exact (proj1 (forallb_forall _ _) H1 lo (in_all_bytes lo Hlo)).
Qed.

Lemma words_checked : on_all_bytes word_ok = true.
Proof. vm_compute. reflexivity. Qed.

Lemma accel_checked : on_all_bytes (fun hi lo => accel_scaling_ok (word16 hi lo)) = true.
Proof. vm_compute. reflexivity. Qed.

Lemma gyro_checked : on_all_bytes (fun hi lo => gyro_scaling_ok (word16 hi lo)) = true.
Proof. vm_compute. reflexivity. Qed.

Lemma burst_byte (regs : list Z) (k : nat) :
  burst regs -> (k < 14)%nat -> is_byte_value (nth k regs (-1)).
Proof.
  intros [Hlen Hall] Hk.
  apply (proj1 (List.Forall_forall _ _) Hall). apply nth_In. lia.
Qed.

(** X17. The 16-bit word the driver assembles from two register bytes is
    their two's complement reading, high byte first: it lies in
    -32768..32767 and is congruent to [256*hi + lo] modulo 65536. *)
Theorem sensor_word_twos_complement (hi lo : Z) :
  is_byte_value hi -> is_byte_value lo ->
  -32768 <= word16 hi lo < 32768 /\ word16 hi lo mod 65536 = 256 * hi + lo.
Proof.
  intros Hhi Hlo. pose proof (on_all_bytes_spec _ words_checked hi lo Hhi Hlo) as H.
  unfold word_ok in H. cbv zeta in H.
  apply andb_true_iff in H. destruct H as [H H3].
  apply andb_true_iff in H. destruct H as [H1 H2].
  apply Z.leb_le in H1. apply Z.ltb_lt in H2. apply Z.eqb_eq in H3.
  split; [split; assumption | exact H3].
Qed.

(** X18. For every pair of register bytes the accelerometer scaling
    [raw / 4096.0f] is exact: the result is a valid binary32 number in
    [-8, 8), and multiplying it by 4096 gives back [(float)raw]. *)
Theorem accel_scaling_exact (hi lo : Z) :
  is_byte_value hi -> is_byte_value lo ->
  F32.valid (accel_of_raw (word16 hi lo)) = true /\
  F32.mul (accel_of_raw (word16 hi lo)) (F32.of_Z 4096) = F32.of_Z (word16 hi lo) /\
  F32.ltb (accel_of_raw (word16 hi lo)) (F32.of_Z (-8)) = false /\
  F32.ltb (accel_of_raw (word16 hi lo)) (F32.of_Z 8) = true.
Proof.
  intros Hhi Hlo.
  pose proof (on_all_bytes_spec _ accel_checked hi lo Hhi Hlo) as H.
  cbv beta in H. unfold accel_scaling_ok in H. cbv zeta in H.
  apply andb_true_iff in H. destruct H as [H H4].
  apply andb_true_iff in H. destruct H as [H H3].
  apply andb_true_iff in H. destruct H as [H1 H2].
  apply negb_true_iff in H3. apply same_float_eq in H2.
  repeat apply conj; assumption.
Qed.

(** X19. A reading taken from a complete burst has every accelerometer
    axis a valid number in [-8, 8) g and every gyroscope axis a valid
    number within +-501 deg/s, and carries the clock reading it was given:
    no axis is NaN or infinite. *)
Theorem readMPU6500_ranges (regs : list Z) (t : Z) :
  burst regs ->
  Forall (fun a => F32.valid a = true /\
                   F32.ltb a (F32.of_Z (-8)) = false /\ F32.ltb a (F32.of_Z 8) = true)
         [ accel_x (readMPU6500 regs t); accel_y (readMPU6500 regs t);
           accel_z (readMPU6500 regs t) ] /\
  Forall (fun g => F32.valid g = true /\
                   F32.ltb (F32.of_Z (-501)) g = true /\ F32.ltb g (F32.of_Z 501) = true)
         [ gyro_x (readMPU6500 regs t); gyro_y (readMPU6500 regs t);
           gyro_z (readMPU6500 regs t) ] /\
  timestamp (readMPU6500 regs t) = t.
Proof.
  intros Hb.
  assert (Ha : forall i j, (i < 14)%nat -> (j < 14)%nat ->
             let a := accel_of_raw (word16 (nth i regs (-1)) (nth j regs (-1))) in
             F32.valid a = true /\
             F32.ltb a (F32.of_Z (-8)) = false /\ F32.ltb a (F32.of_Z 8) = true).
  { intros i j Hi Hj. cbv zeta.
    pose proof (on_all_bytes_spec _ accel_checked _ _
                  (burst_byte regs i Hb Hi) (burst_byte regs j Hb Hj)) as H.
    cbv beta in H. unfold accel_scaling_ok in H. cbv zeta in H.
    apply andb_true_iff in H. destruct H as [H H4].
    apply andb_true_iff in H. destruct H as [H H3].
    apply andb_true_iff in H. destruct H as [H1 _].
    apply negb_true_iff in H3. repeat apply conj; assumption. }
  assert (Hg : forall i j, (i < 14)%nat -> (j < 14)%nat ->
             let g := gyro_of_raw (word16 (nth i regs (-1)) (nth j regs (-1))) in
             F32.valid g = true /\
             F32.ltb (F32.of_Z (-501)) g = true /\ F32.ltb g (F32.of_Z 501) = true).
  { intros i j Hi Hj. cbv zeta.
    pose proof (on_all_bytes_spec _ gyro_checked _ _
                  (burst_byte regs i Hb Hi) (burst_byte regs j Hb Hj)) as H.
    cbv beta in H. unfold gyro_scaling_ok in H. cbv zeta in H.
    apply andb_true_iff in H. destruct H as [H H3].
    apply andb_true_iff in H. destruct H as [H1 H2].
    repeat apply conj; assumption. }
  unfold readMPU6500. cbv zeta. cbn [accel_x accel_y accel_z gyro_x gyro_y gyro_z timestamp].
  split; [|split; [|reflexivity]].
  - repeat constructor; apply Ha; lia.
  - repeat constructor; apply Hg; lia.
Qed.

(** ** Commands *)

Lemma onWrite_cases (v : string) (st : State) :
  (~ In v known_commands /\ onWrite v st = st) \/
  (In v known_commands /\
   exists p, In p [ LED_TURN_LEFT; LED_TURN_RIGHT; LED_PARTY ] /\
             onWrite v st = set_ledAnimationStep 0 (set_currentPattern p st)) \/
  (In v known_commands /\ onWrite v st = set_currentPattern (restPattern st) st).
Proof.
  unfold onWrite, known_commands.
  destruct (0 <? String.length v)%nat eqn:Hlen.
  2:{ left. split; [|reflexivity]. apply Nat.ltb_ge in Hlen.
      destruct v; [|cbn in Hlen; lia].
      intros H. cbn in H. repeat (destruct H as [H | H]; [discriminate H|]). exact H. }
  destruct (String.eqb_spec v "LEFT_ON") as [-> | N1].
  { right. left. split; [cbn; tauto|]. exists LED_TURN_LEFT. split; [cbn; tauto | reflexivity]. }
  destruct (String.eqb_spec v "RIGHT_ON") as [-> | N2].
  { right. left. split; [cbn; tauto|]. exists LED_TURN_RIGHT. split; [cbn; tauto | reflexivity]. }
  destruct (String.eqb_spec v "TURN_OFF") as [-> | N3].
  { right. right. split; [cbn; tauto | reflexivity]. }
  destruct (String.eqb_spec v "PARTY_ON") as [-> | N4].
  { right. left. split; [cbn; tauto|]. exists LED_PARTY. split; [cbn; tauto | reflexivity]. }
  destruct (String.eqb_spec v "PARTY_OFF") as [-> | N5].
  { right. right. split; [cbn; tauto | reflexivity]. }
  destruct (String.eqb_spec v "CRASH_DISMISS") as [-> | N6].
  { right. right. split; [cbn; tauto | reflexivity]. }
  left. split; [|reflexivity].
  intros H. cbn in H.
  destruct H as [H | [H | [H | [H | [H | [H | []]]]]]]; symmetry in H; contradiction.
Qed.

(** X20. A command changes nothing but the LED pattern and its animation
    step: the link flag, the sample buffer, the detector's stamps and the
    LED deadlines are as before, and nothing is sent. The pattern it
    leaves is a turn signal, Party, the rest pattern of the link state, or
    the pattern already showing; a command outside the six known strings
    (the empty one included) changes nothing at all; repeating a command
    changes nothing more. *)
Theorem commands_only_set_the_pattern (v : string) (st : State) :
  (exists p n, onWrite v st = set_ledAnimationStep n (set_currentPattern p st) /\
               In p [ LED_TURN_LEFT; LED_TURN_RIGHT; LED_PARTY; restPattern st;
                      currentPattern st ]) /\
  snd (step st (Command v)) = [] /\
  (In v known_commands \/ onWrite v st = st) /\
  onWrite v (onWrite v st) = onWrite v st.
Proof.
  repeat apply conj.
  - destruct (onWrite_cases v st) as [[_ E] | [(_ & p & Hp & E) | [_ E]]].
    + exists (currentPattern st), (ledAnimationStep st). split; [|cbn; tauto].
      rewrite E. destruct st. reflexivity.
    + exists p, 0. split; [exact E|]. cbn in Hp. cbn. tauto.
    + exists (restPattern st), (ledAnimationStep st). split; [|cbn; tauto].
      rewrite E. destruct st. reflexivity.
  - reflexivity.
  - destruct (onWrite_cases v st) as [[_ E] | [(H & _) | [H _]]]; auto.
  - unfold onWrite. destruct (0 <? String.length v)%nat; [|reflexivity].
    repeat match goal with
           | |- context [String.eqb v ?s] => destruct (String.eqb v s)
           end; destruct st; reflexivity.
Qed.

(** ** The ring buffer under the post-event capture *)

Lemma ring_slots_differ (a i j : nat) :
  (j < i)%nat -> (i < 150)%nat -> ((a + j) mod 150 <> (a + i) mod 150)%nat.
Proof.
  intros Hji Hi E.
  pose proof (Nat.div_mod_eq (a + j) 150) as D1.
  pose proof (Nat.div_mod_eq (a + i) 150) as D2.
  pose proof (Nat.mod_upper_bound (a + i) 150 ltac:(lia)) as B.
  rewrite E in D1. lia.
Qed.

Lemma leds_fold_buffer (ts : list Z) (st : State) :
  imuBuffer (fold_left (fun s t => updateLEDs t s) ts st) = imuBuffer st /\
  bufferIndex (fold_left (fun s t => updateLEDs t s) ts st) = bufferIndex st.
Proof.
  revert st. induction ts as [|t ts IH]; intros st; cbn [fold_left]; [split; reflexivity|].
  destruct (IH (updateLEDs t st)) as [H1 H2].
  destruct (updateLEDs_detection t st) as (_ & _ & G).
  rewrite H1, H2, updateLEDs_buffer, G. split; reflexivity.
Qed.

(** X21. The post-event capture writes its [n] samples ([n] at most the
    window size) into the ring at the [n] slots that follow the write
    index, wrapping at the end of the array: afterwards slot
    [(index + j) mod 150] holds the [j]-th captured sample, every other
    slot is as before, the index has advanced by [n] modulo 150, and
    exactly [n] sensor reads were made. *)
Theorem capture_fills_next_slots (n : nat) (post : nat -> PostInput) (st : State) :
  length (imuBuffer st) = EVENT_WINDOW_SIZE ->
  (bufferIndex st < EVENT_WINDOW_SIZE)%nat ->
  (n <= EVENT_WINDOW_SIZE)%nat ->
  bufferIndex (fst (capturePostSamples n post st))
  = ((bufferIndex st + n) mod EVENT_WINDOW_SIZE)%nat /\
  (forall j, (j < n)%nat ->
     imuBuffer (fst (capturePostSamples n post st))
       !! ((bufferIndex st + j) mod EVENT_WINDOW_SIZE)%nat
     = Some (post_sample (post j))) /\
  (forall k, (forall j, (j < n)%nat -> k <> ((bufferIndex st + j) mod EVENT_WINDOW_SIZE)%nat) ->
     imuBuffer (fst (capturePostSamples n post st)) !! k = imuBuffer st !! k) /\
  reads (snd (capturePostSamples n post st)) = n.
Proof.
  intros Hlen Hidx Hn. unfold EVENT_WINDOW_SIZE in *. unfold capturePostSamples.
  apply (for_loop_ind_idx
           (fun i (r : State * list Effect) =>
              length (imuBuffer (fst r)) = 150%nat /\
              bufferIndex (fst r) = ((bufferIndex st + i) mod 150)%nat /\
              (forall j, (j < i)%nat ->
                 imuBuffer (fst r) !! ((bufferIndex st + j) mod 150)%nat
                 = Some (post_sample (post j))) /\
              (forall k, (forall j, (j < i)%nat -> k <> ((bufferIndex st + j) mod 150)%nat) ->
                 imuBuffer (fst r) !! k = imuBuffer st !! k) /\
              reads (snd r) = i)
           0%nat n _ (st, [])); [lia | |].
  - cbn [fst snd]. repeat apply conj.
    + exact Hlen.
    + rewrite Nat.add_0_r, Nat.mod_small by exact Hidx. reflexivity.
    + intros j Hj. lia.
    + intros k _. reflexivity.
    + reflexivity.
  - intros i [s out] Hi (Il & Ii & Iw & Io & Ir). cbn [fst snd] in *.
    destruct (leds_fold_buffer (led_times (post i)) s) as [Lb Li].
    set (s1 := fold_left (fun s t => updateLEDs t s) (led_times (post i)) s) in *.
    assert (Hb : imuBuffer (storeSample (post_sample (post i)) s1)
                 = <[((bufferIndex st + i) mod 150)%nat := post_sample (post i)]> (imuBuffer s)).
    { unfold storeSample. rewrite Li, Lb, Ii. destruct s1. reflexivity. }
    assert (Hx : bufferIndex (storeSample (post_sample (post i)) s1)
                 = ((bufferIndex st + S i) mod 150)%nat).
    { unfold storeSample. rewrite Li, Ii. destruct s1. state_simpl.
      rewrite Nat.Div0.add_mod_idemp_l. f_equal. lia. }
    rewrite Hb, Hx. repeat apply conj.
    + rewrite length_insert. exact Il.
    + reflexivity.
    + intros j Hj. destruct (Nat.eq_dec j i) as [-> | Hne].
      * apply list_lookup_insert_eq. rewrite Il. apply Nat.mod_upper_bound. lia.
      * rewrite list_lookup_insert_ne by (apply not_eq_sym, ring_slots_differ; lia).
        apply Iw. lia.
    + intros k Hk. rewrite list_lookup_insert_ne by (apply not_eq_sym, Hk; lia).
      apply Io. intros j Hj. apply Hk. lia.
    + rewrite reads_app, Ir. unfold reads. cbn [filter].
      rewrite filter_cons_True by reflexivity. cbn [length].
      destruct (sendIMUData_cases (post_sample (post i))
                  (storeSample (post_sample (post i)) s1)) as [-> | ->].
      * cbn. lia.
      * rewrite filter_cons_False by (cbn; discriminate). cbn. lia.
Qed.

(** ** Sampling rate *)

Lemma updateLEDs_sample_time (now : Z) (st : State) :
  lastSampleTime (updateLEDs now st) = lastSampleTime st.
Proof.
  unfold updateLEDs. cbv zeta. destruct st. state_simpl.
  repeat case_match; reflexivity.
Qed.

Lemma callbacks_keep_sampling (e : Event) (st : State) :
  (forall i, e <> Loop i) ->
  snd (step st e) = [] /\
  lastSampleTime (fst (step st e)) = lastSampleTime st /\
  imuBuffer (fst (step st e)) = imuBuffer st /\
  bufferIndex (fst (step st e)) = bufferIndex st /\
  bufferFull (fst (step st e)) = bufferFull st /\
  snd (detection_state (fst (step st e))) = snd (detection_state st).
Proof.
  intros Hl. destruct e as [i | v | t | ]; [exfalso; exact (Hl i eq_refl) | | |];
    cbn [step fst snd].
  - unfold onWrite. destruct st. repeat case_match; repeat apply conj; reflexivity.
  - unfold onConnect. destruct st. repeat apply conj; reflexivity.
  - unfold onDisconnect. destruct st. repeat apply conj; reflexivity.
Qed.

(** X22. The sampler is rate-limited to one sample per 20 ms of the
    wrapping millisecond clock: through any run whose loop iterations all
    begin less than [SAMPLE_INTERVAL_MS] after the last sample time,
    nothing is read, sent or classified, and the buffer, its index and the
    detector's five cooldown stamps are exactly as before, whatever
    commands and link events come in between. *)
Theorem sampling_is_rate_limited (st : State) (es : list Event) :
  within SAMPLE_INTERVAL_MS (lastSampleTime st) es ->
  snd (run st es) = [] /\
  lastSampleTime (fst (run st es)) = lastSampleTime st /\
  imuBuffer (fst (run st es)) = imuBuffer st /\
  bufferIndex (fst (run st es)) = bufferIndex st /\
  bufferFull (fst (run st es)) = bufferFull st /\
  snd (detection_state (fst (run st es))) = snd (detection_state st).
Proof.
  revert st. induction es as [|e es IH]; intros st Hw.
  - cbn [run fst snd]. repeat apply conj; reflexivity.
  - cbn [run].
    assert (Hs : snd (step st e) = [] /\
                 lastSampleTime (fst (step st e)) = lastSampleTime st /\
                 imuBuffer (fst (step st e)) = imuBuffer st /\
                 bufferIndex (fst (step st e)) = bufferIndex st /\
                 bufferFull (fst (step st e)) = bufferFull st /\
                 snd (detection_state (fst (step st e))) = snd (detection_state st)).
    { destruct e as [i | v | t | ].
      - assert (Hi : (SAMPLE_INTERVAL_MS <=? elapsed (now i) (lastSampleTime st)) = false).
        { apply Z.leb_gt. apply Hw. left. reflexivity. }
        cbn [step]. rewrite (loop_idle i st Hi). cbn [fst snd].
        destruct (updateLEDs_detection (t_led i) st) as (D1 & D2 & D3).
        rewrite updateLEDs_sample_time, updateLEDs_buffer, D1, D2, D3.
        repeat apply conj; reflexivity.
      - apply callbacks_keep_sampling. intros i; discriminate.
      - apply callbacks_keep_sampling. intros i; discriminate.
      - apply callbacks_keep_sampling. intros i; discriminate. }
    destruct (step st e) as [st1 out1]. cbn [fst snd] in Hs.
    destruct Hs as (S0 & S1 & S2 & S3 & S4 & S5).
    assert (Hw' : within SAMPLE_INTERVAL_MS (lastSampleTime st1) es).
    { intros i Hi. rewrite S1. apply Hw. right. exact Hi. }
    specialize (IH st1 Hw').
    destruct (run st1 es) as [st2 out2]. cbn [fst snd] in *.
    destruct IH as (I0 & I1 & I2 & I3 & I4 & I5).
    rewrite S0, I0, I1, I2, I3, I4, I5, S1, S2, S3, S4, S5.
    repeat apply conj; reflexivity.
Qed.

(** ** Instances *)

Import Examples.

Lemma window_not_empty : (1 <= EVENT_WINDOW_SIZE)%nat.
Proof. unfold EVENT_WINDOW_SIZE. lia. Qed.

Lemma spike_window_is_crash :
  classifyEvent (extractFeatures spike_window EVENT_WINDOW_SIZE) = CLASS_CRASH.
Proof. vm_compute. reflexivity. Qed.

Lemma brake_window_is_brake :
  classifyEvent (extractFeatures brake_window EVENT_WINDOW_SIZE) = CLASS_BRAKE.
Proof. vm_compute. reflexivity. Qed.

(** A window with one violent sample is classified Crash, and so holds a
    sample above 3.2 g; a window of sustained braking is classified Brake,
    and so holds no sample above 2.6 g. *)
Lemma class_reflects_window_witness :
  (classifyEvent (extractFeatures spike_window EVENT_WINDOW_SIZE) = CLASS_CRASH /\
   exists k, (k < EVENT_WINDOW_SIZE)%nat /\
             F32.gtb (accel_mag (nth k spike_window zeroIMU)) (F32.ratio 32 10) = true) /\
  (classifyEvent (extractFeatures brake_window EVENT_WINDOW_SIZE) = CLASS_BRAKE /\
   forall k, (k < EVENT_WINDOW_SIZE)%nat ->
             F32.gtb (accel_mag (nth k brake_window zeroIMU)) (F32.ratio 26 10) = false).
Proof.
  exact (conj
           (conj spike_window_is_crash
              (proj1 (class_reflects_window spike_window EVENT_WINDOW_SIZE window_not_empty)
                 spike_window_is_crash))
           (conj brake_window_is_brake
              (proj1 (proj2 (class_reflects_window brake_window EVENT_WINDOW_SIZE
                               window_not_empty))
                 brake_window_is_brake))).
Defined.

Lemma buffer_full_is_permanent_witness :
  bufferFull (fst (run full_state hit_then_release)) = true.
Proof. exact (buffer_full_is_permanent full_state hit_then_release eq_refl). Defined.

Lemma offline_run_has_no_connect : forall t, ~ In (Connect t) offline_run.
Proof.
  intros t H. unfold offline_run in H. cbn [In] in H.
  destruct H as [H | [H | [H | [H | []]]]]; discriminate H.
Qed.

Lemma nothing_sent_while_disconnected_witness :
  deviceConnected (fst (run init_state offline_run)) = false /\
  Forall (fun e => is_notify e = false) (snd (run init_state offline_run)).
Proof.
  exact (nothing_sent_while_disconnected init_state offline_run eq_refl
           offline_run_has_no_connect).
Defined.

Lemma braking_deadline_set : brakeEndTime braking_state <> 0.
Proof. vm_compute. discriminate. Qed.

Lemma braking_deadline_passed : 1900 > brakeEndTime braking_state.
Proof. vm_compute. reflexivity. Qed.

Lemma brake_reverts_on_deadline_witness :
  currentPattern (updateLEDs 1900 braking_state) = savedPattern braking_state /\
  brakeEndTime (updateLEDs 1900 braking_state) = 0.
Proof.
  exact (proj1 (brake_reverts_on_deadline [] 1900 braking_state eq_refl eq_refl)
           braking_deadline_set braking_deadline_passed).
Defined.

Ltac within_by_cases :=
  let i := fresh "i" in
  let H := fresh "H" in
  intros i H; cbn [In] in H;
  repeat (destruct H as [H | H];
          [first [discriminate H | (injection H as <-; vm_compute; reflexivity)]|]);
  destruct H.

Lemma early_spikes_within_attempt :
  within ML_ATTEMPT_COOLDOWN_MS (lastMLAttemptMs full_state) early_spikes.
Proof. unfold within, early_spikes. within_by_cases. Qed.

Lemma model_path_rate_limit_witness :
  lastMLAttemptMs (fst (run full_state early_spikes)) = lastMLAttemptMs full_state /\
  Forall (fun e => is_model e = false) (snd (run full_state early_spikes)).
Proof. exact (model_path_rate_limit full_state early_spikes early_spikes_within_attempt). Defined.

Lemma early_spikes_within_brake :
  within ML_BRAKE_COOLDOWN_MS (lastMLBrakeMs full_state) early_spikes.
Proof. unfold within, early_spikes. within_by_cases. Qed.

Lemma model_notifications_respect_cooldowns_witness :
  lastMLBrakeMs (fst (run full_state early_spikes)) = lastMLBrakeMs full_state /\
  count_events ModelPath CLASS_BRAKE (snd (run full_state early_spikes)) = 0%nat.
Proof.
  exact (proj1 (model_notifications_respect_cooldowns full_state early_spikes)
           early_spikes_within_brake).
Defined.

Lemma early_jolts_within :
  within LOCAL_BRAKE_COOLDOWN_MS (lastLocalBrakeMs linked_state) early_jolts.
Proof. unfold within, early_jolts. within_by_cases. Qed.

Lemma local_brake_respects_cooldown_witness :
  lastLocalBrakeMs (fst (run linked_state early_jolts)) = lastLocalBrakeMs linked_state /\
  count_events LocalPath CLASS_BRAKE (snd (run linked_state early_jolts)) = 0%nat.
Proof. exact (local_brake_respects_cooldown linked_state early_jolts early_jolts_within). Defined.

Lemma fast_polls_within :
  within SAMPLE_INTERVAL_MS (lastSampleTime linked_state) fast_polls.
Proof. unfold within, fast_polls. within_by_cases. Qed.

Lemma sampling_is_rate_limited_witness :
  snd (run linked_state fast_polls) = [] /\
  lastSampleTime (fst (run linked_state fast_polls)) = lastSampleTime linked_state /\
  imuBuffer (fst (run linked_state fast_polls)) = imuBuffer linked_state /\
  bufferIndex (fst (run linked_state fast_polls)) = bufferIndex linked_state /\
  bufferFull (fst (run linked_state fast_polls)) = bufferFull linked_state /\
  snd (detection_state (fst (run linked_state fast_polls)))
  = snd (detection_state linked_state).
Proof. exact (sampling_is_rate_limited linked_state fast_polls fast_polls_within). Defined.

Lemma three_samples : (1 <= 3)%nat.
Proof. lia. Qed.

Lemma scans_bound_the_series_witness :
  (exists k, (k < 3)%nat /\ scan_max updown 3 = updown.[k]) /\
  (forall j, (j < 3)%nat -> F32.gtb updown.[j] (scan_max updown 3) = false) /\
  (exists k, (k < 3)%nat /\ scan_min updown 3 = updown.[k]) /\
  (forall j, (j < 3)%nat -> F32.ltb updown.[j] (scan_min updown 3) = false).
Proof. exact (scans_bound_the_series updown 3 three_samples). Defined.

Lemma byte_255 : is_byte_value 255.
Proof. unfold is_byte_value. lia. Qed.

Lemma byte_56 : is_byte_value 56.
Proof. unfold is_byte_value. lia. Qed.

Lemma byte_16 : is_byte_value 16.
Proof. unfold is_byte_value. lia. Qed.

Lemma byte_0 : is_byte_value 0.
Proof. unfold is_byte_value. lia. Qed.

Lemma sensor_word_twos_complement_witness :
  -32768 <= word16 255 56 < 32768 /\ word16 255 56 mod 65536 = 256 * 255 + 56.
Proof. exact (sensor_word_twos_complement 255 56 byte_255 byte_56). Defined.

Lemma accel_scaling_exact_witness :
  F32.valid (accel_of_raw (word16 16 0)) = true /\
  F32.mul (accel_of_raw (word16 16 0)) (F32.of_Z 4096) = F32.of_Z (word16 16 0) /\
  F32.ltb (accel_of_raw (word16 16 0)) (F32.of_Z (-8)) = false /\
  F32.ltb (accel_of_raw (word16 16 0)) (F32.of_Z 8) = true.
Proof. exact (accel_scaling_exact 16 0 byte_16 byte_0). Defined.

Lemma rest_burst_complete : burst rest_burst.
Proof.
  split; [reflexivity|]. unfold rest_burst.
  repeat (constructor; [unfold is_byte_value; lia|]). constructor.
Qed.

Lemma readMPU6500_ranges_witness :
  Forall (fun a => F32.valid a = true /\
                   F32.ltb a (F32.of_Z (-8)) = false /\ F32.ltb a (F32.of_Z 8) = true)
         [ accel_x (readMPU6500 rest_burst 1000); accel_y (readMPU6500 rest_burst 1000);
           accel_z (readMPU6500 rest_burst 1000) ] /\
  Forall (fun g => F32.valid g = true /\
                   F32.ltb (F32.of_Z (-501)) g = true /\ F32.ltb g (F32.of_Z 501) = true)
         [ gyro_x (readMPU6500 rest_burst 1000); gyro_y (readMPU6500 rest_burst 1000);
           gyro_z (readMPU6500 rest_burst 1000) ] /\
  timestamp (readMPU6500 rest_burst 1000) = 1000.
Proof. exact (readMPU6500_ranges rest_burst 1000 rest_burst_complete). Defined.

Lemma init_buffer_length : length (imuBuffer init_state) = EVENT_WINDOW_SIZE.
Proof. reflexivity. Qed.

Lemma init_index_in_window : (bufferIndex init_state < EVENT_WINDOW_SIZE)%nat.
Proof. unfold EVENT_WINDOW_SIZE. cbn. lia. Qed.

Lemma three_fit_the_window : (3 <= EVENT_WINDOW_SIZE)%nat.
Proof. unfold EVENT_WINDOW_SIZE. lia. Qed.

Lemma capture_fills_next_slots_witness :
  bufferIndex (fst (capturePostSamples 3 quiet_post init_state))
  = ((bufferIndex init_state + 3) mod EVENT_WINDOW_SIZE)%nat /\
  (forall j, (j < 3)%nat ->
     imuBuffer (fst (capturePostSamples 3 quiet_post init_state))
       !! ((bufferIndex init_state + j) mod EVENT_WINDOW_SIZE)%nat
     = Some (post_sample (quiet_post j))) /\
  (forall k, (forall j, (j < 3)%nat ->
                        k <> ((bufferIndex init_state + j) mod EVENT_WINDOW_SIZE)%nat) ->
     imuBuffer (fst (capturePostSamples 3 quiet_post init_state)) !! k
     = imuBuffer init_state !! k) /\
  reads (snd (capturePostSamples 3 quiet_post init_state)) = 3%nat.
Proof.
  exact (capture_fills_next_slots 3 quiet_post init_state init_buffer_length
           init_index_in_window three_fit_the_window).
Defined.
